(** * Finity: the state-machine execution engine of src/core/StateMachine.js

    A shallow embedding of the class [StateMachine] and the properties its
    specification states about it.

    How the JavaScript is read:

    - an event is a string; a state identifier is a string or [undefined],
      which is what the engine reads where a configuration has no value for
      a state ([StateId]); the private symbol [stopped] is a constructor of
      its own ([CurState]), since no configuration can contain it;
    - a JavaScript [Map] is a [gmap];
    - an [async] method is a computation in the monad [M]: it threads the
      mutable fields of the engine ([Runtime]) and the world outside it
      ([World]: the log of every call the engine makes, the identifier
      supply, the task scheduler), and ends with a returned value or a
      thrown one ([Outcome]);
    - hooks, actions and conditions are user functions: the model keeps their
      name, which goes into the log at each call, and their result as a
      function of their arguments; they do not re-enter the engine;
    - a child engine is stored in [submachines] by its mutable part; its
      [config] field is, from its construction on, the [submachine] entry of
      the state that owns it (configurations are immutable), and the methods
      recurse on that nesting;
    - [stateData] is created by the constructor and never read or written by
      the engine afterwards; it is left out. *)

From stdpp Require Import gmap strings list fin_maps.

#[local] Set Warnings "-register-all".
#[local] Open Scope Z_scope.

(** ** Values *)

Abbreviation EventId := string.

(** A state identifier as the engine reads it from a configuration: a name,
    or [undefined] where the property is missing. Both are values that the
    engine compares with [!==] and uses as keys of its maps. *)
Inductive StateId : Type :=
  | undefinedState
  | State (name : string).

Coercion State : string >-> StateId.

#[global] Instance StateId_eq_dec : EqDecision StateId.
Proof. solve_decision. Defined.

#[global] Instance StateId_countable : Countable StateId.
Proof.
  refine (inj_countable'
            (fun s => match s with undefinedState => None | State n => Some n end)
            (fun o => match o with None => undefinedState | Some n => State n end)
            _).
  intros []; reflexivity.
Defined.

(** [currentState]: the symbol [stopped], or a state identifier. *)
Inductive CurState : Type :=
  | stopped
  | Active (s : StateId).

#[global] Instance CurState_eq_dec : EqDecision CurState.
Proof. solve_decision. Defined.

(** The two symbols of the module that are used as markers. *)
Inductive Symbol : Type :=
  | symHandlerThrewError
  | ignoreHandlerResult.

(** JavaScript values as far as the engine looks into them, and the context
    object passed to every hook, action and condition. *)
Inductive Value : Type :=
  | VUndefined
  | VNull
  | VBool (b : bool)
  | VNum (n : Z)
  | VStr (s : string)
  | VSym (y : Symbol)
  | VArr (xs : list Value)
  | VError (msg : string)
  | UnhandledEventError (ev : EventId) (state : CurState) (context : Context)
  | StateMachineNotStartedError (machine : nat) (msg : string)
  | StateMachineConfigError (msg : string)
with Context : Type :=
  | mkContext (stateMachine : nat) (event : option EventId)
              (eventPayload result error : option Value).

Definition stateMachine (c : Context) : nat :=
  let 'mkContext m _ _ _ _ := c in m.
Definition event (c : Context) : option EventId :=
  let 'mkContext _ e _ _ _ := c in e.
Definition eventPayload (c : Context) : option Value :=
  let 'mkContext _ _ p _ _ := c in p.

(** JavaScript truthiness. *)
Definition truthy (v : Value) : bool :=
  match v with
  | VUndefined | VNull => false
  | VBool b => b
  | VNum n => negb (n =? 0)
  | VStr s => negb (String.eqb s EmptyString)
  | _ => true
  end.

(** How a call ends. *)
Inductive Outcome (A : Type) : Type :=
  | Returns (a : A)
  | Throws (e : Value).
Arguments Returns {A} a.
Arguments Throws {A} e.

(** The argument lists the engine calls handlers with. *)
Inductive HArgs : Type :=
  | EventArgs (ev : EventId) (state : CurState) (context : Context)
  | TransitionArgs (from to : CurState) (context : Context)
  | StateArgs (state : CurState) (context : Context).

Record Handler : Type := mkHandler {
  hname : string;
  hcall : HArgs -> Outcome Value
}.

Record Condition : Type := mkCondition {
  cname : string;
  ccall : Context -> Outcome Value
}.

(** ** Configuration *)

Record TransitionConfig : Type := mkTransition {
  condition : option Condition;
  actions : list Handler;
  targetState : option StateId;   (* [None] is JavaScript's [null]; a missing
                                     property is [Some undefinedState] *)
  isInternal : bool;
  ignore : bool
}.

(** An EventConfig, the any-event trigger and the triggers of an async action
    all have this shape. *)
Record TriggerConfig : Type := mkTrigger {
  transitions : list TransitionConfig
}.

Record AsyncActionConfig : Type := mkAsyncAction {
  action : string;
  successTrigger : TriggerConfig;
  failureTrigger : TriggerConfig
}.

Record TimerConfig : Type := mkTimer {
  timeout : Z;
  timerTrigger : TriggerConfig
}.

Record GlobalHooks : Type := mkGlobal {
  unhandledEventHooks : list Handler;
  transitionHooks : list Handler;
  stateEnterHooks : list Handler;
  stateExitHooks : list Handler;
  stateChangeHooks : list Handler
}.

(** A configuration, and what a caller may hand to the constructor in its
    place ([ConfigArg]): nothing, a primitive, an object the constructor
    rejects as malformed, or a configuration. *)
Inductive Config : Type :=
  | mkConfig (initialState : StateId) (global : GlobalHooks)
             (states : gmap StateId StateConfig)
with StateConfig : Type :=
  | mkStateConfig (entryActions exitActions : list Handler)
                  (events : gmap EventId TriggerConfig)
                  (anyEventTrigger : option TriggerConfig)
                  (asyncActions : list AsyncActionConfig)
                  (timers : list TimerConfig)
                  (submachine : ConfigArg)
with ConfigArg : Type :=
  | ArgMissing                       (* undefined or null *)
  | ArgPrimitive (isTruthy : bool)   (* typeof is not 'object' *)
  | ArgMalformed                     (* an object failing the third check *)
  | ArgConfig (c : Config).

Definition initialState (c : Config) : StateId :=
  let 'mkConfig i _ _ := c in i.
Definition global (c : Config) : GlobalHooks :=
  let 'mkConfig _ g _ := c in g.
Definition states (c : Config) : gmap StateId StateConfig :=
  let 'mkConfig _ _ s := c in s.

Definition entryActions (sc : StateConfig) : list Handler :=
  let 'mkStateConfig a _ _ _ _ _ _ := sc in a.
Definition exitActions (sc : StateConfig) : list Handler :=
  let 'mkStateConfig _ a _ _ _ _ _ := sc in a.
Definition events (sc : StateConfig) : gmap EventId TriggerConfig :=
  let 'mkStateConfig _ _ e _ _ _ _ := sc in e.
Definition anyEventTrigger (sc : StateConfig) : option TriggerConfig :=
  let 'mkStateConfig _ _ _ t _ _ _ := sc in t.
Definition asyncActions (sc : StateConfig) : list AsyncActionConfig :=
  let 'mkStateConfig _ _ _ _ a _ _ := sc in a.
Definition timers (sc : StateConfig) : list TimerConfig :=
  let 'mkStateConfig _ _ _ _ _ t _ := sc in t.
Definition submachine (sc : StateConfig) : ConfigArg :=
  let 'mkStateConfig _ _ _ _ _ _ s := sc in s.

(** [config.states.get(state)]; the symbol [stopped] is never a key. *)
Definition stateConfigOf (c : Config) (state : CurState) : option StateConfig :=
  match state with
  | stopped => None
  | Active s => states c !! s
  end.

(** ** The engine and the world around it *)

(** The mutable fields of a [StateMachine] instance. [oid] stands for the
    identity of the object. *)
Inductive Runtime : Type := mkRuntime {
  oid : nat;
  currentState : CurState;
  submachines : gmap StateId Runtime;
  timerIDs : option (list nat);
  asyncActionCancelers : option (list nat)
}.

(** What the engine does to the world, in the order it does it. *)
Inductive Obs : Type :=
  | Called (h : string) (args : HArgs)
  | Evaluated (c : string) (context : Context)
  | Constructed (id : nat)
  | TimerSet (id : nat) (ms : Z)
  | TimerCleared (id : nat)
  | Deferred (a : string) (state : CurState) (context : Context)
  | Submitted (a : string) (state : CurState) (context : Context) (reg : nat)
  | Canceled (reg : nat)
  | Unhandled (e : Value).   (* a rejection that no caller receives *)

(** [scheduler] is the task scheduler as the engine sees it: for each coming
    [enqueue], whether the scheduler is idle and runs the unit at once. *)
Record World : Type := mkWorld {
  trace : list Obs;
  fresh : nat;
  scheduler : list bool
}.

(** ** The monad of engine methods *)

Definition M (A : Type) : Type := Runtime -> World -> Runtime * World * Outcome A.

Definition ret {A} (a : A) : M A := fun rt w => (rt, w, Returns a).

Definition throw {A} (e : Value) : M A := fun rt w => (rt, w, Throws e).

Definition bind {A B} (m : M A) (k : A -> M B) : M B := fun rt w =>
  match m rt w with
  | (rt', w', Returns a) => k a rt' w'
  | (rt', w', Throws e) => (rt', w', Throws e)
  end.

(** [try { m } catch (error) { h error }] *)
Definition try_catch {A} (m : M A) (h : Value -> M A) : M A := fun rt w =>
  match m rt w with
  | (rt', w', Returns a) => (rt', w', Returns a)
  | (rt', w', Throws e) => h e rt' w'
  end.

Notation "'let!' x ':=' m 'in' k" := (bind m (fun x => k))
  (at level 10, x name, m at level 100, k at level 200).
Notation "m '>>' k" := (bind m (fun _ => k))
  (at level 65, right associativity).

Definition this : M Runtime := fun rt w => (rt, w, Returns rt).

Definition update (f : Runtime -> Runtime) : M unit := fun rt w => (f rt, w, Returns tt).

Definition emit (os : list Obs) : M unit := fun rt w =>
  (rt, mkWorld (trace w ++ os) (fresh w) (scheduler w), Returns tt).

Definition newId : M nat := fun rt w =>
  (rt, mkWorld (trace w) (S (fresh w)) (scheduler w), Returns (fresh w)).

Definition lift {A} (o : Outcome A) : M A := fun rt w => (rt, w, o).

(** [when b m]: an [if] without [else]. *)
Definition when (b : bool) (m : M unit) : M unit := if b then m else ret tt.

Definition set_currentState (s : CurState) (rt : Runtime) : Runtime :=
  mkRuntime (oid rt) s (submachines rt) (timerIDs rt) (asyncActionCancelers rt).
Definition set_submachines (m : gmap StateId Runtime) (rt : Runtime) : Runtime :=
  mkRuntime (oid rt) (currentState rt) m (timerIDs rt) (asyncActionCancelers rt).
Definition set_timerIDs (t : option (list nat)) (rt : Runtime) : Runtime :=
  mkRuntime (oid rt) (currentState rt) (submachines rt) t (asyncActionCancelers rt).
Definition set_asyncActionCancelers (a : option (list nat)) (rt : Runtime) : Runtime :=
  mkRuntime (oid rt) (currentState rt) (submachines rt) (timerIDs rt) a.

(** ** Collaborators of the engine *)

(** Modelled from the spec: the settled results of a fan-out, collected in the
    order of the list; when a handler failed the fan-out fails, with the
    failure that comes first in the list. *)
Fixpoint collect (os : list (Outcome Value)) : Outcome (list Value) :=
  match os with
  | [] => Returns []
  | Throws e :: _ => Throws e
  | Returns v :: rest =>
      match collect rest with
      | Returns vs => Returns (v :: vs)
      | Throws e => Throws e
      end
  end.

(** Modelled from the spec: the utility [invokeEach] (utils/invokeEach.js is
    not part of the sources). It is the fan-out of the glossary: every handler
    of the list is called with the same arguments, and the results are
    collected in the order of the list once all have settled. *)
Definition invokeEach (hs : list Handler) (args : HArgs) : M (list Value) :=
  emit (map (fun h => Called (hname h) args) hs) >>
  lift (collect (map (fun h => hcall h args) hs)).

(** Modelled from the spec: the context factory, which builds a new context
    object with a reference to the owning engine for every dispatch. *)
Definition contextFactory (rt : Runtime) : Context :=
  mkContext (oid rt) None None None None.

(** Modelled from the spec: [taskScheduler.enqueue]. The scheduler runs one
    unit at a time, so a unit is either run at once (the scheduler is idle)
    or queued; which of the two is read from the world. *)
Definition enqueue : M bool := fun rt w =>
  match scheduler w with
  | [] => (rt, w, Returns false)
  | now :: later => (rt, mkWorld (trace w) (fresh w) later, Returns now)
  end.

Fixpoint forEach {A} (f : A -> M unit) (l : list A) : M unit :=
  match l with
  | [] => ret tt
  | x :: rest => f x >> forEach f rest
  end.

(** ** Methods that do not depend on the child engines *)

Definition isStarted (rt : Runtime) : bool :=
  bool_decide (currentState rt <> stopped).

Definition getCurrentState (rt : Runtime) : CurState := currentState rt.

Definition getSubmachine (rt : Runtime) : option Runtime :=
  match currentState rt with
  | Active s => if isStarted rt then submachines rt !! s else None
  | stopped => None
  end.

Definition createContext (rt : Runtime) : Context := contextFactory rt.

Definition createContextWithEvent (rt : Runtime) (ev : EventId) (payload : Value)
  : Context :=
  let context := createContext rt in
  mkContext (stateMachine context) (Some ev)
    (match payload with VUndefined => None | p => Some p end) None None.

(** [new StateMachine(config, taskScheduler, contextFactory)]: the three
    checks of the constructor, then the initial fields. *)
Definition new_StateMachine (config : ConfigArg) : M Runtime :=
  match config with
  | ArgMissing =>
      throw (StateMachineConfigError "Configuration must be specified.")
  | ArgPrimitive _ =>
      throw (StateMachineConfigError "Configuration must be an object.")
  | ArgMalformed =>
      throw (StateMachineConfigError "Configuration is malformed.")
  | ArgConfig _ =>
      let! id := newId in
      emit [Constructed id] >>
      ret (mkRuntime id stopped ∅ None None)
  end.

(** The unit of work that [startAsyncAction] hands to the scheduler: it
    submits the call of the action as a second unit and registers the
    canceler of this registration. *)
Definition asyncActionUnit (a : AsyncActionConfig) (state : CurState)
    (context : Context) : M unit :=
  let! reg := newId in
  emit [Submitted (action a) state context reg] >>
  update (fun rt =>
    set_asyncActionCancelers
      (Some (default [] (asyncActionCancelers rt) ++ [reg])) rt).

Definition startAsyncAction (a : AsyncActionConfig) (state : CurState)
    (context : Context) : M unit :=
  let! now := enqueue in
  if now then asyncActionUnit a state context
  else emit [Deferred (action a) state context].

Definition startAsyncActions (c : Config) (state : CurState) (context : Context)
  : M unit :=
  match stateConfigOf c state with
  | Some stateConfig =>
      forEach (fun a => startAsyncAction a state context) (asyncActions stateConfig)
  | None => ret tt
  end.

Definition cancelAsyncActions : M unit :=
  let! rt := this in
  match asyncActionCancelers rt with
  | Some cancelers =>
      emit (map Canceled cancelers) >> update (set_asyncActionCancelers None)
  | None => ret tt
  end.

Fixpoint setTimeouts (ts : list TimerConfig) : M (list nat) :=
  match ts with
  | [] => ret []
  | t :: rest =>
      let! id := newId in
      emit [TimerSet id (timeout t)] >>
      let! ids := setTimeouts rest in
      ret (id :: ids)
  end.

Definition startTimers (c : Config) (state : CurState) : M unit :=
  match stateConfigOf c state with
  | Some stateConfig =>
      if (0 <? length (timers stateConfig))%nat
      then let! ids := setTimeouts (timers stateConfig) in
           update (set_timerIDs (Some ids))
      else ret tt
  | None => ret tt
  end.

Definition stopTimers : M unit :=
  let! rt := this in
  match timerIDs rt with
  | Some ids => emit (map TimerCleared ids) >> update (set_timerIDs None)
  | None => ret tt
  end.

(** The transition resolver. *)
Fixpoint getFirstAllowedTransition (ts : list TransitionConfig) (context : Context)
  : M (option TransitionConfig) :=
  match ts with
  | [] => ret None
  | t :: rest =>
      match condition t with
      | None => ret (Some t)
      | Some cond =>
          emit [Evaluated (cname cond) context] >>
          let! v := lift (ccall cond context) in
          if truthy v then ret (Some t)
          else getFirstAllowedTransition rest context
      end
  end.

Definition getFirstAllowedTransitionForEvent (c : Config) (context : Context)
  : M (option TransitionConfig) :=
  let! rt := this in
  match stateConfigOf c (currentState rt) with
  | None => ret None
  | Some stateConfig =>
      let! transitionConfig :=
        match event context ≫= (fun ev => events stateConfig !! ev) with
        | Some eventConfig =>
            getFirstAllowedTransition (transitions eventConfig) context
        | None => ret None
        end in
      match transitionConfig, anyEventTrigger stateConfig with
      | None, Some anyEvent =>
          getFirstAllowedTransition (transitions anyEvent) context
      | _, _ => ret transitionConfig
      end
  end.

(** The wrapper put around each unhandled-event hook: a failure becomes the
    returned pair [[symHandlerThrewError, e]]. *)
Definition guarded (handler : Handler) : Handler :=
  mkHandler (hname handler) (fun args =>
    match hcall handler args with
    | Returns v => Returns v
    | Throws e => Returns (VArr [VSym symHandlerThrewError; e])
    end).

Definition isIgnore (x : Value) : bool :=
  match x with VSym ignoreHandlerResult => true | _ => false end.

Definition isFailure (x : Value) : bool :=
  match x with VArr (VSym symHandlerThrewError :: _) => true | _ => false end.

Definition isUndefined (x : Value) : bool :=
  match x with VUndefined => true | _ => false end.

Definition handlerResultsOf (rs : list Value) : list Value :=
  List.filter (fun x => negb (isIgnore x)) rs.
Definition handlerSuccessesOf (handlerResults : list Value) : list Value :=
  List.filter (fun x => negb (isFailure x)) handlerResults.
Definition handlerFailuresOf (handlerResults : list Value) : list Value :=
  List.filter isFailure handlerResults.

Definition handleUnhandledEvent (c : Config) (ev : EventId) (payload : Value)
  : M Value :=
  let! rt := this in
  let context := createContextWithEvent rt ev payload in
  let unhandled :=
    let! rt' := this in
    throw (UnhandledEventError ev (currentState rt') context) in
  if (0 <? length (unhandledEventHooks (global c)))%nat then
    let! rs := invokeEach (map guarded (unhandledEventHooks (global c)))
                 (EventArgs ev (currentState rt) context) in
    let handlerResults := handlerResultsOf rs in
    let handlerSuccesses := handlerSuccessesOf handlerResults in
    let handlerFailures := handlerFailuresOf handlerResults in
    if (0 <? length handlerFailures)%nat
    then throw (nth 0 handlerFailures VUndefined)
    else if (0 <? length handlerSuccesses)%nat
    then ret (nth 0 (List.filter (fun x => negb (isUndefined x)) handlerSuccesses)
                VUndefined)
    else unhandled
  else unhandled.

(** ** Methods that reach the child engines

    [start] and [stop] of a child are methods of the same class, run on the
    child. The bodies below take them as a table, by owning state; the
    recursion over the nesting of configurations is tied afterwards. *)

Abbreviation ChildOps := (gmap StateId (option (M unit))).

Definition childOp (ops : ChildOps) (s : StateId) : M unit :=
  match ops !! s with
  | Some (Some op) => op
  | _ => ret tt
  end.

(** [await this.submachines.get(s).op()]: the method runs on the stored child,
    which is the same object afterwards, with its fields as the method left
    them. *)
Definition onChild (s : StateId) (op : M unit) : M unit := fun rt w =>
  match submachines rt !! s with
  | Some child =>
      let '(child', w', o) := op child w in
      (set_submachines (<[s := child']> (submachines rt)) rt, w', o)
  | None => (rt, w, Returns tt)
  end.

Definition argTruthy (a : ConfigArg) : bool :=
  match a with
  | ArgMissing => false
  | ArgPrimitive b => b
  | _ => true
  end.

Section Bodies.
Variable c : Config.
Variables childStart childStop : ChildOps.

Definition startSubmachines_body (state : CurState) : M unit :=
  match state with
  | stopped => ret tt
  | Active s =>
      match states c !! s with
      | Some stateConfig =>
          if argTruthy (submachine stateConfig) then
            let! rt := this in
            match submachines rt !! s with
            | None =>
                let! child := new_StateMachine (submachine stateConfig) in
                update (fun rt =>
                  set_submachines (<[s := child]> (submachines rt)) rt)
            | Some _ => ret tt
            end >>
            onChild s (childOp childStart s)
          else ret tt
      | None => ret tt
      end
  end.

Definition stopSubmachines_body : M unit :=
  let! rt := this in
  match currentState rt with
  | Active s => onChild s (childOp childStop s)
  | stopped => ret tt
  end.

(** Lines 162-176 of [enterState]: the hooks and actions of the entry. *)
Definition enterState_hooks (state : CurState) (context : Context) : M unit :=
  invokeEach (stateEnterHooks (global c)) (StateArgs state context) >>
  match stateConfigOf c state with
  | Some stateConfig =>
      invokeEach (entryActions stateConfig) (StateArgs state context) >> ret tt
  | None => ret tt
  end >>
  let! rt := this in
  when (bool_decide (currentState rt <> stopped)
        && bool_decide (currentState rt <> state))
    (invokeEach (stateChangeHooks (global c))
       (TransitionArgs (currentState rt) state context) >> ret tt).

(** The body of the [try] of [enterState], lines 179-181. *)
Definition enterState_effects (state : CurState) (context : Context) : M unit :=
  startAsyncActions c state context >>
  startTimers c state >>
  startSubmachines_body state.

(** The [catch] of [enterState], lines 183-185. *)
Definition enterState_rollback (error : Value) : M unit :=
  stopTimers >> cancelAsyncActions >> throw error.

Definition enterState_body (state : CurState) (context : Context) : M unit :=
  enterState_hooks state context >>
  try_catch (enterState_effects state context) enterState_rollback >>
  update (set_currentState state).

Definition exitState_body (context : Context) : M unit :=
  stopSubmachines_body >>
  stopTimers >>
  cancelAsyncActions >>
  let! rt := this in
  invokeEach (stateExitHooks (global c))
    (StateArgs (currentState rt) context) >>
  match stateConfigOf c (currentState rt) with
  | Some stateConfig =>
      invokeEach (exitActions stateConfig)
        (StateArgs (currentState rt) context) >> ret tt
  | None => ret tt
  end.

Definition start_body : M unit :=
  let! rt := this in
  when (negb (isStarted rt))
    (enterState_body (Active (initialState c)) (createContext rt)).

Definition stop_body : M unit :=
  let! rt := this in
  when (isStarted rt)
    (exitState_body (createContext rt) >>
     update (set_currentState stopped)).
End Bodies.

(** The table of a method [op] for the children of [c]: one entry per state
    that declares a configuration for its submachine. *)
Definition childOps (op : Config -> M unit) (c : Config) : ChildOps :=
  (fun stateConfig =>
     match submachine stateConfig with
     | ArgConfig c' => Some (op c')
     | _ => None
     end) <$> states c.

Fixpoint start (c : Config) : M unit :=
  start_body c (childOps start c).

Fixpoint stop (c : Config) : M unit :=
  stop_body c (childOps stop c).

Definition startSubmachines (c : Config) : CurState -> M unit :=
  startSubmachines_body c (childOps start c).
Definition stopSubmachines (c : Config) : M unit :=
  stopSubmachines_body (childOps stop c).
Definition enterState (c : Config) : CurState -> Context -> M unit :=
  enterState_body c (childOps start c).
Definition exitState (c : Config) : Context -> M unit :=
  exitState_body c (childOps stop c).

(** ** Transitions and events *)

(** Lines 134-136: the state to enter. *)
Definition nextStateOf (transitionConfig : TransitionConfig) (rt : Runtime)
  : CurState :=
  match targetState transitionConfig with
  | Some target => Active target
  | None => currentState rt
  end.

(** Line 158. *)
Definition transitionResult (actionRetvals : list Value) : Value :=
  if (1 <? length actionRetvals)%nat then VArr actionRetvals
  else nth 0 actionRetvals VUndefined.

(** [this.currentState] is read at lines 136, 141 and 149; nothing writes it
    in between, and the three reads are one here. *)
Definition executeTransition (c : Config) (transitionConfig : TransitionConfig)
    (context : Context) : M Value :=
  when (negb (isInternal transitionConfig) && negb (ignore transitionConfig))
    (exitState c context) >>
  let! rt := this in
  let nextState := nextStateOf transitionConfig rt in
  when (negb (ignore transitionConfig))
    (invokeEach (transitionHooks (global c))
       (TransitionArgs (currentState rt) nextState context) >> ret tt) >>
  let! actionRetvals :=
    invokeEach (actions transitionConfig)
      (TransitionArgs (currentState rt) nextState context) in
  when (negb (isInternal transitionConfig) && negb (ignore transitionConfig))
    (enterState c nextState context) >>
  ret (transitionResult actionRetvals).

Definition canHandle (c : Config) (ev : EventId) (payload : Value) : M bool :=
  let! rt := this in
  if negb (isStarted rt) then ret false
  else
    let context := createContextWithEvent rt ev payload in
    let! transitionConfig := getFirstAllowedTransitionForEvent c context in
    ret (bool_decide (is_Some transitionConfig)).

Definition handle (c : Config) (ev : EventId) (payload : Value) : M Value :=
  let! rt := this in
  if negb (isStarted rt) then
    throw (StateMachineNotStartedError (oid rt)
             "Cannot handle events before starting the state machine!")
  else
    let context := createContextWithEvent rt ev payload in
    let! transitionConfig := getFirstAllowedTransitionForEvent c context in
    match transitionConfig with
    | Some t => executeTransition c t context
    | None => handleUnhandledEvent c ev payload
    end.

(** The unit of work that [executeTrigger] hands to the scheduler. *)
Definition executeTrigger (c : Config) (triggerConfig : TriggerConfig)
    (context : Context) : M Value :=
  let! transitionConfig :=
    getFirstAllowedTransition (transitions triggerConfig) context in
  match transitionConfig with
  | Some t => executeTransition c t context
  | None => ret VUndefined
  end.

(** [handleTimeout], the callback of a timer: it returns nothing to the timer;
    the result of the trigger is dropped, and a failure of the trigger is
    thrown again inside the [then] of line 269, where no caller receives it. *)
Definition handleTimeout (c : Config) (timerConfig : TimerConfig) : M unit :=
  let! rt := this in
  try_catch
    (executeTrigger c (timerTrigger timerConfig) (createContext rt) >> ret tt)
    (fun x => emit [Unhandled x]).

(** [handleAsyncActionComplete]: the context of the completion carries the
    result of the action or its error. The method awaits the trigger and
    returns nothing; a failure of the trigger is its own failure. *)
Definition handleAsyncActionComplete (c : Config) (triggerConfig : TriggerConfig)
    (result error : option Value) : M unit :=
  let! rt := this in
  executeTrigger c triggerConfig
    (mkContext (stateMachine (createContext rt)) None None result error) >>
  ret tt.

(** ** Running a method *)

Definition runtimeOf {A} (r : Runtime * World * Outcome A) : Runtime := r.1.1.
Definition worldOf {A} (r : Runtime * World * Outcome A) : World := r.1.2.
Definition outcomeOf {A} (r : Runtime * World * Outcome A) : Outcome A := r.2.

(** A newly constructed engine and the world before anything happened. *)
Definition newRuntime (id : nat) : Runtime := mkRuntime id stopped ∅ None None.
Definition newWorld : World := mkWorld [] 1 [].

(** * Notions used in the statements *)

(** [respects R m]: whatever [m] does and however it ends, the engine after
    it is related by [R] to the engine before it. *)
Definition respects (R : relation Runtime) {A} (m : M A) : Prop :=
  forall rt w, R rt (runtimeOf (m rt w)).

(** [same f]: the field [f] is as it was. *)
Definition same {X} (f : Runtime -> X) : relation Runtime :=
  fun before after => f after = f before.

(** No constraint on what a method does to a child. *)
Definition anyChild : relation Runtime := fun _ _ => True.

(** [childrenKept]: every child that was stored is still stored, under the
    same state, and is the same object. *)
Definition childrenKept : relation Runtime := fun before after =>
  forall s child,
    submachines before !! s = Some child ->
    exists child', submachines after !! s = Some child' /\ oid child' = oid child.

(** The child of state [s] is stored and is the object [id]. *)
Definition childIs (s : StateId) (id : nat) (rt : Runtime) : Prop :=
  exists child, submachines rt !! s = Some child /\ oid child = id.

(** The mode of the first row of the table of modes: neither internal nor
    ignored. *)
Definition normalMode (t : TransitionConfig) : bool :=
  negb (isInternal t) && negb (ignore t).

(** The transitions that [handle] can select in a state. *)
Definition transitionsOfState (stateConfig : StateConfig) (t : TransitionConfig)
  : Prop :=
  (exists ev eventConfig,
     events stateConfig !! ev = Some eventConfig /\ t ∈ transitions eventConfig)
  \/ (exists anyEvent,
     anyEventTrigger stateConfig = Some anyEvent /\ t ∈ transitions anyEvent).

(** The invariant on [currentState]: [stopped], or a key of [config.states]. *)
Definition knownState (c : Config) (state : CurState) : Prop :=
  match state with
  | stopped => True
  | Active s => is_Some (states c !! s)
  end.

Definition stateInvariant (c : Config) (rt : Runtime) : Prop :=
  knownState c (currentState rt).

(** The target state of a transition is [null], or a key of [config.states]. *)
Definition targetKnown (c : Config) (t : TransitionConfig) : Prop :=
  match targetState t with
  | None => True
  | Some s => is_Some (states c !! s)
  end.

(** The three shapes of line 158. *)
Definition resultShape (rs : list Value) : Value :=
  match rs with
  | [] => VUndefined
  | [r] => r
  | _ => VArr rs
  end.

(** What the wrapper of line 77 makes of a hook: its result, or the pair that
    marks its failure. *)
Definition settled (args : HArgs) (handler : Handler) : Value :=
  match hcall handler args with
  | Returns v => v
  | Throws e => VArr [VSym symHandlerThrewError; e]
  end.

(** Lines 88-103 as a function of the settled results. *)
Definition unhandledOutcome (unhandled : Value) (rs : list Value) : Outcome Value :=
  let handlerResults := handlerResultsOf rs in
  let handlerSuccesses := handlerSuccessesOf handlerResults in
  let handlerFailures := handlerFailuresOf handlerResults in
  if (0 <? length handlerFailures)%nat
  then Throws (nth 0 handlerFailures VUndefined)
  else if (0 <? length handlerSuccesses)%nat
  then Returns (nth 0 (List.filter (fun x => negb (isUndefined x)) handlerSuccesses)
                  VUndefined)
  else Throws unhandled.

(** What a handler does when called with [args]. *)
Definition returnsIgnore (args : HArgs) (handler : Handler) : bool :=
  match hcall handler args with
  | Returns (VSym ignoreHandlerResult) => true
  | _ => false
  end.

Definition returnsUndefined (args : HArgs) (handler : Handler) : bool :=
  match hcall handler args with
  | Returns VUndefined => true
  | _ => false
  end.

Definition throwsAt (args : HArgs) (handler : Handler) : bool :=
  match hcall handler args with
  | Throws _ => true
  | Returns _ => false
  end.

(** An entry is allowed when it has no condition, or its condition returns a
    truthy value. *)
Definition allowed (context : Context) (t : TransitionConfig) : bool :=
  match condition t with
  | None => true
  | Some cond =>
      match ccall cond context with
      | Returns v => truthy v
      | Throws _ => false
      end
  end.

(** The condition of an entry, if it has one, returns. *)
Definition settles (context : Context) (t : TransitionConfig) : bool :=
  match condition t with
  | None => true
  | Some cond =>
      match ccall cond context with
      | Returns _ => true
      | Throws _ => false
      end
  end.

(** The entries of a list up to the first allowed one, included. *)
Fixpoint scanned (context : Context) (ts : list TransitionConfig)
  : list TransitionConfig :=
  match ts with
  | [] => []
  | t :: rest => if allowed context t then [t] else t :: scanned context rest
  end.

(** The evaluations of the conditions of a list of entries, in its order. *)
Fixpoint evaluations (context : Context) (ts : list TransitionConfig) : list Obs :=
  match ts with
  | [] => []
  | t :: rest =>
      match condition t with
      | Some cond => Evaluated (cname cond) context :: evaluations context rest
      | None => evaluations context rest
      end
  end.

(** The registrations [Submitted] in a piece of the log. *)
Fixpoint registeredIn (os : list Obs) : list nat :=
  match os with
  | [] => []
  | Submitted _ _ _ reg :: rest => reg :: registeredIn rest
  | _ :: rest => registeredIn rest
  end.

(** The part of the log that a method wrote. *)
Definition written {A} (w : World) (r : Runtime * World * Outcome A) : list Obs :=
  drop (length (trace w)) (trace (worldOf r)).

(** * Example engines *)

Definition noHooks : GlobalHooks := mkGlobal [] [] [] [] [].

Definition plainState : StateConfig :=
  mkStateConfig [] [] ∅ None [] [] ArgMissing.

Definition returning (name : string) (v : Value) : Handler :=
  mkHandler name (fun _ => Returns v).
Definition throwing (name : string) (msg : string) : Handler :=
  mkHandler name (fun _ => Throws (VError msg)).

Definition always (name : string) (b : bool) : Condition :=
  mkCondition name (fun _ => Returns (VBool b)).

(** The engine of a configuration, constructed and started. *)
Definition started (c : Config) : Runtime * World * Outcome unit :=
  start c (newRuntime 0) newWorld.

(** A configuration nested in another: the outer one has a single state, [a],
    with a self-transition on [again] (target state [null]), an async action, a
    timer and the inner configuration as submachine. *)
Definition innerConfig : Config :=
  mkConfig "x" (mkGlobal [] [] [returning "innerEnter" VUndefined] [] [])
    {[ State "x" := mkStateConfig [] [] ∅ None
                [mkAsyncAction "fetch" (mkTrigger []) (mkTrigger [])]
                [mkTimer 10 (mkTrigger [])] ArgMissing ]}.

Definition again : TransitionConfig :=
  mkTransition None [returning "count" (VNum 1)] None false false.

Definition outerState : StateConfig :=
  mkStateConfig [] [] {[ "again" := mkTrigger [again] ]} None
    [mkAsyncAction "load" (mkTrigger []) (mkTrigger [])]
    [mkTimer 5 (mkTrigger [])] (ArgConfig innerConfig).

Definition outerConfig : Config :=
  mkConfig "a" noHooks {[ State "a" := outerState ]}.

(** The outer engine started, with a scheduler that is idle at the entry of
    [a] and at the entry of [x]. *)
Definition outerStarted : Runtime * World * Outcome unit :=
  Eval vm_compute in start outerConfig (newRuntime 0) (mkWorld [] 1 [true; true]).

(** Transitions run on the outer engine. *)
Definition twoActions : TransitionConfig :=
  mkTransition None [returning "first" (VNum 1); returning "second" (VStr "b")]
    None false false.

Definition ignored : TransitionConfig :=
  mkTransition None [returning "note" (VStr "seen")] (Some (State "elsewhere"))
    false true.

(** A transition to a state that has no entry in [states]. *)
Definition go : TransitionConfig :=
  mkTransition None [] (Some (State "running")) false false.

Definition goConfig : Config :=
  mkConfig "idle" noHooks
    {[ State "idle" := mkStateConfig [] [] {[ "go" := mkTrigger [go] ]} None
                         [] []
                   ArgMissing ]}.

(** A transition object that has no [targetState] property, on the event
    [go] of the single state [idle]. *)
Definition untargeted : TransitionConfig :=
  mkTransition None [] (Some undefinedState) false false.

Definition untargetedConfig : Config :=
  mkConfig "idle" noHooks
    {[ State "idle" := mkStateConfig [] [] {[ "go" := mkTrigger [untargeted] ]}
                         None [] [] ArgMissing ]}.

(** The target state of a transition is absent: it is [null], or the
    transition has no value for it. *)
Definition targetAbsent (t : TransitionConfig) : Prop :=
  targetState t = None \/ targetState t = Some undefinedState.

(** One state and one unhandled-event hook, which logs and returns nothing. *)
Definition logConfig : Config :=
  mkConfig "idle" (mkGlobal [returning "log" VUndefined] [] [] [] [])
    {[ State "idle" := plainState ]}.

(** The same with two hooks that return the sentinel. *)
Definition passConfig : Config :=
  mkConfig "idle"
    (mkGlobal [returning "pass" (VSym ignoreHandlerResult);
               returning "pass too" (VSym ignoreHandlerResult)] [] [] [] [])
    {[ State "idle" := plainState ]}.

(** The same with two hooks: the first throws, the second returns a value. *)
Definition failingConfig : Config :=
  mkConfig "idle"
    (mkGlobal [throwing "h1" "boom"; returning "h2" (VNum 42)] [] [] [] [])
    {[ State "idle" := plainState ]}.

(** Three entries for the resolver. *)
Definition declined : TransitionConfig :=
  mkTransition (Some (always "A?" false)) [] (Some (State "a")) false false.
Definition accepted : TransitionConfig :=
  mkTransition (Some (always "B?" true)) [] (Some (State "b")) false false.
Definition unconditional : TransitionConfig :=
  mkTransition None [] (Some (State "c")) false false.

(** A state whose submachine configuration the constructor rejects. *)
Definition brokenConfig : Config :=
  mkConfig "a" noHooks
    {[ State "a" := mkStateConfig [] [] ∅ None
                [mkAsyncAction "load" (mkTrigger []) (mkTrigger [])]
                [mkTimer 5 (mkTrigger [])] ArgMalformed ]}.

(** A state whose exit action fails. *)
Definition stuckConfig : Config :=
  mkConfig "a" noHooks
    {[ State "a" := mkStateConfig [] [throwing "cleanup" "disk full"] ∅ None
                      [] []
                ArgMissing ]}.

(** * Further notions *)

(** The calls of a fan-out, as they appear in the log. *)
Definition calls (hs : list Handler) (args : HArgs) : list Obs :=
  map (fun h => Called (hname h) args) hs.

(** What [stopTimers] and [cancelAsyncActions] write to the log for an engine:
    every timer it holds is cleared, then every canceler it holds is called. *)
Definition teardown (rt : Runtime) : list Obs :=
  map TimerCleared (default [] (timerIDs rt))
  ++ map Canceled (default [] (asyncActionCancelers rt)).

Definition isEvaluated (o : Obs) : bool :=
  match o with
  | Evaluated _ _ => true
  | _ => false
  end.

(** The world after [w] in which only [os] was added to the log. *)
Definition logged (w : World) (os : list Obs) : World :=
  mkWorld (trace w ++ os) (fresh w) (scheduler w).

(** The engine holds no timer and no canceler. *)
Definition idle (rt : Runtime) : Prop :=
  timerIDs rt = None /\ asyncActionCancelers rt = None.

(** The message of the error of [handle] on an engine that is not started. *)
Definition notStartedMessage : string :=
  "Cannot handle events before starting the state machine!".

(** The condition of an entry returns a value that is not truthy. *)
Definition declines (context : Context) (t : TransitionConfig) : bool :=
  negb (allowed context t) && settles context t.

(** The transitions a state offers for the event of a context: those of the
    event, then those of the any-event trigger. *)
Definition candidates (stateConfig : StateConfig) (context : Context)
  : list TransitionConfig :=
  match event context ≫= (fun ev => events stateConfig !! ev) with
  | Some eventConfig => transitions eventConfig
  | None => []
  end
  ++ match anyEventTrigger stateConfig with
     | Some anyEvent => transitions anyEvent
     | None => []
     end.

(** A condition that fails. *)
Definition failingCondition : Condition :=
  mkCondition "broken?" (fun _ => Throws (VError "no database")).

(** The results of the unhandled-event hooks that count as an answer: neither
    the sentinel nor [undefined]. *)
Definition isAnswer (x : Value) : bool :=
  negb (isIgnore x) && negb (isUndefined x).

(** Transitions for the outer engine: an internal one, and one whose action
    fails. *)
Definition internal : TransitionConfig :=
  mkTransition None [returning "tick" (VNum 1)] None true false.


(** Three unhandled-event hooks: one passes, one returns nothing, one
    answers. *)
Definition answeringConfig : Config :=
  mkConfig "idle"
    (mkGlobal [returning "pass" (VSym ignoreHandlerResult);
               returning "log" VUndefined;
               returning "answer" (VStr "queued")] [] [] [] [])
    {[ State "idle" := plainState ]}.

(** The timers set for a list of timer configurations, the first with the
    identifier [n]. *)
Fixpoint timerSets (n : nat) (ts : list TimerConfig) : list Obs :=
  match ts with
  | [] => []
  | t :: rest => TimerSet n (timeout t) :: timerSets (S n) rest
  end.

(** The condition of line 169: the engine is started and in another state. *)
Definition stateChanges (rt : Runtime) (state : CurState) : bool :=
  bool_decide (currentState rt <> stopped)
  && bool_decide (currentState rt <> state).

(** The entry actions of a state, if it is configured. *)
Definition entryActionsOf (c : Config) (state : CurState) : list Handler :=
  match stateConfigOf c state with
  | Some stateConfig => entryActions stateConfig
  | None => []
  end.

(** Two states with hooks on every step, to watch the order of the calls. *)
Definition hookedGlobal : GlobalHooks :=
  mkGlobal [] [returning "onTransition" VUndefined]
    [returning "onEnter" VUndefined] [returning "onExit" VUndefined]
    [returning "onChange" VUndefined].

Definition toB : TransitionConfig :=
  mkTransition None [returning "act" VUndefined] (Some (State "b")) false false.

Definition hookedA : StateConfig :=
  mkStateConfig [returning "enterA" VUndefined] [returning "exitA" VUndefined]
    {[ "next" := mkTrigger [toB] ]} None []
    [mkTimer 100 (mkTrigger []); mkTimer 200 (mkTrigger [])] ArgMissing.

Definition hookedB : StateConfig :=
  mkStateConfig [returning "enterB" VUndefined] [] ∅ None [] [] ArgMissing.

Definition hookedConfig : Config :=
  mkConfig "a" hookedGlobal {[ State "a" := hookedA; State "b" := hookedB ]}.

(** The message of the [StateMachineConfigError] with which the constructor
    rejects what it is given, if it does. *)
Definition rejection (config : ConfigArg) : option string :=
  match config with
  | ArgMissing => Some "Configuration must be specified."
  | ArgPrimitive _ => Some "Configuration must be an object."
  | ArgMalformed => Some "Configuration is malformed."
  | ArgConfig _ => None
  end.

(** An engine that is stopped holds no timer and no canceler. *)
Definition stoppedIdle (rt : Runtime) : Prop :=
  currentState rt = stopped -> idle rt.

(** The exit actions of a state, if it is configured. *)
Definition exitActionsOf (c : Config) (state : CurState) : list Handler :=
  match stateConfigOf c state with
  | Some stateConfig => exitActions stateConfig
  | None => []
  end.

(** [onlyChild s]: no child has changed, except possibly the child of [s]. *)
Definition onlyChild (s : CurState) : relation Runtime := fun before after =>
  forall s', Active s' <> s -> submachines after !! s' = submachines before !! s'.

(** Three states in a row, the first with a submachine; [atQ] is the engine
    after the move from the first to the second. *)
Definition toQ : TransitionConfig :=
  mkTransition None [] (Some (State "q")) false false.

Definition toR : TransitionConfig :=
  mkTransition None [] (Some (State "r")) false false.

Definition rowConfig : Config :=
  mkConfig "p" noHooks
    {[ State "p" := mkStateConfig [] [] {[ "next" := mkTrigger [toQ] ]} None
                      [] []
                (ArgConfig innerConfig);
       State "q" := mkStateConfig [] [] {[ "next" := mkTrigger [toR] ]} None
                      [] []
                ArgMissing;
       State "r" := plainState ]}.

Definition atQ : Runtime * World * Outcome Value :=
  Eval vm_compute in
    handle rowConfig "next" VUndefined
      (runtimeOf (started rowConfig)) (worldOf (started rowConfig)).

(** A state with a timer, an async action, an exit action and a global exit
    hook, entered with an idle scheduler: the engine holds a timer and a
    canceler. *)
Definition loadAction : AsyncActionConfig :=
  mkAsyncAction "load" (mkTrigger []) (mkTrigger []).

Definition busyConfig : Config :=
  mkConfig "a" (mkGlobal [] [] [] [returning "onExit" VUndefined] [])
    {[ State "a" := mkStateConfig [] [returning "exitA" VUndefined] ∅ None
                      [loadAction] [mkTimer 5 (mkTrigger [])] ArgMissing ]}.

Definition busyStarted : Runtime * World * Outcome unit :=
  Eval vm_compute in start busyConfig (newRuntime 0) (mkWorld [] 1 [true]).

(** The same engine started while the scheduler is busy, so that the unit of
    its async action is queued, and then stopped. *)
Definition busyStopped : Runtime * World * Outcome unit :=
  Eval vm_compute in
    (start busyConfig >> stop busyConfig) (newRuntime 0) (mkWorld [] 1 [false]).

(** * Reasoning about methods *)

Lemma start_unfold (c : Config) : start c = start_body c (childOps start c).
Proof. destruct c; reflexivity. Qed.

Lemma stop_unfold (c : Config) : stop c = stop_body c (childOps stop c).
Proof. destruct c; reflexivity. Qed.

(** The two ways a sequence ends. *)
Lemma bind_run {A B} (m : M A) (k : A -> M B) rt w :
  bind m k rt w =
  match m rt w with
  | (rt', w', Returns a) => k a rt' w'
  | (rt', w', Throws e) => (rt', w', Throws e)
  end.
Proof. reflexivity. Qed.

Lemma bind_returns {A B} (m : M A) (k : A -> M B) rt w rt' w' a :
  m rt w = (rt', w', Returns a) -> bind m k rt w = k a rt' w'.
Proof. intros H. unfold bind. rewrite H. reflexivity. Qed.

Lemma bind_throws {A B} (m : M A) (k : A -> M B) rt w rt' w' e :
  m rt w = (rt', w', Throws e) -> bind m k rt w = (rt', w', Throws e).
Proof. intros H. unfold bind. rewrite H. reflexivity. Qed.

Lemma bind_this {A} (k : Runtime -> M A) rt w : bind this k rt w = k rt rt w.
Proof. reflexivity. Qed.

(** ** Relations between the engine before and after a method *)

Section Respects.
Context (R : relation Runtime) `{!PreOrder R}.

Lemma respects_ret {A} (a : A) : respects R (ret a).
Proof. intros rt w. simpl. reflexivity. Qed.

Lemma respects_throw {A} e : respects R (@throw A e).
Proof. intros rt w. simpl. reflexivity. Qed.

Lemma respects_lift {A} (o : Outcome A) : respects R (lift o).
Proof. intros rt w. simpl. reflexivity. Qed.

Lemma respects_emit os : respects R (emit os).
Proof. intros rt w. simpl. reflexivity. Qed.

Lemma respects_newId : respects R newId.
Proof. intros rt w. simpl. reflexivity. Qed.

Lemma respects_enqueue : respects R enqueue.
Proof. intros rt w. unfold enqueue. destruct (scheduler w); simpl; reflexivity. Qed.

Lemma respects_update f : (forall rt, R rt (f rt)) -> respects R (update f).
Proof. intros H rt w. apply H. Qed.

Lemma respects_bind {A B} (m : M A) (k : A -> M B) :
  respects R m -> (forall a, respects R (k a)) -> respects R (bind m k).
Proof.
  intros Hm Hk rt w. unfold bind.
  specialize (Hm rt w). destruct (m rt w) as [[rt' w'] [a|e]]; simpl in *.
  - etransitivity; [exact Hm | apply Hk].
  - exact Hm.
Qed.

(** [let! rt := this in k rt]: [k] is only ever run on the engine it reads. *)
Lemma respects_this {A} (k : Runtime -> M A) :
  (forall rt w, R rt (runtimeOf (k rt rt w))) -> respects R (bind this k).
Proof. intros Hk rt w. apply Hk. Qed.

Lemma respects_try_catch {A} (m : M A) (h : Value -> M A) :
  respects R m -> (forall e, respects R (h e)) -> respects R (try_catch m h).
Proof.
  intros Hm Hh rt w. unfold try_catch.
  specialize (Hm rt w). destruct (m rt w) as [[rt' w'] [a|e]]; simpl in *.
  - exact Hm.
  - etransitivity; [exact Hm | apply Hh].
Qed.

Lemma respects_when b m : respects R m -> respects R (when b m).
Proof. destruct b; simpl; [trivial | intros _; apply respects_ret]. Qed.

Lemma respects_forEach {A} (f : A -> M unit) l :
  (forall x, respects R (f x)) -> respects R (forEach f l).
Proof.
  intros Hf. induction l as [|x l IH]; simpl.
  - apply respects_ret.
  - apply respects_bind; [apply Hf | intros _; exact IH].
Qed.

Lemma respects_invokeEach hs args : respects R (invokeEach hs args).
Proof.
  apply respects_bind; [apply respects_emit | intros _; apply respects_lift].
Qed.

Lemma respects_setTimeouts ts : respects R (setTimeouts ts).
Proof.
  induction ts as [|t ts IH]; simpl; [apply respects_ret|].
  apply respects_bind; [apply respects_newId | intros id].
  apply respects_bind; [apply respects_emit | intros _].
  apply respects_bind; [exact IH | intros ids; apply respects_ret].
Qed.

Lemma respects_getFirstAllowedTransition ts context :
  respects R (getFirstAllowedTransition ts context).
Proof.
  induction ts as [|t ts IH]; simpl; [apply respects_ret|].
  destruct (condition t) as [cond|]; [|apply respects_ret].
  apply respects_bind; [apply respects_emit | intros _].
  apply respects_bind; [apply respects_lift | intros v].
  destruct (truthy v); [apply respects_ret | exact IH].
Qed.

Lemma respects_getFirstAllowedTransitionForEvent c context :
  respects R (getFirstAllowedTransitionForEvent c context).
Proof.
  apply respects_bind; [intros rt w; simpl; reflexivity | intros rt].
  destruct (stateConfigOf c (currentState rt)) as [sc|]; [|apply respects_ret].
  apply respects_bind.
  - destruct (event context ≫= _);
      [apply respects_getFirstAllowedTransition | apply respects_ret].
  - intros [t|]; [apply respects_ret|].
    destruct (anyEventTrigger sc);
      [apply respects_getFirstAllowedTransition | apply respects_ret].
Qed.

Lemma respects_new_StateMachine arg : respects R (new_StateMachine arg).
Proof.
  destruct arg; simpl; try apply respects_throw.
  apply respects_bind; [apply respects_newId | intros id].
  apply respects_bind; [apply respects_emit | intros _; apply respects_ret].
Qed.

Lemma respects_handleUnhandledEvent c ev payload :
  respects R (handleUnhandledEvent c ev payload).
Proof.
  apply respects_this. intros rt w.
  assert (Hu : forall context, respects R
            (let! rt' := this in
             @throw Value (UnhandledEventError ev (currentState rt') context))).
  { intros context. apply respects_this. intros rt0 w0. simpl. reflexivity. }
  destruct (0 <? length (unhandledEventHooks (global c)))%nat; [|apply Hu].
  apply respects_bind; [apply respects_invokeEach | intros rs; cbv zeta].
  destruct (0 <? length (handlerFailuresOf (handlerResultsOf rs)))%nat;
    [apply respects_throw|].
  destruct (0 <? length (handlerSuccessesOf (handlerResultsOf rs)))%nat;
    [apply respects_ret | apply Hu].
Qed.
End Respects.

(** The same, for the methods that reach the children. [R] must accept what
    the methods do to the fields; [Q] relates a child before and after one of
    its own methods. *)
Section RespectsBodies.
Context (R Q : relation Runtime) `{!PreOrder R}.
Hypothesis R_timerIDs : forall rt t, R rt (set_timerIDs t rt).
Hypothesis R_cancelers : forall rt a, R rt (set_asyncActionCancelers a rt).
Hypothesis R_child_new : forall rt s child,
  submachines rt !! s = None ->
  R rt (set_submachines (<[s := child]> (submachines rt)) rt).
Hypothesis R_child_run : forall rt s child child',
  submachines rt !! s = Some child -> Q child child' ->
  R rt (set_submachines (<[s := child']> (submachines rt)) rt).

Variable c : Config.
Variables childStart childStop : ChildOps.
Hypothesis Q_start : forall s, respects Q (childOp childStart s).
Hypothesis Q_stop : forall s, respects Q (childOp childStop s).

Lemma respects_onChild s op : respects Q op -> respects R (onChild s op).
Proof.
  intros Hop rt w. unfold onChild.
  destruct (submachines rt !! s) as [child|] eqn:E; [|simpl; reflexivity].
  specialize (Hop child w).
  destruct (op child w) as [[child' w'] o]. simpl in *.
  eapply R_child_run; eauto.
Qed.

Lemma respects_stopTimers : respects R stopTimers.
Proof.
  apply (respects_bind R); [intros rt w; simpl; reflexivity | intros rt].
  destruct (timerIDs rt); [|apply (respects_ret R)].
  apply (respects_bind R); [apply (respects_emit R) | intros _].
  apply (respects_update R). intros; apply R_timerIDs.
Qed.

Lemma respects_cancelAsyncActions : respects R cancelAsyncActions.
Proof.
  apply (respects_bind R); [intros rt w; simpl; reflexivity | intros rt].
  destruct (asyncActionCancelers rt); [|apply (respects_ret R)].
  apply (respects_bind R); [apply (respects_emit R) | intros _].
  apply (respects_update R). intros; apply R_cancelers.
Qed.

Lemma respects_startTimers state : respects R (startTimers c state).
Proof.
  unfold startTimers.
  destruct (stateConfigOf c state) as [sc|]; [|apply (respects_ret R)].
  destruct (0 <? length (timers sc))%nat; [|apply (respects_ret R)].
  apply (respects_bind R); [apply (respects_setTimeouts R) | intros ids].
  apply (respects_update R). intros; apply R_timerIDs.
Qed.

Lemma respects_startAsyncActions state context :
  respects R (startAsyncActions c state context).
Proof.
  unfold startAsyncActions.
  destruct (stateConfigOf c state) as [sc|]; [|apply (respects_ret R)].
  apply (respects_forEach R); [intros a].
  apply (respects_bind R); [apply (respects_enqueue R) | intros now].
  destruct now; [|apply (respects_emit R)].
  apply (respects_bind R); [apply (respects_newId R) | intros reg].
  apply (respects_bind R); [apply (respects_emit R) | intros _].
  apply (respects_update R). intros; apply R_cancelers.
Qed.

Lemma new_StateMachine_runtime arg rt w :
  runtimeOf (new_StateMachine arg rt w) = rt.
Proof. destruct arg; reflexivity. Qed.

Lemma respects_startSubmachines_body state :
  respects R (startSubmachines_body c childStart state).
Proof.
  unfold startSubmachines_body.
  destruct state as [|s]; [apply (respects_ret R)|].
  destruct (states c !! s) as [sc|]; [|apply (respects_ret R)].
  destruct (argTruthy (submachine sc)); [|apply (respects_ret R)].
  apply (respects_this R). intros rt w.
  destruct (submachines rt !! s) as [child|] eqn:E.
  - apply (respects_bind R); [apply (respects_ret R) | intros _].
    apply respects_onChild, Q_start.
  - pose proof (new_StateMachine_runtime (submachine sc) rt w) as Hnew.
    rewrite !bind_run.
    destruct (new_StateMachine (submachine sc) rt w) as [[rt1 w1] [child|e]];
      unfold runtimeOf in Hnew; simpl in Hnew; subst rt1;
      [|simpl; reflexivity].
    unfold update at 1.
    etransitivity; [apply R_child_new, E|].
    apply respects_onChild, Q_start.
Qed.

Lemma respects_stopSubmachines_body :
  respects R (stopSubmachines_body childStop).
Proof.
  apply (respects_bind R); [intros rt w; simpl; reflexivity | intros rt].
  destruct (currentState rt); [apply (respects_ret R)|].
  apply respects_onChild, Q_stop.
Qed.

Lemma respects_enterState_hooks state context :
  respects R (enterState_hooks c state context).
Proof.
  apply (respects_bind R); [apply (respects_invokeEach R) | intros _].
  apply (respects_bind R); [| intros _].
  - destruct (stateConfigOf c state); [|apply (respects_ret R)].
    apply (respects_bind R); [apply (respects_invokeEach R) | intros _].
    apply (respects_ret R).
  - apply (respects_bind R); [intros rt w; simpl; reflexivity | intros rt].
    apply (respects_when R).
    apply (respects_bind R); [apply (respects_invokeEach R) | intros _].
    apply (respects_ret R).
Qed.

Lemma respects_enterState_effects state context :
  respects R (enterState_effects c childStart state context).
Proof.
  apply (respects_bind R); [apply respects_startAsyncActions | intros _].
  apply (respects_bind R); [apply respects_startTimers | intros _].
  apply respects_startSubmachines_body.
Qed.

Lemma respects_enterState_rollback error :
  respects R (enterState_rollback error).
Proof.
  apply (respects_bind R); [apply respects_stopTimers | intros _].
  apply (respects_bind R); [apply respects_cancelAsyncActions | intros _].
  apply (respects_throw R).
Qed.

(** Everything of [enterState] before the assignment of line 188. *)
Lemma respects_enterState_attempt state context :
  respects R (enterState_hooks c state context >>
              try_catch (enterState_effects c childStart state context)
                enterState_rollback).
Proof.
  apply (respects_bind R); [apply respects_enterState_hooks | intros _].
  apply (respects_try_catch R); [apply respects_enterState_effects|].
  apply respects_enterState_rollback.
Qed.

Lemma respects_enterState_body state context :
  (forall rt, R rt (set_currentState state rt)) ->
  respects R (enterState_body c childStart state context).
Proof.
  intros Hset. unfold enterState_body.
  apply (respects_bind R); [apply respects_enterState_hooks | intros _].
  apply (respects_bind R); [| intros _; apply (respects_update R), Hset].
  apply (respects_try_catch R); [apply respects_enterState_effects|].
  apply respects_enterState_rollback.
Qed.

Lemma respects_exitState_body context :
  respects R (exitState_body c childStop context).
Proof.
  apply (respects_bind R); [apply respects_stopSubmachines_body | intros _].
  apply (respects_bind R); [apply respects_stopTimers | intros _].
  apply (respects_bind R); [apply respects_cancelAsyncActions | intros _].
  apply (respects_bind R); [intros rt w; simpl; reflexivity | intros rt].
  apply (respects_bind R); [apply (respects_invokeEach R) | intros _].
  destruct (stateConfigOf c (currentState rt)); [|apply (respects_ret R)].
  apply (respects_bind R); [apply (respects_invokeEach R) | intros _].
  apply (respects_ret R).
Qed.

Lemma respects_start_body :
  (forall rt, R rt (set_currentState (Active (initialState c)) rt)) ->
  respects R (start_body c childStart).
Proof.
  intros Hset.
  apply (respects_bind R); [intros rt w; simpl; reflexivity | intros rt].
  apply (respects_when R). apply respects_enterState_body, Hset.
Qed.

Lemma respects_stop_body :
  (forall rt, R rt (set_currentState stopped rt)) ->
  respects R (stop_body c childStop).
Proof.
  intros Hset.
  apply (respects_bind R); [intros rt w; simpl; reflexivity | intros rt].
  apply (respects_when R).
  apply (respects_bind R); [apply respects_exitState_body | intros _].
  apply (respects_update R), Hset.
Qed.
End RespectsBodies.

(** ** What the methods leave alone *)

#[global] Instance same_preorder {X} (f : Runtime -> X) : PreOrder (same f).
Proof.
  split; [intros rt; reflexivity|].
  intros a b d Hab Hbd. unfold same in *. congruence.
Qed.

Ltac same_field :=
  unfold runtimeOf, outcomeOf, same in *; simpl in *; congruence.

Lemma start_same_oid c : respects (same oid) (start c).
Proof.
  rewrite start_unfold.
  apply (respects_start_body (same oid) anyChild); done.
Qed.

Lemma stop_same_oid c : respects (same oid) (stop c).
Proof.
  rewrite stop_unfold.
  apply (respects_stop_body (same oid) anyChild); done.
Qed.

(** The methods of a child never change which object it is. *)
Lemma childOps_same_oid (op : Config -> M unit) c s :
  (forall c', respects (same oid) (op c')) ->
  respects (same oid) (childOp (childOps op c) s).
Proof.
  intros Hop. unfold childOp, childOps. rewrite lookup_fmap.
  destruct (states c !! s) as [sc|]; simpl; [|apply respects_ret; apply _].
  destruct (submachine sc); try (apply respects_ret; apply _). apply Hop.
Qed.

Lemma exitState_same_currentState c context :
  respects (same currentState) (exitState c context).
Proof.
  apply (respects_exitState_body (same currentState) anyChild); done.
Qed.

Lemma enterState_attempt_same_currentState c state context :
  respects (same currentState)
    (enterState_hooks c state context >>
     try_catch (enterState_effects c (childOps start c) state context)
       enterState_rollback).
Proof.
  apply (respects_enterState_attempt (same currentState) anyChild); done.
Qed.

(** [enterState] is its attempt followed by the assignment of line 188. *)
Lemma enterState_run c state context rt w :
  enterState c state context rt w =
  match (enterState_hooks c state context >>
         try_catch (enterState_effects c (childOps start c) state context)
           enterState_rollback) rt w with
  | (rt', w', Returns _) => (set_currentState state rt', w', Returns tt)
  | (rt', w', Throws e) => (rt', w', Throws e)
  end.
Proof.
  unfold enterState, enterState_body, bind.
  destruct (enterState_hooks c state context rt w) as [[rt1 w1] [[]|e]];
    [|reflexivity].
  destruct (try_catch _ _ rt1 w1) as [[rt2 w2] [[]|e]]; reflexivity.
Qed.

(** [currentState] after [enterState]: the entered state when [enterState]
    returns, the state before when it throws. *)
Lemma enterState_currentState c state context rt w :
  currentState (runtimeOf (enterState c state context rt w)) =
  match outcomeOf (enterState c state context rt w) with
  | Returns _ => state
  | Throws _ => currentState rt
  end.
Proof.
  rewrite enterState_run.
  pose proof (enterState_attempt_same_currentState c state context rt w) as H.
  destruct ((_ >> _) rt w) as [[rt' w'] [[]|e]]; [reflexivity | exact H].
Qed.

Lemma invokeEach_run hs args rt w :
  invokeEach hs args rt w =
  (rt, mkWorld (trace w ++ map (fun h => Called (hname h) args) hs)
         (fresh w) (scheduler w),
   collect (map (fun h => hcall h args) hs)).
Proof. reflexivity. Qed.

(** [currentState] after a transition: the state to enter when the transition
    is a normal one and returns; the state before in every other case. *)
Lemma executeTransition_currentState c t context rt w :
  let r := executeTransition c t context rt w in
  currentState (runtimeOf r) = currentState rt \/
  (currentState (runtimeOf r) = nextStateOf t rt /\ normalMode t = true /\
   exists v, outcomeOf r = Returns v).
Proof.
  unfold executeTransition. fold (normalMode t). cbv zeta.
  rewrite bind_run.
  assert (Hexit : respects (same currentState)
                    (when (normalMode t) (exitState c context))).
  { apply respects_when; [apply _ | apply exitState_same_currentState]. }
  specialize (Hexit rt w).
  destruct (when (normalMode t) (exitState c context) rt w)
    as [[rt1 w1] [[]|e]]; [|left; exact Hexit].
  unfold runtimeOf in Hexit; simpl in Hexit.
  rewrite bind_this.
  assert (Hnext : nextStateOf t rt1 = nextStateOf t rt).
  { unfold nextStateOf. rewrite Hexit. reflexivity. }
  rewrite bind_run.
  assert (Hhooks : respects (same currentState)
            (when (negb (ignore t))
               (invokeEach (transitionHooks (global c))
                  (TransitionArgs (currentState rt1) (nextStateOf t rt1) context)
                >> ret tt))).
  { apply respects_when; [apply _|].
    apply respects_bind; [apply _ | apply respects_invokeEach; apply _|].
    intros _. apply respects_ret; apply _. }
  specialize (Hhooks rt1 w1).
  destruct (when (negb (ignore t)) _ rt1 w1) as [[rt2 w2] [[]|e]];
    unfold runtimeOf in Hhooks; simpl in Hhooks;
    [|left; same_field].
  rewrite bind_run, invokeEach_run.
  destruct (collect _) as [rs|e]; [|left; same_field].
  rewrite bind_run.
  destruct (normalMode t) eqn:Hmode; simpl when.
  - pose proof (enterState_currentState c (nextStateOf t rt1) context rt2
                  (mkWorld (trace w2 ++ map (fun h => Called (hname h)
                     (TransitionArgs (currentState rt1) (nextStateOf t rt1)
                        context)) (actions t)) (fresh w2) (scheduler w2))) as He.
    destruct (enterState c (nextStateOf t rt1) context rt2 _)
      as [[rt3 w3] [[]|e]]; unfold runtimeOf, outcomeOf in *; simpl in *.
    + right. split; [same_field|]. split; [reflexivity|]. eauto.
    + left. same_field.
  - left. same_field.
Qed.

Lemma start_run c rt w :
  start c rt w =
  if negb (isStarted rt)
  then enterState c (Active (initialState c)) (createContext rt) rt w
  else (rt, w, Returns tt).
Proof.
  rewrite start_unfold. unfold start_body. rewrite bind_this.
  destruct (isStarted rt); reflexivity.
Qed.

Lemma stop_run c rt w :
  stop c rt w =
  if isStarted rt
  then match exitState c (createContext rt) rt w with
       | (rt', w', Returns _) => (set_currentState stopped rt', w', Returns tt)
       | (rt', w', Throws e) => (rt', w', Throws e)
       end
  else (rt, w, Returns tt).
Proof.
  rewrite stop_unfold. unfold stop_body. rewrite bind_this.
  destruct (isStarted rt); [|reflexivity]. simpl when. rewrite bind_run.
  fold (exitState c (createContext rt)).
  destruct (exitState c (createContext rt) rt w) as [[rt' w'] [[]|e]]; reflexivity.
Qed.

(** The resolver leaves the engine as it is and returns an entry of the list
    it was given. *)
Lemma getFirstAllowedTransition_elem ts context rt w rt' w' t :
  getFirstAllowedTransition ts context rt w = (rt', w', Returns (Some t)) ->
  rt' = rt /\ t ∈ ts.
Proof.
  revert w. induction ts as [|t0 ts IH]; intros w; simpl; [discriminate|].
  destruct (condition t0) as [cond|].
  - unfold bind, emit, lift. destruct (ccall cond context) as [v|e]; [|discriminate].
    destruct (truthy v).
    + intros [= <- <- <-]. split; [reflexivity | left].
    + intros H. apply IH in H as [-> Hin]. split; [reflexivity | right; exact Hin].
  - intros [= <- <- <-]. split; [reflexivity | left].
Qed.

Lemma getFirstAllowedTransition_runtime ts context rt w :
  runtimeOf (getFirstAllowedTransition ts context rt w) = rt.
Proof.
  exact (respects_getFirstAllowedTransition (same id) ts context rt w).
Qed.

Lemma getFirstAllowedTransitionForEvent_runtime c context rt w :
  runtimeOf (getFirstAllowedTransitionForEvent c context rt w) = rt.
Proof.
  exact (respects_getFirstAllowedTransitionForEvent (same id) c context rt w).
Qed.

Lemma handleUnhandledEvent_runtime c ev payload rt w :
  runtimeOf (handleUnhandledEvent c ev payload rt w) = rt.
Proof.
  exact (respects_handleUnhandledEvent (same id) c ev payload rt w).
Qed.

Lemma getFirstAllowedTransitionForEvent_elem c context rt w rt' w' t :
  getFirstAllowedTransitionForEvent c context rt w = (rt', w', Returns (Some t)) ->
  exists stateConfig,
    stateConfigOf c (currentState rt) = Some stateConfig /\
    transitionsOfState stateConfig t.
Proof.
  unfold getFirstAllowedTransitionForEvent. rewrite bind_this.
  destruct (stateConfigOf c (currentState rt)) as [sc|]; [|discriminate].
  intros H. exists sc. split; [reflexivity|]. revert H. rewrite bind_run.
  destruct (event context ≫= _) as [ec|] eqn:Hev.
  - destruct (getFirstAllowedTransition (transitions ec) context rt w)
      as [[rt1 w1] [[t1|]|e]] eqn:H1; [| |discriminate].
    + intros [= <- <- <-]. apply getFirstAllowedTransition_elem in H1 as [_ Hin].
      left. destruct (event context) as [ev|]; [|discriminate].
      exists ev, ec. split; [exact Hev | exact Hin].
    + destruct (anyEventTrigger sc) as [anyEvent|] eqn:Hany; [|discriminate].
      intros H. apply getFirstAllowedTransition_elem in H as [_ Hin].
      right. exists anyEvent. split; [exact Hany | exact Hin].
  - unfold ret at 1.
    destruct (anyEventTrigger sc) as [anyEvent|] eqn:Hany; [|discriminate].
    intros H. apply getFirstAllowedTransition_elem in H as [_ Hin].
    right. exists anyEvent. split; [exact Hany | exact Hin].
Qed.

(** ** Claims C3 and C4 *)

(** C3, as stated, fails: a transition that has no [targetState] property
    has the target [undefined], which line 134 does not take for [null];
    [handle] executes it, enters [undefined], and [currentState] is
    [undefined] afterwards. *)
Lemma executeTransition_without_target_counterexample :
  let before := runtimeOf (started untargetedConfig) in
  let world := worldOf (started untargetedConfig) in
  let context := createContextWithEvent before "go" VUndefined in
  let after := handle untargetedConfig "go" VUndefined before world in
  targetAbsent untargeted /\
  currentState before = Active "idle" /\
  after = executeTransition untargetedConfig untargeted context before world /\
  outcomeOf after = Returns VUndefined /\
  currentState (runtimeOf after) = Active undefinedState /\
  currentState (runtimeOf after) <> currentState before.
Proof.
  cbv zeta. split; [right; reflexivity|].
  split; [vm_compute; reflexivity|].
  split; [vm_compute; reflexivity|].
  split; [vm_compute; reflexivity|].
  split; [vm_compute; reflexivity|].
  vm_compute. discriminate.
Qed.

(** C3, amended. When the target state of the matched transition is [null],
    the state to enter is the current state, unchanged by the exit that
    precedes its computation, and [currentState] after the transition is the
    state it was before, however the transition ends. *)
Theorem executeTransition_without_target c t context rt w :
  targetState t = None ->
  nextStateOf t
    (runtimeOf (when (normalMode t) (exitState c context) rt w))
  = currentState rt /\
  currentState (runtimeOf (executeTransition c t context rt w))
  = currentState rt.
Proof.
  intros Htarget. split.
  - unfold nextStateOf. rewrite Htarget.
    apply (respects_when (same currentState)), exitState_same_currentState.
  - destruct (executeTransition_currentState c t context rt w) as [H|[H _]];
      [exact H|].
    rewrite H. unfold nextStateOf. rewrite Htarget. reflexivity.
Qed.

Lemma executeTransition_without_target_witness :
  targetState again = None /\
  currentState
    (runtimeOf (executeTransition outerConfig again
                  (createContextWithEvent (runtimeOf outerStarted) "again" VUndefined)
                  (runtimeOf outerStarted) (worldOf outerStarted)))
  = Active "a".
Proof.
  split; [reflexivity|].
  exact (proj2 (executeTransition_without_target outerConfig again
                  (createContextWithEvent (runtimeOf outerStarted) "again" VUndefined)
                  (runtimeOf outerStarted) (worldOf outerStarted) eq_refl)).
Defined.

(** C4, as stated, fails: a transition may name a target state that has no
    entry in [config.states]; [handle] enters it all the same. *)
Lemma stateInvariant_counterexample :
  let before := runtimeOf (started goConfig) in
  let world := worldOf (started goConfig) in
  let after := handle goConfig "go" VUndefined before world in
  stateInvariant goConfig before /\
  outcomeOf after = Returns VUndefined /\
  currentState (runtimeOf after) = Active "running" /\
  ~ stateInvariant goConfig (runtimeOf after).
Proof.
  cbv zeta. split; [|split; [|split]].
  - vm_compute. eexists; reflexivity.
  - vm_compute. reflexivity.
  - vm_compute. reflexivity.
  - intros [sc Hsc]. vm_compute in Hsc. discriminate.
Qed.

(** C4, amended. When the initial state is a key of [config.states] and the
    target state of every transition is [null] or a key of [config.states],
    every operation keeps [currentState] either [stopped] or a key of
    [config.states]: [start], [stop], a transition whose target is known, and
    [handle] in a state whose transitions have known targets. A transition
    that has no [targetState] property has the target [undefined], which is
    known only if [undefined] is a key of [config.states]. *)
Theorem stateInvariant_preserved c rt w :
  stateInvariant c rt ->
  (is_Some (states c !! initialState c) ->
   stateInvariant c (runtimeOf (start c rt w))) /\
  stateInvariant c (runtimeOf (stop c rt w)) /\
  (forall t context,
     targetKnown c t ->
     stateInvariant c (runtimeOf (executeTransition c t context rt w))) /\
  (forall ev payload,
     (forall stateConfig t,
        stateConfigOf c (currentState rt) = Some stateConfig ->
        transitionsOfState stateConfig t -> targetKnown c t) ->
     stateInvariant c (runtimeOf (handle c ev payload rt w))).
Proof.
  intros Hinv.
  assert (Htransition : forall t context rt0 w0,
            stateInvariant c rt0 -> targetKnown c t ->
            stateInvariant c (runtimeOf (executeTransition c t context rt0 w0))).
  { intros t context rt0 w0 Hinv0 Ht. unfold stateInvariant in *.
    destruct (executeTransition_currentState c t context rt0 w0)
      as [H|[H _]]; rewrite H; [exact Hinv0|].
    unfold nextStateOf, targetKnown in *.
    destruct (targetState t); [exact Ht | exact Hinv0]. }
  split; [|split; [|split]].
  - intros Hinit. rewrite start_run.
    destruct (negb (isStarted rt)); [|exact Hinv].
    unfold stateInvariant. rewrite enterState_currentState.
    destruct (outcomeOf _); [exact Hinit | exact Hinv].
  - rewrite stop_run. destruct (isStarted rt); [|exact Hinv].
    pose proof (exitState_same_currentState c (createContext rt) rt w) as H.
    destruct (exitState c (createContext rt) rt w) as [[rt' w'] [[]|e]].
    + exact I.
    + unfold stateInvariant. unfold runtimeOf, same in *. simpl in *.
      rewrite H. exact Hinv.
  - intros t context Ht. apply Htransition; assumption.
  - intros ev payload Hknown. unfold handle. rewrite bind_this.
    destruct (negb (isStarted rt)); [exact Hinv|].
    rewrite bind_run.
    pose proof (getFirstAllowedTransitionForEvent_runtime c
                  (createContextWithEvent rt ev payload) rt w) as Hrt.
    destruct (getFirstAllowedTransitionForEvent c _ rt w)
      as [[rt1 w1] [[t|]|e]] eqn:Hres;
      unfold runtimeOf in Hrt; simpl in Hrt; subst rt1.
    + apply Htransition; [exact Hinv|].
      apply getFirstAllowedTransitionForEvent_elem in Hres as (sc & Hsc & Ht).
      eapply Hknown; eassumption.
    + unfold stateInvariant. rewrite handleUnhandledEvent_runtime. exact Hinv.
    + exact Hinv.
Qed.

Lemma stateInvariant_preserved_witness :
  stateInvariant outerConfig (runtimeOf outerStarted) /\
  stateInvariant outerConfig
    (runtimeOf (stop outerConfig (runtimeOf outerStarted) (worldOf outerStarted))) /\
  stateInvariant outerConfig
    (runtimeOf (handle outerConfig "again" VUndefined
                  (runtimeOf outerStarted) (worldOf outerStarted))).
Proof.
  assert (H : stateInvariant outerConfig (runtimeOf outerStarted)).
  { vm_compute. eexists; reflexivity. }
  pose proof (stateInvariant_preserved outerConfig
                (runtimeOf outerStarted) (worldOf outerStarted) H)
    as (_ & Hstop & _ & Hhandle).
  split; [exact H|]. split; [exact Hstop|].
  apply Hhandle. intros stateConfig t Hsc Ht.
  unfold stateConfigOf, outerStarted, runtimeOf in Hsc.
  cbn [currentState fst] in Hsc. unfold outerConfig, states in Hsc.
  apply lookup_singleton_Some in Hsc as [_ <-].
  destruct Ht as [(ev & ec & Hev & Hin)|(anyEvent & Hany & _)];
    [|discriminate].
  simpl in Hev. apply lookup_singleton_Some in Hev as [_ <-].
  apply list_elem_of_singleton in Hin as ->. exact I.
Defined.

(** ** Claims C7 and C8 *)

(** The results of a fan-out that returns are the results of the handlers, in
    the order of the list. *)
Lemma collect_Forall2 {A} (f : A -> Outcome Value) (l : list A) (rs : list Value) :
  collect (map f l) = Returns rs <-> Forall2 (fun x r => f x = Returns r) l rs.
Proof.
  revert rs. induction l as [|x l IH]; intros rs; simpl.
  - split.
    + intros [= <-]. constructor.
    + intros H. inversion H. reflexivity.
  - split.
    + destruct (f x) as [v|e] eqn:Hx; [|discriminate].
      destruct (collect (map f l)) as [vs|e] eqn:Hl; [|discriminate].
      intros [= <-]. constructor; [exact Hx | apply IH; reflexivity].
    + intros H. inversion H as [|? r ? rs' Hx Hl]; subst.
      rewrite Hx. apply IH in Hl. rewrite Hl. reflexivity.
Qed.

Lemma transitionResult_shape rs : transitionResult rs = resultShape rs.
Proof. destruct rs as [|r [|r' rs]]; reflexivity. Qed.

(** A transition marked [ignore] is the fan-out of its own actions and
    nothing else. *)
Lemma executeTransition_ignore_run c t context rt w :
  ignore t = true ->
  let args := TransitionArgs (currentState rt) (nextStateOf t rt) context in
  executeTransition c t context rt w =
  (rt,
   mkWorld (trace w ++ map (fun a => Called (hname a) args) (actions t))
     (fresh w) (scheduler w),
   match collect (map (fun a => hcall a args) (actions t)) with
   | Returns rs => Returns (transitionResult rs)
   | Throws e => Throws e
   end).
Proof.
  intros Hignore. unfold executeTransition. rewrite Hignore, andb_false_r.
  unfold bind, when, this, ret, invokeEach, emit, lift, bind. simpl.
  destruct (collect _); reflexivity.
Qed.

(** C7. The value a transition returns is the empty value when it has no
    action, the result of its action when it has one, and the list of the
    results of its actions, in their order, when it has more. In the mode
    [ignore], where nothing else can fail, the transition returns that value
    as soon as its actions return. *)
Theorem executeTransition_result c t context rt w :
  let args := TransitionArgs (currentState rt) (nextStateOf t rt) context in
  (forall rt' w' v,
     executeTransition c t context rt w = (rt', w', Returns v) ->
     exists rs,
       Forall2 (fun a r => hcall a args = Returns r) (actions t) rs /\
       v = resultShape rs) /\
  (forall rs,
     ignore t = true ->
     Forall2 (fun a r => hcall a args = Returns r) (actions t) rs ->
     outcomeOf (executeTransition c t context rt w) = Returns (resultShape rs)).
Proof.
  cbv zeta. split.
  - intros rt' w' v. unfold executeTransition. fold (normalMode t). cbv zeta.
    rewrite bind_run.
    assert (Hexit : respects (same currentState)
                      (when (normalMode t) (exitState c context))).
    { apply respects_when; [apply _ | apply exitState_same_currentState]. }
    specialize (Hexit rt w).
    destruct (when (normalMode t) (exitState c context) rt w)
      as [[rt1 w1] [[]|e]]; [|discriminate].
    unfold runtimeOf, same in Hexit; simpl in Hexit.
    rewrite bind_this.
    assert (Hnext : nextStateOf t rt1 = nextStateOf t rt).
    { unfold nextStateOf. rewrite Hexit. reflexivity. }
    rewrite Hnext, Hexit. rewrite bind_run.
    destruct (when (negb (ignore t)) _ rt1 w1) as [[rt2 w2] [[]|e]];
      [|discriminate].
    rewrite bind_run, invokeEach_run.
    destruct (collect _) as [rs|e] eqn:Hrs; [|discriminate].
    rewrite bind_run.
    destruct (when (normalMode t) _ rt2 _) as [[rt3 w3] [[]|e]];
      [|discriminate].
    intros [= _ _ <-]. exists rs. split.
    + apply collect_Forall2. exact Hrs.
    + apply transitionResult_shape.
  - intros rs Hignore Hrs. rewrite executeTransition_ignore_run by exact Hignore.
    apply collect_Forall2 in Hrs. cbv zeta. rewrite Hrs.
    unfold outcomeOf. simpl. rewrite transitionResult_shape. reflexivity.
Qed.

Lemma executeTransition_result_witness :
  exists rs,
    Forall2 (fun a r => hcall a (TransitionArgs (Active "a") (Active "a")
                                   (contextFactory (runtimeOf outerStarted)))
                        = Returns r)
      (actions twoActions) rs /\
    VArr [VNum 1; VStr "b"] = resultShape rs.
Proof.
  refine (proj1 (executeTransition_result outerConfig twoActions
                   (contextFactory (runtimeOf outerStarted))
                   (runtimeOf outerStarted) (worldOf outerStarted)) _ _ _ _).
  vm_compute. reflexivity.
Defined.

(** C8. A transition marked [ignore] leaves the engine as it is, with its
    [currentState], its timers, its cancelers and its submachines, and the
    only calls it makes are those of its own actions, in their order: no
    hook, no entry or exit action, no timer, no scheduler. *)
Theorem executeTransition_ignore c t context rt w :
  ignore t = true ->
  let args := TransitionArgs (currentState rt) (nextStateOf t rt) context in
  let r := executeTransition c t context rt w in
  runtimeOf r = rt /\
  trace (worldOf r) = trace w ++ map (fun a => Called (hname a) args) (actions t) /\
  fresh (worldOf r) = fresh w /\
  scheduler (worldOf r) = scheduler w.
Proof.
  intros Hignore. cbv zeta.
  rewrite (executeTransition_ignore_run c t context rt w Hignore).
  repeat split.
Qed.

Lemma executeTransition_ignore_witness :
  let r := executeTransition outerConfig ignored
             (contextFactory (runtimeOf outerStarted))
             (runtimeOf outerStarted) (worldOf outerStarted) in
  runtimeOf r = runtimeOf outerStarted /\
  trace (worldOf r) =
    trace (worldOf outerStarted) ++
    [Called "note" (TransitionArgs (Active "a") (Active "elsewhere")
                      (contextFactory (runtimeOf outerStarted)))].
Proof.
  cbv zeta.
  pose proof (executeTransition_ignore outerConfig ignored
                (contextFactory (runtimeOf outerStarted))
                (runtimeOf outerStarted) (worldOf outerStarted) eq_refl)
    as (Hrt & Htrace & _).
  split; [exact Hrt | exact Htrace].
Defined.

(** ** Claims C1 and C2: events that no transition handles *)

Lemma collect_guarded args hooks :
  collect (map (fun h => hcall h args) (map guarded hooks)) =
  Returns (map (settled args) hooks).
Proof.
  induction hooks as [|h hooks IH]; [reflexivity|].
  simpl. rewrite IH. unfold settled.
  destruct (hcall h args); reflexivity.
Qed.

Lemma handleUnhandledEvent_outcome c ev payload rt w :
  let context := createContextWithEvent rt ev payload in
  let unhandled := UnhandledEventError ev (currentState rt) context in
  outcomeOf (handleUnhandledEvent c ev payload rt w) =
  if (0 <? length (unhandledEventHooks (global c)))%nat
  then unhandledOutcome unhandled
         (map (settled (EventArgs ev (currentState rt) context))
            (unhandledEventHooks (global c)))
  else Throws unhandled.
Proof.
  cbv zeta. unfold handleUnhandledEvent. rewrite bind_this.
  destruct (0 <? length (unhandledEventHooks (global c)))%nat; [|reflexivity].
  rewrite bind_run, invokeEach_run, collect_guarded.
  unfold unhandledOutcome.
  destruct (0 <? length (handlerFailuresOf _))%nat; [reflexivity|].
  destruct (0 <? length (handlerSuccessesOf _))%nat; reflexivity.
Qed.

(** [handle] on a started engine, when the resolver finds no transition. *)
Lemma handle_no_match c ev payload rt w :
  isStarted rt = true ->
  outcomeOf (getFirstAllowedTransitionForEvent c
               (createContextWithEvent rt ev payload) rt w) = Returns None ->
  outcomeOf (handle c ev payload rt w) =
  outcomeOf (handleUnhandledEvent c ev payload rt
               (worldOf (getFirstAllowedTransitionForEvent c
                           (createContextWithEvent rt ev payload) rt w))).
Proof.
  intros Hstarted Hnone. unfold handle. rewrite bind_this, Hstarted.
  change (negb true) with false. cbv iota. rewrite bind_run.
  pose proof (getFirstAllowedTransitionForEvent_runtime c
                (createContextWithEvent rt ev payload) rt w) as Hrt.
  destruct (getFirstAllowedTransitionForEvent c _ rt w) as [[rt1 w1] o].
  unfold runtimeOf, outcomeOf, worldOf in *. simpl in *. subst. reflexivity.
Qed.

Lemma settled_returns args h v : hcall h args = Returns v -> settled args h = v.
Proof. intros H. unfold settled. rewrite H. reflexivity. Qed.

Lemma settled_throws args h e :
  hcall h args = Throws e -> settled args h = VArr [VSym symHandlerThrewError; e].
Proof. intros H. unfold settled. rewrite H. reflexivity. Qed.

Lemma all_ignored args hooks :
  forallb (returnsIgnore args) hooks = true ->
  handlerResultsOf (map (settled args) hooks) = [].
Proof.
  induction hooks as [|h hooks IH]; [reflexivity|].
  simpl. intros [Hh Hrest]%andb_prop. unfold returnsIgnore in Hh.
  destruct (hcall h args) as [v|e] eqn:E; [|discriminate].
  unfold handlerResultsOf in *. simpl. rewrite (settled_returns _ _ _ E).
  destruct v; try discriminate. destruct y; try discriminate.
  simpl. apply IH, Hrest.
Qed.

Lemma undefined_or_ignored args hooks :
  forallb (fun h => returnsUndefined args h || returnsIgnore args h) hooks = true ->
  handlerResultsOf (map (settled args) hooks) =
  repeat VUndefined (length (List.filter (returnsUndefined args) hooks)).
Proof.
  induction hooks as [|h hooks IH]; [reflexivity|].
  simpl. intros [Hh Hrest]%andb_prop.
  unfold handlerResultsOf in *. simpl.
  unfold returnsUndefined at 1, returnsIgnore at 1 in Hh.
  unfold returnsUndefined at 1.
  destruct (hcall h args) as [v|e] eqn:E; [|discriminate].
  rewrite (settled_returns _ _ _ E).
  destruct v; try discriminate; simpl.
  - f_equal. apply IH, Hrest.
  - destruct y; try discriminate. simpl. apply IH, Hrest.
Qed.

Lemma unhandledOutcome_undefined unhandled rs n :
  handlerResultsOf rs = repeat VUndefined (S n) ->
  unhandledOutcome unhandled rs = Returns VUndefined.
Proof.
  intros H1. unfold unhandledOutcome.
  assert (H2 : handlerFailuresOf (repeat VUndefined (S n)) = []).
  { generalize (S n). intros m. induction m as [|m IH]; [reflexivity|].
    unfold handlerFailuresOf in *. simpl. exact IH. }
  assert (H3 : handlerSuccessesOf (repeat VUndefined (S n)) = repeat VUndefined (S n)).
  { generalize (S n). intros m. induction m as [|m IH]; [reflexivity|].
    unfold handlerSuccessesOf in *. simpl. f_equal. exact IH. }
  assert (H4 : List.filter (fun x => negb (isUndefined x)) (repeat VUndefined (S n)) = []).
  { generalize (S n). intros m. induction m as [|m IH]; [reflexivity|].
    simpl. exact IH. }
  cbv zeta. rewrite H1, H2, H3, H4. reflexivity.
Qed.

Lemma existsb_filter_length {A} (f : A -> bool) (l : list A) :
  existsb f l = true -> exists n, length (List.filter f l) = S n.
Proof.
  induction l as [|x l IH]; simpl; [discriminate|].
  destruct (f x); simpl; [eauto | exact IH].
Qed.

(** C1, as stated, fails: a hook that returns [undefined], which is not the
    sentinel, has handled the event; [handle] resolves with [undefined]. *)
Lemma handle_unhandled_counterexample :
  let rt := runtimeOf (started logConfig) in
  let w := worldOf (started logConfig) in
  let context := createContextWithEvent rt "go" VUndefined in
  let args := EventArgs "go" (currentState rt) context in
  isStarted rt = true /\
  outcomeOf (getFirstAllowedTransitionForEvent logConfig context rt w)
    = Returns None /\
  forallb (returnsUndefined args) (unhandledEventHooks (global logConfig)) = true /\
  outcomeOf (handle logConfig "go" VUndefined rt w) = Returns VUndefined /\
  outcomeOf (handle logConfig "go" VUndefined rt w)
    <> Throws (UnhandledEventError "go" (currentState rt) context).
Proof.
  cbv zeta. repeat split; try (vm_compute; reflexivity).
  vm_compute. discriminate.
Qed.

(** C1, amended. On a started engine, for an event that no transition
    matches: when there is no unhandled-event hook, or every hook returns the
    sentinel [ignoreHandlerResult], [handle] fails with an
    [UnhandledEventError] that carries the event, the current state and the
    context; when every hook returns the sentinel or [undefined] and one of
    them returns [undefined], [handle] resolves with [undefined]. *)
Theorem handle_unhandled c ev payload rt w :
  isStarted rt = true ->
  outcomeOf (getFirstAllowedTransitionForEvent c
               (createContextWithEvent rt ev payload) rt w) = Returns None ->
  let context := createContextWithEvent rt ev payload in
  let args := EventArgs ev (currentState rt) context in
  let hooks := unhandledEventHooks (global c) in
  (hooks = [] \/ forallb (returnsIgnore args) hooks = true ->
   outcomeOf (handle c ev payload rt w) =
   Throws (UnhandledEventError ev (currentState rt) context)) /\
  (forallb (fun h => returnsUndefined args h || returnsIgnore args h) hooks = true ->
   existsb (returnsUndefined args) hooks = true ->
   outcomeOf (handle c ev payload rt w) = Returns VUndefined).
Proof.
  intros Hstarted Hnone. cbv zeta.
  rewrite (handle_no_match c ev payload rt w Hstarted Hnone).
  rewrite handleUnhandledEvent_outcome. split.
  - intros Hignored.
    assert (H : forallb (returnsIgnore
                  (EventArgs ev (currentState rt)
                     (createContextWithEvent rt ev payload)))
                  (unhandledEventHooks (global c)) = true).
    { destruct Hignored as [-> | H]; [reflexivity | exact H]. }
    destruct (0 <? length _)%nat; [|reflexivity].
    unfold unhandledOutcome. rewrite (all_ignored _ _ H). reflexivity.
  - intros Hall Hsome.
    apply existsb_filter_length in Hsome as [n Hn].
    pose proof (undefined_or_ignored _ _ Hall) as Hrs. rewrite Hn in Hrs.
    destruct (unhandledEventHooks (global c)) as [|h hooks]; [discriminate|].
    change (0 <? length (h :: hooks))%nat with true. cbv iota.
    eapply unhandledOutcome_undefined, Hrs.
Qed.

Lemma handle_unhandled_witness :
  outcomeOf (handle passConfig "go" (VNum 7)
               (runtimeOf (started passConfig)) (worldOf (started passConfig))) =
    Throws (UnhandledEventError "go" (Active "idle")
              (mkContext 0 (Some "go") (Some (VNum 7)) None None)) /\
  outcomeOf (handle logConfig "go" VUndefined
               (runtimeOf (started logConfig)) (worldOf (started logConfig))) =
    Returns VUndefined.
Proof.
  split.
  - apply (proj1 (handle_unhandled passConfig "go" (VNum 7)
                    (runtimeOf (started passConfig)) (worldOf (started passConfig))
                    eq_refl eq_refl)).
    right. reflexivity.
  - apply (proj2 (handle_unhandled logConfig "go" VUndefined
                    (runtimeOf (started logConfig)) (worldOf (started logConfig))
                    eq_refl eq_refl)); reflexivity.
Defined.

(** The failure that [handle] rejects with is the first pair, in the order of
    the hooks, that marks a failure: the pair, not the error in it. *)
Lemma first_failure args before h after e :
  forallb (fun h' => negb (isFailure (settled args h'))) before = true ->
  hcall h args = Throws e ->
  exists rest,
    handlerFailuresOf
      (handlerResultsOf (map (settled args) (before ++ h :: after))) =
    VArr [VSym symHandlerThrewError; e] :: rest.
Proof.
  intros Hbefore Hh. induction before as [|h0 before IH].
  - simpl. rewrite (settled_throws _ _ _ Hh).
    unfold handlerResultsOf, handlerFailuresOf. simpl. eauto.
  - simpl in Hbefore. apply andb_prop in Hbefore as [H0 Hbefore].
    destruct (IH Hbefore) as [rest Hrest]. exists rest.
    unfold handlerResultsOf, handlerFailuresOf in *. simpl.
    destruct (negb (isIgnore (settled args h0))); [|exact Hrest].
    simpl. apply negb_true_iff in H0. rewrite H0. exact Hrest.
Qed.

Lemma handle_hook_failure c ev payload rt w before h after e :
  let context := createContextWithEvent rt ev payload in
  let args := EventArgs ev (currentState rt) context in
  isStarted rt = true ->
  outcomeOf (getFirstAllowedTransitionForEvent c context rt w) = Returns None ->
  unhandledEventHooks (global c) = before ++ h :: after ->
  forallb (fun h' => negb (isFailure (settled args h'))) before = true ->
  hcall h args = Throws e ->
  outcomeOf (handle c ev payload rt w) =
  Throws (VArr [VSym symHandlerThrewError; e]).
Proof.
  cbv zeta. intros Hstarted Hnone Hhooks Hbefore Hh.
  rewrite (handle_no_match c ev payload rt w Hstarted Hnone).
  rewrite handleUnhandledEvent_outcome, Hhooks.
  destruct (first_failure _ before h after e Hbefore Hh) as [rest Hrest].
  rewrite length_app. simpl length.
  replace (0 <? length before + S (length after))%nat with true
    by (symmetry; apply Nat.ltb_lt; lia).
  unfold unhandledOutcome. rewrite Hrest. reflexivity.
Qed.

(** C2 on the code. With a first hook that throws [Error("boom")] and a
    second that returns 42, [handle] rejects, and not with 42; but the value
    it rejects with is the pair [[symHandlerThrewError, Error("boom")]] of
    line 81, which line 96 throws as it is: not the error of the hook. *)
Theorem handle_rejects_with_marked_pair :
  let rt := runtimeOf (started failingConfig) in
  let w := worldOf (started failingConfig) in
  outcomeOf (handle failingConfig "go" VUndefined rt w) =
    Throws (VArr [VSym symHandlerThrewError; VError "boom"]) /\
  outcomeOf (handle failingConfig "go" VUndefined rt w) <> Throws (VError "boom").
Proof.
  cbv zeta. split.
  - exact (handle_hook_failure failingConfig "go" VUndefined
             (runtimeOf (started failingConfig)) (worldOf (started failingConfig))
             [] (throwing "h1" "boom") [returning "h2" (VNum 42)] (VError "boom")
             eq_refl eq_refl eq_refl eq_refl eq_refl).
  - vm_compute. discriminate.
Qed.

(** ** Claim C6: the resolver *)

(** The resolver, run on a list whose scanned conditions return. *)
Lemma getFirstAllowedTransition_run ts context rt w :
  forallb (settles context) (scanned context ts) = true ->
  getFirstAllowedTransition ts context rt w =
  (rt,
   mkWorld (trace w ++ evaluations context (scanned context ts))
     (fresh w) (scheduler w),
   Returns (List.find (allowed context) ts)).
Proof.
  revert w. induction ts as [|t ts IH]; intros w Hsettles.
  - simpl. unfold ret. rewrite app_nil_r. destruct w; reflexivity.
  - simpl in *. unfold allowed at 1 in Hsettles. unfold allowed at 1.
    unfold allowed at 1.
    destruct (condition t) as [cond|] eqn:Hcond.
    + unfold bind, emit, lift.
      destruct (ccall cond context) as [v|e] eqn:Hcall.
      * destruct (truthy v) eqn:Hv.
        -- simpl. rewrite Hcond. reflexivity.
        -- simpl in Hsettles. apply andb_prop in Hsettles as [_ Hrest].
           rewrite (IH _ Hrest). simpl. rewrite Hcond.
           rewrite <- app_assoc. reflexivity.
      * simpl in Hsettles. unfold settles at 1 in Hsettles.
        rewrite Hcond, Hcall in Hsettles. discriminate.
    + simpl. rewrite Hcond. unfold ret. rewrite app_nil_r.
      destruct w; reflexivity.
Qed.

(** C6. When the conditions it evaluates return, the resolver returns the
    first entry of the list that is allowed (it has no condition, or its
    condition is truthy), and no entry when none is; it evaluates the
    conditions in the order of the list, up to the entry it selects and no
    further, and changes nothing else. For [A; B; C] with the condition of
    [A] false, that of [B] true and [C] without condition, it selects [B]. *)
Theorem getFirstAllowedTransition_first_allowed ts context rt w :
  (forallb (settles context) (scanned context ts) = true ->
   getFirstAllowedTransition ts context rt w =
   (rt,
    mkWorld (trace w ++ evaluations context (scanned context ts))
      (fresh w) (scheduler w),
    Returns (List.find (allowed context) ts))) /\
  (forall A B C condA condB,
     condition A = Some condA -> ccall condA context = Returns (VBool false) ->
     condition B = Some condB -> ccall condB context = Returns (VBool true) ->
     condition C = None ->
     outcomeOf (getFirstAllowedTransition [A; B; C] context rt w) =
     Returns (Some B)).
Proof.
  split; [apply getFirstAllowedTransition_run|].
  intros A B C condA condB HA HfalseA HB HtrueB HC.
  assert (HallowedA : allowed context A = false).
  { unfold allowed. rewrite HA, HfalseA. reflexivity. }
  assert (HallowedB : allowed context B = true).
  { unfold allowed. rewrite HB, HtrueB. reflexivity. }
  rewrite getFirstAllowedTransition_run.
  - simpl. rewrite HallowedA, HallowedB. reflexivity.
  - simpl. rewrite HallowedA, HallowedB. simpl.
    unfold settles. rewrite HA, HfalseA, HB, HtrueB. reflexivity.
Qed.

Lemma getFirstAllowedTransition_first_allowed_witness :
  getFirstAllowedTransition [declined; accepted; unconditional]
    (contextFactory (newRuntime 0)) (newRuntime 0) newWorld =
  (newRuntime 0,
   mkWorld [Evaluated "A?" (contextFactory (newRuntime 0));
            Evaluated "B?" (contextFactory (newRuntime 0))] 1 [],
   Returns (Some accepted)).
Proof.
  exact (proj1 (getFirstAllowedTransition_first_allowed
                  [declined; accepted; unconditional]
                  (contextFactory (newRuntime 0)) (newRuntime 0) newWorld)
           eq_refl).
Defined.

(** ** Claim C5: a failure while a state is entered *)

Lemma registeredIn_app os1 os2 :
  registeredIn (os1 ++ os2) = registeredIn os1 ++ registeredIn os2.
Proof.
  induction os1 as [|o os1 IH]; [reflexivity|].
  destruct o; simpl; rewrite IH; reflexivity.
Qed.

(** [startAsyncActions] returns, and the cancelers of the engine after it are
    those before it followed by the ones it registered. *)
Lemma forEach_startAsyncAction state context l rt w :
  exists rt' w' new,
    forEach (fun a => startAsyncAction a state context) l rt w
      = (rt', w', Returns tt) /\
    trace w' = trace w ++ new /\
    default [] (asyncActionCancelers rt') =
      default [] (asyncActionCancelers rt) ++ registeredIn new /\
    same timerIDs rt rt'.
Proof.
  revert rt w. induction l as [|a l IH]; intros rt w.
  - exists rt, w, []. simpl. rewrite !app_nil_r. repeat split.
  - simpl. unfold startAsyncAction at 1. unfold bind at 1. unfold bind at 1.
    unfold enqueue at 1.
    destruct (scheduler w) as [|[|] later] eqn:Hsched;
      unfold asyncActionUnit, bind, newId, emit, update; simpl;
      match goal with
      | |- context [forEach _ l ?r ?x] =>
          destruct (IH r x) as (rt' & w' & new & Hrun & Htrace & Hc & Ht)
      end;
      rewrite Hrun; simpl in Htrace, Hc; exists rt', w'.
    + exists (Deferred (action a) state context :: new).
      rewrite Htrace, <- app_assoc. repeat split; assumption.
    + exists (Submitted (action a) state context (fresh w) :: new).
      rewrite Htrace, Hc, <- !app_assoc. repeat split; assumption.
    + exists (Deferred (action a) state context :: new).
      rewrite Htrace, <- app_assoc. repeat split; assumption.
Qed.

Lemma startAsyncActions_run c state context rt w :
  exists rt' w',
    startAsyncActions c state context rt w = (rt', w', Returns tt) /\
    trace w' = trace w ++ written w (startAsyncActions c state context rt w) /\
    default [] (asyncActionCancelers rt') =
      default [] (asyncActionCancelers rt)
      ++ registeredIn (written w (startAsyncActions c state context rt w)).
Proof.
  unfold written, startAsyncActions.
  destruct (stateConfigOf c state) as [sc|].
  - destruct (forEach_startAsyncAction state context (asyncActions sc) rt w)
      as (rt' & w' & new & Hrun & Htrace & Hc & _).
    exists rt', w'. rewrite Hrun. unfold worldOf. simpl. rewrite Htrace.
    rewrite drop_app_length. repeat split; assumption.
  - exists rt, w. unfold worldOf. simpl. rewrite drop_all, !app_nil_r.
    repeat split.
Qed.

Lemma enterState_rollback_run e rt w :
  enterState_rollback e rt w =
  (set_asyncActionCancelers None (set_timerIDs None rt),
   mkWorld (trace w ++ map TimerCleared (default [] (timerIDs rt))
                    ++ map Canceled (default [] (asyncActionCancelers rt)))
     (fresh w) (scheduler w),
   Throws e).
Proof.
  destruct rt as [o cs subs [ids|] [cans|]]; destruct w as [tr fr sch];
    unfold enterState_rollback, stopTimers, cancelAsyncActions, bind, this,
      emit, update, throw, set_timerIDs, set_asyncActionCancelers; simpl;
    rewrite ?app_nil_r, ?app_assoc; reflexivity.
Qed.

Lemma startTimers_same_cancelers c state :
  respects (same asyncActionCancelers) (startTimers c state).
Proof. apply respects_startTimers; [apply _ | done]. Qed.

Lemma startSubmachines_same_cancelers c ops state :
  respects (same asyncActionCancelers) (startSubmachines_body c ops state).
Proof. apply (respects_startSubmachines_body _ anyChild); done. Qed.

(** C5. [currentState] becomes the entered state only when [enterState]
    returns; when it throws, [currentState] is what it was. When the hooks and
    actions of the entry have returned and one of the three steps that follow
    (async actions, timers, submachine) throws, [enterState] throws the same
    error, after clearing every timer and calling every canceler the engine
    holds at that point, among them all the cancelers registered in this
    attempt; the engine then holds no timer and no canceler. *)
Theorem enterState_failure c state context rt w :
  let r := enterState c state context rt w in
  currentState (runtimeOf r) =
    match outcomeOf r with
    | Returns _ => state
    | Throws _ => currentState rt
    end /\
  forall rt1 w1 rt2 w2 e,
    enterState_hooks c state context rt w = (rt1, w1, Returns tt) ->
    enterState_effects c (childOps start c) state context rt1 w1
      = (rt2, w2, Throws e) ->
    outcomeOf r = Throws e /\
    timerIDs (runtimeOf r) = None /\
    asyncActionCancelers (runtimeOf r) = None /\
    trace (worldOf r) =
      trace w2 ++ map TimerCleared (default [] (timerIDs rt2))
               ++ map Canceled (default [] (asyncActionCancelers rt2)) /\
    (forall reg,
       reg ∈ registeredIn (written w1 (startAsyncActions c state context rt1 w1)) ->
       Canceled reg ∈ trace (worldOf r)).
Proof.
  cbv zeta. split; [apply enterState_currentState|].
  intros rt1 w1 rt2 w2 e Hhooks Heffects.
  assert (Hrun : enterState c state context rt w =
                 enterState_rollback e rt2 w2).
  { rewrite enterState_run, (bind_returns _ _ _ _ _ _ _ Hhooks).
    unfold try_catch. rewrite Heffects. rewrite enterState_rollback_run.
    reflexivity. }
  rewrite Hrun, enterState_rollback_run.
  unfold outcomeOf, runtimeOf, worldOf. simpl.
  repeat split.
  intros reg Hreg.
  destruct (startAsyncActions_run c state context rt1 w1)
    as (rtA & wA & HrunA & _ & HcA).
  assert (Hsame : asyncActionCancelers rt2 = asyncActionCancelers rtA).
  { unfold enterState_effects in Heffects.
    rewrite (bind_returns _ _ _ _ _ _ _ HrunA) in Heffects.
    assert (H : respects (same asyncActionCancelers)
                  (startTimers c state >>
                   startSubmachines_body c (childOps start c) state)).
    { apply respects_bind; [apply _ | apply startTimers_same_cancelers|].
      intros _. apply startSubmachines_same_cancelers. }
    specialize (H rtA wA). rewrite Heffects in H. exact H. }
  rewrite Hsame, HcA.
  apply elem_of_app. right. apply elem_of_app. right.
  apply list_elem_of_fmap. exists reg. split; [reflexivity|].
  apply elem_of_app. right. exact Hreg.
Qed.

Lemma enterState_failure_witness :
  let r := enterState brokenConfig (Active "a") (contextFactory (newRuntime 0))
             (newRuntime 0) (mkWorld [] 1 [true]) in
  outcomeOf r = Throws (StateMachineConfigError "Configuration is malformed.") /\
  timerIDs (runtimeOf r) = None /\
  asyncActionCancelers (runtimeOf r) = None /\
  trace (worldOf r) =
    [Submitted "load" (Active "a") (contextFactory (newRuntime 0)) 1;
     TimerSet 2 5; TimerCleared 2; Canceled 1].
Proof.
  cbv zeta.
  pose proof (proj2 (enterState_failure brokenConfig (Active "a")
                       (contextFactory (newRuntime 0))
                       (newRuntime 0) (mkWorld [] 1 [true]))
                (newRuntime 0) (mkWorld [] 1 [true])
                (mkRuntime 0 stopped ∅ (Some [2%nat]) (Some [1%nat]))
                (mkWorld [Submitted "load" (Active "a")
                            (contextFactory (newRuntime 0)) 1;
                          TimerSet 2 5] 3 [])
                (StateMachineConfigError "Configuration is malformed.")
                eq_refl eq_refl) as (Ho & Ht & Hc & Htrace & _).
  repeat split; assumption.
Defined.

(** ** Claim C10: a failure while the engine is stopped *)

Lemma collect_throws args hs :
  existsb (throwsAt args) hs = true ->
  exists h e,
    h ∈ hs /\ hcall h args = Throws e /\
    collect (map (fun h => hcall h args) hs) = Throws e.
Proof.
  induction hs as [|h hs IH]; simpl; [discriminate|].
  unfold throwsAt at 1. destruct (hcall h args) as [v|e] eqn:Hh.
  - simpl. intros H. destruct (IH H) as (h' & e & Hin & Hh' & Hc).
    exists h', e. rewrite Hc. split; [right; exact Hin | split; [exact Hh' | reflexivity]].
  - intros _. exists h, e. split; [left | split; [exact Hh | reflexivity]].
Qed.

Lemma collect_returns args hs :
  existsb (throwsAt args) hs = false ->
  exists rs, collect (map (fun h => hcall h args) hs) = Returns rs.
Proof.
  induction hs as [|h hs IH]; simpl; [eauto|].
  unfold throwsAt at 1. destruct (hcall h args) as [v|e]; [|discriminate].
  simpl. intros H. destruct (IH H) as [rs Hrs]. rewrite Hrs. eauto.
Qed.

(** Stopping the timers and calling the cancelers never fails. *)
Lemma teardown_run {A} (m : M A) rt w :
  (stopTimers >> cancelAsyncActions >> m) rt w =
  m (set_asyncActionCancelers None (set_timerIDs None rt))
    (mkWorld (trace w ++ map TimerCleared (default [] (timerIDs rt))
                     ++ map Canceled (default [] (asyncActionCancelers rt)))
       (fresh w) (scheduler w)).
Proof.
  destruct rt as [o cs subs [ids|] [cans|]]; destruct w as [tr fr sch];
    unfold stopTimers, cancelAsyncActions, bind, this,
      emit, update, set_timerIDs, set_asyncActionCancelers; simpl;
    rewrite ?app_nil_r, ?app_assoc; reflexivity.
Qed.

Lemma stopSubmachines_same_currentState c :
  respects (same currentState) (stopSubmachines c).
Proof. apply (respects_stopSubmachines_body _ anyChild); done. Qed.

(** [exitState] once the submachine has been stopped: the exit hooks, then
    the exit actions of the state. *)
Lemma exitState_after_submachines c context rt w rt1 w1 :
  stopSubmachines c rt w = (rt1, w1, Returns tt) ->
  let args := StateArgs (currentState rt) context in
  outcomeOf (exitState c context rt w) =
  match collect (map (fun h => hcall h args) (stateExitHooks (global c))) with
  | Throws e => Throws e
  | Returns _ =>
      match stateConfigOf c (currentState rt) with
      | Some stateConfig =>
          match collect (map (fun h => hcall h args) (exitActions stateConfig)) with
          | Throws e => Throws e
          | Returns _ => Returns tt
          end
      | None => Returns tt
      end
  end.
Proof.
  intros Hsub. cbv zeta.
  pose proof (stopSubmachines_same_currentState c rt w) as Hcur.
  rewrite Hsub in Hcur. unfold runtimeOf, same in Hcur. simpl in Hcur.
  unfold exitState, exitState_body.
  fold (stopSubmachines c). rewrite (bind_returns _ _ _ _ _ _ _ Hsub).
  rewrite teardown_run, bind_this.
  change (currentState (set_asyncActionCancelers None (set_timerIDs None rt1)))
    with (currentState rt1).
  rewrite Hcur, bind_run, invokeEach_run.
  destruct (collect _) as [rs|e]; [|reflexivity].
  destruct (stateConfigOf c (currentState rt)) as [sc|]; [|reflexivity].
  rewrite bind_run, invokeEach_run.
  destruct (collect _) as [rs'|e]; reflexivity.
Qed.

(** C10. On a started engine, [stop] ends as [exitState] ends: [currentState]
    becomes [stopped] only when [exitState] returns, and when it throws the
    error reaches the caller and [currentState] is what it was. This is the
    case when, the submachine being stopped, a global state-exit hook throws,
    or the hooks return and an exit action of the state throws: [stop] then
    throws the error of the first of them that fails. *)
Theorem stop_failure c rt w :
  isStarted rt = true ->
  let r := stop c rt w in
  let args := StateArgs (currentState rt) (createContext rt) in
  outcomeOf r = outcomeOf (exitState c (createContext rt) rt w) /\
  currentState (runtimeOf r) =
    match outcomeOf r with
    | Returns _ => stopped
    | Throws _ => currentState rt
    end /\
  (outcomeOf (stopSubmachines c rt w) = Returns tt ->
   (existsb (throwsAt args) (stateExitHooks (global c)) = true ->
    exists h e,
      h ∈ stateExitHooks (global c) /\ hcall h args = Throws e /\
      outcomeOf r = Throws e) /\
   (forall stateConfig,
      stateConfigOf c (currentState rt) = Some stateConfig ->
      existsb (throwsAt args) (stateExitHooks (global c)) = false ->
      existsb (throwsAt args) (exitActions stateConfig) = true ->
      exists h e,
        h ∈ exitActions stateConfig /\ hcall h args = Throws e /\
        outcomeOf r = Throws e)).
Proof.
  intros Hstarted. cbv zeta.
  assert (Hout : outcomeOf (stop c rt w) =
                 outcomeOf (exitState c (createContext rt) rt w)).
  { rewrite stop_run, Hstarted.
    destruct (exitState c (createContext rt) rt w) as [[rt' w'] [[]|e]];
      reflexivity. }
  split; [exact Hout|]. split.
  - rewrite stop_run, Hstarted.
    pose proof (exitState_same_currentState c (createContext rt) rt w) as H.
    destruct (exitState c (createContext rt) rt w) as [[rt' w'] [[]|e]];
      [reflexivity | exact H].
  - intros Hsub. rewrite Hout.
    destruct (stopSubmachines c rt w) as [[rt1 w1] o] eqn:Hrun.
    unfold outcomeOf in Hsub. simpl in Hsub. subst o.
    rewrite (exitState_after_submachines c (createContext rt) rt w rt1 w1 Hrun).
    cbv zeta. split.
    + intros Hhook. destruct (collect_throws _ _ Hhook) as (h & e & Hin & Hh & Hc).
      exists h, e. rewrite Hc. auto.
    + intros sc Hsc Hhooks Haction.
      destruct (collect_returns _ _ Hhooks) as [rs Hrs].
      destruct (collect_throws _ _ Haction) as (h & e & Hin & Hh & Hc).
      exists h, e. rewrite Hrs, Hsc, Hc. auto.
Qed.

Lemma stop_failure_witness :
  let rt := runtimeOf (started stuckConfig) in
  let r := stop stuckConfig rt (worldOf (started stuckConfig)) in
  isStarted rt = true /\
  outcomeOf r = Throws (VError "disk full") /\
  currentState (runtimeOf r) = Active "a".
Proof.
  cbv zeta.
  pose proof (stop_failure stuckConfig (runtimeOf (started stuckConfig))
                (worldOf (started stuckConfig)) eq_refl) as (_ & Hcur & Hthrows).
  destruct (proj2 (Hthrows eq_refl) _ eq_refl eq_refl eq_refl)
    as (h & e & Hin & Hh & Hr).
  apply list_elem_of_singleton in Hin. subst h. injection Hh as <-.
  split; [reflexivity|]. split; [exact Hr|].
  rewrite Hcur, Hr. reflexivity.
Defined.

(** ** Claim C9: one child engine per state *)

#[global] Instance childrenKept_preorder : PreOrder childrenKept.
Proof.
  split.
  - intros rt s child H. eauto.
  - intros a b d Hab Hbd s child H.
    destruct (Hab s child H) as (child1 & H1 & Ho1).
    destruct (Hbd s child1 H1) as (child2 & H2 & Ho2).
    exists child2. split; [exact H2 | congruence].
Qed.

Lemma childrenKept_insert rt s child child' :
  submachines rt !! s = Some child -> same oid child child' ->
  childrenKept rt (set_submachines (<[s := child']> (submachines rt)) rt).
Proof.
  intros Hs Hoid s0 child0 H0. simpl.
  destruct (decide (s = s0)) as [<-|Hne].
  - rewrite lookup_insert_eq. exists child'. split; [reflexivity|].
    unfold same in Hoid. congruence.
  - rewrite lookup_insert_ne by exact Hne. eauto.
Qed.

Lemma childrenKept_insert_new rt s child :
  submachines rt !! s = None ->
  childrenKept rt (set_submachines (<[s := child]> (submachines rt)) rt).
Proof.
  intros Hs s0 child0 H0. simpl.
  destruct (decide (s = s0)) as [<-|Hne]; [congruence|].
  rewrite lookup_insert_ne by exact Hne. eauto.
Qed.

Lemma childrenKept_fields rt rt' :
  submachines rt' = submachines rt -> childrenKept rt rt'.
Proof. intros H s child Hs. rewrite H. eauto. Qed.

Ltac children_kept :=
  first
    [ apply childrenKept_insert_new
    | apply childrenKept_insert
    | intros; apply childrenKept_fields; reflexivity
    | intros; apply childOps_same_oid; first [apply start_same_oid | apply stop_same_oid] ].

Lemma enterState_childrenKept c state context :
  respects childrenKept (enterState c state context).
Proof.
  apply (respects_enterState_body childrenKept (same oid)); children_kept.
Qed.

Lemma exitState_childrenKept c context :
  respects childrenKept (exitState c context).
Proof.
  apply (respects_exitState_body childrenKept (same oid)); children_kept.
Qed.

Lemma start_childrenKept c : respects childrenKept (start c).
Proof.
  intros rt w. rewrite start_run.
  destruct (negb (isStarted rt)); [apply enterState_childrenKept | reflexivity].
Qed.

Lemma stop_childrenKept c : respects childrenKept (stop c).
Proof.
  intros rt w. rewrite stop_run. destruct (isStarted rt); [|reflexivity].
  pose proof (exitState_childrenKept c (createContext rt) rt w) as H.
  destruct (exitState c (createContext rt) rt w) as [[rt' w'] [[]|e]];
    [|exact H].
  etransitivity; [exact H|]. apply childrenKept_fields. reflexivity.
Qed.

Lemma executeTransition_childrenKept c t context :
  respects childrenKept (executeTransition c t context).
Proof.
  unfold executeTransition.
  apply respects_bind; [apply _ | |intros _].
  { apply respects_when; [apply _ | apply exitState_childrenKept]. }
  apply respects_bind; [apply _ | intros rt w; simpl; reflexivity | intros rt].
  cbv zeta.
  apply respects_bind; [apply _ | |intros _].
  { apply respects_when; [apply _|].
    apply respects_bind; [apply _ | apply respects_invokeEach; apply _|].
    intros _. apply respects_ret; apply _. }
  apply respects_bind; [apply _ | apply respects_invokeEach; apply _ | intros rs].
  apply respects_bind; [apply _ | |intros _; apply respects_ret; apply _].
  apply respects_when; [apply _ | apply enterState_childrenKept].
Qed.

Lemma handle_childrenKept c ev payload :
  respects childrenKept (handle c ev payload).
Proof.
  unfold handle.
  apply respects_bind; [apply _ | intros rt w; simpl; reflexivity | intros rt].
  destruct (negb (isStarted rt)); [apply respects_throw; apply _|].
  apply respects_bind;
    [apply _ | apply respects_getFirstAllowedTransitionForEvent; apply _|].
  intros [t|];
    [apply executeTransition_childrenKept
    |apply respects_handleUnhandledEvent; apply _].
Qed.

Lemma executeTrigger_childrenKept c triggerConfig context :
  respects childrenKept (executeTrigger c triggerConfig context).
Proof.
  unfold executeTrigger.
  apply respects_bind;
    [apply _ | apply respects_getFirstAllowedTransition; apply _|].
  intros [t|];
    [apply executeTransition_childrenKept | apply respects_ret; apply _].
Qed.

Lemma childOp_start c s stateConfig c' :
  states c !! s = Some stateConfig -> submachine stateConfig = ArgConfig c' ->
  childOp (childOps start c) s = start c'.
Proof.
  intros Hs Hsub. unfold childOp, childOps.
  rewrite lookup_fmap, Hs. simpl. rewrite Hsub. reflexivity.
Qed.

(** C9. For a state [s] that declares a submachine: when no child is stored
    for [s], entering [s] constructs one, stores it and starts it; when a
    child is stored, entering [s] starts that child and constructs nothing;
    and no method of the engine ever replaces a stored child by another
    object. So at most one child engine exists for [s]. *)
Theorem submachine_identity c s stateConfig c' :
  states c !! s = Some stateConfig ->
  submachine stateConfig = ArgConfig c' ->
  (forall rt w,
     submachines rt !! s = None ->
     startSubmachines c (Active s) rt w =
       onChild s (start c')
         (set_submachines (<[s := newRuntime (fresh w)]> (submachines rt)) rt)
         (mkWorld (trace w ++ [Constructed (fresh w)]) (S (fresh w))
            (scheduler w)) /\
     childIs s (fresh w) (runtimeOf (startSubmachines c (Active s) rt w))) /\
  (forall rt w child,
     submachines rt !! s = Some child ->
     startSubmachines c (Active s) rt w = onChild s (start c') rt w /\
     childIs s (oid child) (runtimeOf (startSubmachines c (Active s) rt w))) /\
  (forall rt w child,
     submachines rt !! s = Some child ->
     childIs s (oid child) (runtimeOf (start c rt w)) /\
     childIs s (oid child) (runtimeOf (stop c rt w)) /\
     (forall state context,
        childIs s (oid child) (runtimeOf (enterState c state context rt w))) /\
     (forall context,
        childIs s (oid child) (runtimeOf (exitState c context rt w))) /\
     (forall t context,
        childIs s (oid child) (runtimeOf (executeTransition c t context rt w))) /\
     (forall ev payload,
        childIs s (oid child) (runtimeOf (handle c ev payload rt w))) /\
     (forall triggerConfig context,
        childIs s (oid child)
          (runtimeOf (executeTrigger c triggerConfig context rt w)))).
Proof.
  intros Hs Hsub.
  assert (Hstarted : forall rt w child,
            submachines rt !! s = Some child ->
            childIs s (oid child) (runtimeOf (onChild s (start c') rt w))).
  { intros rt w child Hchild. unfold onChild. rewrite Hchild.
    pose proof (start_same_oid c' child w) as Hoid.
    destruct (start c' child w) as [[child' w'] o].
    exists child'. unfold runtimeOf. simpl. rewrite lookup_insert_eq.
    split; [reflexivity | exact Hoid]. }
  split; [|split].
  - intros rt w Hnone.
    assert (Hrun : startSubmachines c (Active s) rt w =
              onChild s (start c')
                (set_submachines (<[s := newRuntime (fresh w)]> (submachines rt)) rt)
                (mkWorld (trace w ++ [Constructed (fresh w)]) (S (fresh w))
                   (scheduler w))).
    { unfold startSubmachines, startSubmachines_body.
      rewrite Hs, Hsub. change (argTruthy (ArgConfig c')) with true. cbv iota.
      rewrite bind_this, Hnone.
      rewrite (childOp_start c s stateConfig c' Hs Hsub). reflexivity. }
    split; [exact Hrun|]. rewrite Hrun.
    apply (Hstarted _ _ (newRuntime (fresh w))). simpl.
    apply lookup_insert_eq.
  - intros rt w child Hchild.
    assert (Hrun : startSubmachines c (Active s) rt w = onChild s (start c') rt w).
    { unfold startSubmachines, startSubmachines_body.
      rewrite Hs, Hsub. change (argTruthy (ArgConfig c')) with true. cbv iota.
      rewrite bind_this, Hchild.
      rewrite (childOp_start c s stateConfig c' Hs Hsub). reflexivity. }
    split; [exact Hrun|]. rewrite Hrun. apply Hstarted, Hchild.
  - intros rt w child Hchild. repeat split; intros.
    + exact (start_childrenKept c rt w s child Hchild).
    + exact (stop_childrenKept c rt w s child Hchild).
    + exact (enterState_childrenKept c _ _ rt w s child Hchild).
    + exact (exitState_childrenKept c _ rt w s child Hchild).
    + exact (executeTransition_childrenKept c _ _ rt w s child Hchild).
    + exact (handle_childrenKept c _ _ rt w s child Hchild).
    + exact (executeTrigger_childrenKept c _ _ rt w s child Hchild).
Qed.

Lemma submachine_identity_witness :
  childIs "a" 3 (runtimeOf outerStarted) /\
  childIs "a" 3
    (runtimeOf (handle outerConfig "again" VUndefined
                  (runtimeOf outerStarted) (worldOf outerStarted))).
Proof.
  assert (Hs : states outerConfig !! State "a" = Some outerState)
    by apply lookup_singleton_eq.
  pose proof (submachine_identity outerConfig "a" outerState innerConfig
                Hs eq_refl) as (_ & _ & Hkept).
  assert (H : childIs "a" 3 (runtimeOf outerStarted)).
  { eexists. split; [vm_compute; reflexivity | reflexivity]. }
  split; [exact H|].
  destruct H as (child & Hchild & Hoid). rewrite <- Hoid.
  destruct (Hkept (runtimeOf outerStarted) (worldOf outerStarted) child Hchild)
    as (_ & _ & _ & _ & _ & Hhandle & _).
  exact (Hhandle "again" VUndefined).
Defined.

(** * Further properties of the engine *)

Lemma logged_nil w : logged w [] = w.
Proof. destruct w. unfold logged. simpl. rewrite app_nil_r. reflexivity. Qed.

Lemma logged_logged w os1 os2 : logged (logged w os1) os2 = logged w (os1 ++ os2).
Proof. unfold logged. simpl. rewrite app_assoc. reflexivity. Qed.

Lemma stopSubmachines_fields c rt w :
  let rt1 := runtimeOf (stopSubmachines c rt w) in
  currentState rt1 = currentState rt /\
  timerIDs rt1 = timerIDs rt /\
  asyncActionCancelers rt1 = asyncActionCancelers rt.
Proof.
  cbv zeta. repeat split.
  - apply stopSubmachines_same_currentState.
  - apply (respects_stopSubmachines_body (same timerIDs) anyChild); done.
  - apply (respects_stopSubmachines_body (same asyncActionCancelers) anyChild); done.
Qed.

(** [exitState] once the submachine has been stopped, in full. *)
Lemma exitState_run c context rt w rt1 w1 :
  stopSubmachines c rt w = (rt1, w1, Returns tt) ->
  let args := StateArgs (currentState rt) context in
  let rt2 := set_asyncActionCancelers None (set_timerIDs None rt1) in
  let w2 := logged w1 (teardown rt ++ calls (stateExitHooks (global c)) args) in
  exitState c context rt w =
  match collect (map (fun h => hcall h args) (stateExitHooks (global c))) with
  | Throws e => (rt2, w2, Throws e)
  | Returns _ =>
      match stateConfigOf c (currentState rt) with
      | Some stateConfig =>
          (rt2, logged w2 (calls (exitActions stateConfig) args),
           match collect (map (fun h => hcall h args) (exitActions stateConfig)) with
           | Throws e => Throws e
           | Returns _ => Returns tt
           end)
      | None => (rt2, w2, Returns tt)
      end
  end.
Proof.
  intros Hsub. cbv zeta.
  destruct (stopSubmachines_fields c rt w) as (Hcur & Htimers & Hcancelers).
  rewrite Hsub in Hcur, Htimers, Hcancelers.
  unfold runtimeOf in Hcur, Htimers, Hcancelers. simpl in Hcur, Htimers, Hcancelers.
  unfold exitState, exitState_body.
  fold (stopSubmachines c). rewrite (bind_returns _ _ _ _ _ _ _ Hsub).
  rewrite teardown_run, bind_this.
  change (currentState (set_asyncActionCancelers None (set_timerIDs None rt1)))
    with (currentState rt1).
  rewrite Hcur, Htimers, Hcancelers, bind_run, invokeEach_run.
  unfold logged, teardown, calls. simpl. rewrite <- ?app_assoc.
  destruct (collect _) as [rs|e]; [|reflexivity].
  destruct (stateConfigOf c (currentState rt)) as [sc|]; [|reflexivity].
  rewrite bind_run, invokeEach_run. simpl. rewrite <- ?app_assoc.
  destruct (collect _) as [rs'|e]; reflexivity.
Qed.

(** When [exitState] fails in [stopSubmachines], nothing else has happened to
    the engine. *)
Lemma exitState_cases c context rt w :
  let r := exitState c context rt w in
  currentState (runtimeOf r) = currentState rt /\
  ((exists e, outcomeOf r = Throws e /\
              timerIDs (runtimeOf r) = timerIDs rt /\
              asyncActionCancelers (runtimeOf r) = asyncActionCancelers rt)
   \/ idle (runtimeOf r)).
Proof.
  cbv zeta. split; [apply exitState_same_currentState|].
  destruct (stopSubmachines c rt w) as [[rt1 w1] [[]|e]] eqn:Hsub.
  - right. rewrite (exitState_run c context rt w rt1 w1 Hsub). cbv zeta.
    destruct (collect _); [|split; reflexivity].
    destruct (stateConfigOf c (currentState rt)); split; reflexivity.
  - left. exists e.
    destruct (stopSubmachines_fields c rt w) as (_ & Htimers & Hcancelers).
    rewrite Hsub in Htimers, Hcancelers.
    unfold exitState, exitState_body. fold (stopSubmachines c).
    rewrite (bind_throws _ _ _ _ _ _ _ Hsub). auto.
Qed.

Lemma exitState_returns c context rt w rt' w' :
  exitState c context rt w = (rt', w', Returns tt) ->
  currentState rt' = currentState rt /\ idle rt'.
Proof.
  intros H. destruct (exitState_cases c context rt w) as [Hcur Hcases].
  rewrite H in Hcur, Hcases. split; [exact Hcur|].
  destruct Hcases as [(e & He & _)|Hidle]; [discriminate | exact Hidle].
Qed.

(** X1. [exitState] tears the state down before it calls any hook: once the
    submachine of the state is stopped, the engine holds no timer and no
    canceler, whether or not a hook or an exit action fails afterwards. The
    log shows, in this order, the timers cleared, the cancelers called and the
    calls of the global exit hooks. When a hook fails, [exitState] fails with
    it and calls nothing more; when the hooks return, the exit actions of the
    state are called next, all of them, and [exitState] ends as they end. *)
Theorem exitState_teardown_first c context rt w rt1 w1 :
  stopSubmachines c rt w = (rt1, w1, Returns tt) ->
  let r := exitState c context rt w in
  let args := StateArgs (currentState rt) context in
  let hooks := stateExitHooks (global c) in
  let exits := exitActionsOf c (currentState rt) in
  idle (runtimeOf r) /\
  currentState (runtimeOf r) = currentState rt /\
  match collect (map (fun h => hcall h args) hooks) with
  | Throws e =>
      outcomeOf r = Throws e /\
      trace (worldOf r) = trace w1 ++ teardown rt ++ calls hooks args
  | Returns _ =>
      outcomeOf r =
        match collect (map (fun h => hcall h args) exits) with
        | Throws e => Throws e
        | Returns _ => Returns tt
        end /\
      trace (worldOf r) =
        trace w1 ++ teardown rt ++ calls hooks args ++ calls exits args
  end.
Proof.
  intros Hsub. cbv zeta.
  split; [|split; [apply exitState_same_currentState|]].
  - destruct (exitState_cases c context rt w) as [_ [(e & He & _)|Hidle]];
      [|exact Hidle].
    revert He. rewrite (exitState_run c context rt w rt1 w1 Hsub). cbv zeta.
    destruct (collect _); [|intros _; split; reflexivity].
    destruct (stateConfigOf c (currentState rt)); intros _; split; reflexivity.
  - rewrite (exitState_run c context rt w rt1 w1 Hsub). cbv zeta.
    unfold exitActionsOf.
    destruct (collect (map _ (stateExitHooks (global c)))) as [rs|e].
    + destruct (stateConfigOf c (currentState rt)) as [sc|].
      * unfold worldOf, outcomeOf, logged. simpl. rewrite <- ?app_assoc.
        split; reflexivity.
      * unfold worldOf, outcomeOf, logged, calls. simpl.
        rewrite <- ?app_assoc, ?app_nil_r. split; reflexivity.
    + unfold worldOf, outcomeOf, logged. simpl. rewrite <- ?app_assoc.
      split; reflexivity.
Qed.

Lemma exitState_teardown_first_witness :
  let before := runtimeOf busyStarted in
  let context := contextFactory before in
  let args := StateArgs (Active "a") context in
  let r := exitState busyConfig context before (worldOf busyStarted) in
  timerIDs before = Some [2%nat] /\
  asyncActionCancelers before = Some [1%nat] /\
  idle (runtimeOf r) /\
  outcomeOf r = Returns tt /\
  trace (worldOf r) =
    trace (worldOf busyStarted)
    ++ [TimerCleared 2; Canceled 1; Called "onExit" args; Called "exitA" args].
Proof.
  cbv zeta.
  destruct (exitState_teardown_first busyConfig
              (contextFactory (runtimeOf busyStarted))
              (runtimeOf busyStarted) (worldOf busyStarted)
              (runtimeOf busyStarted) (worldOf busyStarted)
              eq_refl) as (Hidle & _ & Hout & Htrace).
  split; [vm_compute; reflexivity|].
  split; [vm_compute; reflexivity|].
  split; [exact Hidle|].
  split; [rewrite Hout | rewrite Htrace]; vm_compute; reflexivity.
Defined.

Lemma isStarted_false rt : isStarted rt = false <-> currentState rt = stopped.
Proof.
  unfold isStarted. rewrite bool_decide_eq_false. split.
  - intros H. destruct (decide (currentState rt = stopped)); [assumption|].
    contradiction.
  - intros H Hne. contradiction.
Qed.

Lemma isStarted_true rt : isStarted rt = true <-> currentState rt <> stopped.
Proof. unfold isStarted. apply bool_decide_eq_true. Qed.

(** X2. When [stop] returns, the engine is stopped and, if it was started,
    holds no timer and no canceler; from then on [stop] does nothing, [handle]
    fails with a [StateMachineNotStartedError] and [canHandle] answers false,
    none of them touching the engine or calling anything, and [getSubmachine]
    answers nothing. *)
Theorem stop_returns c rt w rt' w' :
  stop c rt w = (rt', w', Returns tt) ->
  currentState rt' = stopped /\
  (isStarted rt = true -> idle rt') /\
  getSubmachine rt' = None /\
  forall ev payload w1,
    stop c rt' w1 = (rt', w1, Returns tt) /\
    handle c ev payload rt' w1 =
      (rt', w1, Throws (StateMachineNotStartedError (oid rt') notStartedMessage)) /\
    canHandle c ev payload rt' w1 = (rt', w1, Returns false).
Proof.
  rewrite stop_run. intros Hstop.
  assert (Hcur : currentState rt' = stopped /\ (isStarted rt = true -> idle rt')).
  { destruct (isStarted rt) eqn:Hstarted.
    - destruct (exitState c (createContext rt) rt w) as [[rt1 w1] [[]|e]] eqn:Hexit;
        [|discriminate].
      injection Hstop as <- <-.
      apply exitState_returns in Hexit as [_ Hidle].
      split; [reflexivity | intros _; exact Hidle].
    - injection Hstop as <- <-. apply isStarted_false in Hstarted.
      split; [exact Hstarted | discriminate]. }
  destruct Hcur as [Hcur Hidle].
  assert (Hstarted' : isStarted rt' = false) by (apply isStarted_false, Hcur).
  split; [exact Hcur|]. split; [exact Hidle|]. split.
  { unfold getSubmachine. rewrite Hcur. reflexivity. }
  intros ev payload w1. split; [|split].
  - rewrite stop_run, Hstarted'. reflexivity.
  - unfold handle. rewrite bind_this, Hstarted'. reflexivity.
  - unfold canHandle. rewrite bind_this, Hstarted'. reflexivity.
Qed.

Lemma stop_returns_witness :
  let r := stop outerConfig (runtimeOf outerStarted) (worldOf outerStarted) in
  currentState (runtimeOf r) = stopped /\
  idle (runtimeOf r) /\
  handle outerConfig "again" VUndefined (runtimeOf r) (worldOf r) =
    (runtimeOf r, worldOf r,
     Throws (StateMachineNotStartedError (oid (runtimeOf r)) notStartedMessage)).
Proof.
  cbv zeta.
  assert (Hstop : stop outerConfig (runtimeOf outerStarted) (worldOf outerStarted) =
                  (runtimeOf (stop outerConfig (runtimeOf outerStarted)
                                (worldOf outerStarted)),
                   worldOf (stop outerConfig (runtimeOf outerStarted)
                              (worldOf outerStarted)),
                   Returns tt)).
  { vm_compute. reflexivity. }
  destruct (stop_returns outerConfig _ _ _ _ Hstop) as (Hcur & Hidle & _ & Hthen).
  split; [exact Hcur|]. split; [apply Hidle; reflexivity|].
  exact (proj1 (proj2 (Hthen "again" VUndefined _))).
Defined.

(** X3. On a stopped engine, [start] ends in the initial state when it
    returns and leaves the engine stopped when it throws; once it has
    returned, a further [start] does nothing. *)
Theorem start_outcome c rt w :
  isStarted rt = false ->
  let r := start c rt w in
  currentState (runtimeOf r) =
    match outcomeOf r with
    | Returns _ => Active (initialState c)
    | Throws _ => stopped
    end /\
  (outcomeOf r = Returns tt ->
   forall w1, start c (runtimeOf r) w1 = (runtimeOf r, w1, Returns tt)).
Proof.
  intros Hstopped. cbv zeta.
  assert (Hcur : currentState (runtimeOf (start c rt w)) =
                 match outcomeOf (start c rt w) with
                 | Returns _ => Active (initialState c)
                 | Throws _ => stopped
                 end).
  { rewrite start_run, Hstopped. simpl negb. cbv iota.
    rewrite enterState_currentState.
    destruct (outcomeOf _); [reflexivity | apply isStarted_false, Hstopped]. }
  split; [exact Hcur|].
  intros Hret w1. rewrite Hret in Hcur.
  rewrite start_run.
  replace (isStarted (runtimeOf (start c rt w))) with true; [reflexivity|].
  symmetry. apply isStarted_true. rewrite Hcur. discriminate.
Qed.

Lemma start_outcome_witness :
  currentState (runtimeOf (start outerConfig (newRuntime 0) newWorld)) = Active "a" /\
  currentState (runtimeOf (start brokenConfig (newRuntime 0) newWorld)) = stopped.
Proof.
  split.
  - exact (proj1 (start_outcome outerConfig (newRuntime 0) newWorld eq_refl)).
  - exact (proj1 (start_outcome brokenConfig (newRuntime 0) newWorld eq_refl)).
Defined.

(** The resolver writes nothing but the evaluations of conditions. *)
Lemma getFirstAllowedTransition_logged ts context rt w :
  exists evs o,
    getFirstAllowedTransition ts context rt w = (rt, logged w evs, o) /\
    forallb isEvaluated evs = true.
Proof.
  revert w. induction ts as [|t ts IH]; intros w; simpl.
  - exists [], (Returns None). rewrite logged_nil. split; reflexivity.
  - destruct (condition t) as [cond|].
    + unfold bind, emit, lift.
      destruct (ccall cond context) as [v|e].
      * destruct (truthy v).
        -- exists [Evaluated (cname cond) context], (Returns (Some t)).
           split; reflexivity.
        -- destruct (IH (logged w [Evaluated (cname cond) context]))
             as (evs & o & Hrun & Hevs).
           exists (Evaluated (cname cond) context :: evs), o.
           unfold logged in Hrun at 1. rewrite Hrun, logged_logged.
           split; [reflexivity | exact Hevs].
      * exists [Evaluated (cname cond) context], (Throws e). split; reflexivity.
    + exists [], (Returns (Some t)). rewrite logged_nil. split; reflexivity.
Qed.

(** Resolving against two lists in turn is resolving against the two lists
    put end to end. *)
Lemma getFirstAllowedTransition_app ts1 ts2 context rt w :
  getFirstAllowedTransition (ts1 ++ ts2) context rt w =
  (let! found := getFirstAllowedTransition ts1 context in
   match found with
   | Some t => ret (Some t)
   | None => getFirstAllowedTransition ts2 context
   end) rt w.
Proof.
  revert w. induction ts1 as [|t ts1 IH]; intros w; simpl.
  - reflexivity.
  - destruct (condition t) as [cond|]; [|reflexivity].
    unfold bind at 1 2 3 4 5. unfold emit, lift.
    destruct (ccall cond context) as [v|e]; [|reflexivity].
    destruct (truthy v); [reflexivity|]. apply IH.
Qed.

Lemma getFirstAllowedTransitionForEvent_run c context rt w :
  getFirstAllowedTransitionForEvent c context rt w =
  match stateConfigOf c (currentState rt) with
  | Some stateConfig =>
      getFirstAllowedTransition (candidates stateConfig context) context rt w
  | None => (rt, w, Returns None)
  end.
Proof.
  unfold getFirstAllowedTransitionForEvent. rewrite bind_this.
  destruct (stateConfigOf c (currentState rt)) as [sc|]; [|reflexivity].
  unfold candidates. rewrite getFirstAllowedTransition_app.
  destruct (event context ≫= _) as [ec|].
  - unfold bind.
    destruct (getFirstAllowedTransition (transitions ec) context rt w)
      as [[rt1 w1] [[t|]|e]]; try reflexivity.
    destruct (anyEventTrigger sc); reflexivity.
  - unfold bind. simpl.
    destruct (anyEventTrigger sc); reflexivity.
Qed.

Lemma getFirstAllowedTransitionForEvent_logged c context rt w :
  exists evs o,
    getFirstAllowedTransitionForEvent c context rt w = (rt, logged w evs, o) /\
    forallb isEvaluated evs = true.
Proof.
  rewrite getFirstAllowedTransitionForEvent_run.
  destruct (stateConfigOf c (currentState rt)) as [sc|].
  - apply getFirstAllowedTransition_logged.
  - exists [], (Returns None). rewrite logged_nil. split; reflexivity.
Qed.

(** X4. In a configured state, resolving the event of a context is resolving
    against one list: the transitions of the event followed by those of the
    any-event trigger. So an any-event transition is selected only when every
    transition of the event has been declined, and its conditions are
    evaluated only then. In a state without configuration nothing is
    evaluated and nothing matches. *)
Theorem getFirstAllowedTransitionForEvent_candidates c context rt w :
  getFirstAllowedTransitionForEvent c context rt w =
  match stateConfigOf c (currentState rt) with
  | Some stateConfig =>
      getFirstAllowedTransition (candidates stateConfig context) context rt w
  | None => (rt, w, Returns None)
  end.
Proof. apply getFirstAllowedTransitionForEvent_run. Qed.

(** X5. A condition that throws ends the resolution: when every entry before
    it has been declined, the resolver throws its error, and the conditions of
    the entries after it are not evaluated. *)
Theorem getFirstAllowedTransition_condition_throws before t after cond e context rt w :
  forallb (declines context) before = true ->
  condition t = Some cond ->
  ccall cond context = Throws e ->
  getFirstAllowedTransition (before ++ t :: after) context rt w =
  (rt, logged w (evaluations context (before ++ [t])), Throws e).
Proof.
  intros Hbefore Hcond Hthrows. revert w.
  induction before as [|t0 before IH]; intros w; simpl.
  - rewrite Hcond. unfold bind, emit, lift. rewrite Hthrows. reflexivity.
  - simpl in Hbefore. apply andb_prop in Hbefore as [H0 Hbefore].
    unfold declines, allowed, settles in H0.
    destruct (condition t0) as [cond0|]; [|discriminate].
    unfold bind at 1 2, emit, lift.
    destruct (ccall cond0 context) as [v|e0]; [|discriminate].
    destruct (truthy v); [discriminate|].
    rewrite (IH Hbefore). unfold logged. simpl. rewrite <- app_assoc. reflexivity.
Qed.

Lemma getFirstAllowedTransition_condition_throws_witness :
  getFirstAllowedTransition
    [declined; mkTransition (Some failingCondition) [] None false false; unconditional]
    (contextFactory (newRuntime 0)) (newRuntime 0) newWorld =
  (newRuntime 0,
   mkWorld [Evaluated "A?" (contextFactory (newRuntime 0));
            Evaluated "broken?" (contextFactory (newRuntime 0))] 1 [],
   Throws (VError "no database")).
Proof.
  exact (getFirstAllowedTransition_condition_throws [declined]
           (mkTransition (Some failingCondition) [] None false false)
           [unconditional] failingCondition (VError "no database")
           (contextFactory (newRuntime 0)) (newRuntime 0) newWorld
           eq_refl eq_refl eq_refl).
Defined.

(** X6. [canHandle] is a probe: it leaves the engine as it is and calls no
    hook and no action; all it adds to the log are evaluations of conditions,
    and on an engine that is not started it answers false without evaluating
    anything. *)
Theorem canHandle_probe c ev payload rt w :
  exists evs o,
    canHandle c ev payload rt w = (rt, logged w evs, o) /\
    forallb isEvaluated evs = true /\
    (isStarted rt = false -> evs = [] /\ o = Returns false).
Proof.
  unfold canHandle. rewrite bind_this.
  destruct (isStarted rt) eqn:Hstarted;
    [change (negb true) with false | change (negb false) with true]; cbv iota.
  - destruct (getFirstAllowedTransitionForEvent_logged c
                (createContextWithEvent rt ev payload) rt w)
      as (evs & o & Hrun & Hevs).
    rewrite bind_run, Hrun.
    destruct o as [found|e].
    + exists evs, (Returns (bool_decide (is_Some found))).
      split; [reflexivity|]. split; [exact Hevs | discriminate].
    + exists evs, (Throws e).
      split; [reflexivity|]. split; [exact Hevs | discriminate].
  - exists [], (Returns false). rewrite logged_nil.
    split; [reflexivity|]. split; [reflexivity | auto].
Qed.

Lemma canHandle_probe_witness :
  canHandle outerConfig "again" VUndefined (newRuntime 0) newWorld =
  (newRuntime 0, logged newWorld [], Returns false).
Proof.
  destruct (canHandle_probe outerConfig "again" VUndefined (newRuntime 0) newWorld)
    as (evs & o & Hrun & _ & Hstopped).
  destruct (Hstopped eq_refl) as [-> ->]. exact Hrun.
Defined.

(** X7. [canHandle] and [handle] agree. When [canHandle] answers true,
    [handle] on the same engine executes a transition of the current state,
    from the world [canHandle] leaves; when it answers false on a started
    engine, [handle] runs the unhandled-event hooks. *)
Theorem canHandle_handle c ev payload rt w :
  let context := createContextWithEvent rt ev payload in
  let probed := worldOf (canHandle c ev payload rt w) in
  (outcomeOf (canHandle c ev payload rt w) = Returns true ->
   exists stateConfig t,
     stateConfigOf c (currentState rt) = Some stateConfig /\
     transitionsOfState stateConfig t /\
     handle c ev payload rt w = executeTransition c t context rt probed) /\
  (isStarted rt = true ->
   outcomeOf (canHandle c ev payload rt w) = Returns false ->
   handle c ev payload rt w = handleUnhandledEvent c ev payload rt probed).
Proof.
  cbv zeta. unfold canHandle, handle. rewrite !bind_this.
  destruct (isStarted rt) eqn:Hstarted;
    [change (negb true) with false | change (negb false) with true]; cbv iota.
  - rewrite !bind_run.
    pose proof (getFirstAllowedTransitionForEvent_runtime c
                  (createContextWithEvent rt ev payload) rt w) as Hrt.
    destruct (getFirstAllowedTransitionForEvent c _ rt w)
      as [[rt1 w1] [[t|]|e]] eqn:Hres;
      unfold runtimeOf in Hrt; simpl in Hrt; subst rt1;
      unfold outcomeOf, worldOf; simpl.
    + split; [|intros _; discriminate]. intros _.
      apply getFirstAllowedTransitionForEvent_elem in Hres as (sc & Hsc & Ht).
      exists sc, t. auto.
    + split; [discriminate | reflexivity].
    + split; [discriminate | intros _; discriminate].
  - unfold outcomeOf. simpl. split; discriminate.
Qed.

Lemma canHandle_handle_witness :
  exists stateConfig t,
    stateConfigOf outerConfig (currentState (runtimeOf outerStarted))
      = Some stateConfig /\
    transitionsOfState stateConfig t /\
    handle outerConfig "again" VUndefined (runtimeOf outerStarted)
      (worldOf outerStarted) =
    executeTransition outerConfig t
      (createContextWithEvent (runtimeOf outerStarted) "again" VUndefined)
      (runtimeOf outerStarted)
      (worldOf (canHandle outerConfig "again" VUndefined (runtimeOf outerStarted)
                  (worldOf outerStarted))).
Proof.
  apply (proj1 (canHandle_handle outerConfig "again" VUndefined
                  (runtimeOf outerStarted) (worldOf outerStarted))).
  vm_compute. reflexivity.
Defined.

(** X8. In a state that has no entry in [config.states], no event is
    handled: [canHandle] answers false and [handle] goes to the
    unhandled-event hooks, both without evaluating anything; without such
    hooks [handle] fails with an [UnhandledEventError]. *)
Theorem unconfigured_state_handles_nothing c ev payload rt w :
  isStarted rt = true ->
  stateConfigOf c (currentState rt) = None ->
  canHandle c ev payload rt w = (rt, w, Returns false) /\
  handle c ev payload rt w = handleUnhandledEvent c ev payload rt w /\
  (unhandledEventHooks (global c) = [] ->
   handle c ev payload rt w =
   (rt, w, Throws (UnhandledEventError ev (currentState rt)
                     (createContextWithEvent rt ev payload)))).
Proof.
  intros Hstarted Hnone.
  assert (Hhandle : handle c ev payload rt w = handleUnhandledEvent c ev payload rt w).
  { unfold handle. rewrite bind_this, Hstarted. change (negb true) with false.
    cbv iota. rewrite bind_run, getFirstAllowedTransitionForEvent_run, Hnone.
    reflexivity. }
  split; [|split; [exact Hhandle|]].
  - unfold canHandle. rewrite bind_this, Hstarted. change (negb true) with false.
    cbv iota. rewrite bind_run, getFirstAllowedTransitionForEvent_run, Hnone.
    reflexivity.
  - intros Hhooks. rewrite Hhandle. unfold handleUnhandledEvent.
    rewrite bind_this, Hhooks. reflexivity.
Qed.

Lemma unconfigured_state_handles_nothing_witness :
  let r := handle goConfig "go" VUndefined (runtimeOf (started goConfig))
             (worldOf (started goConfig)) in
  currentState (runtimeOf r) = Active "running" /\
  canHandle goConfig "go" VUndefined (runtimeOf r) (worldOf r) =
    (runtimeOf r, worldOf r, Returns false).
Proof.
  cbv zeta. split; [vm_compute; reflexivity|].
  apply (unconfigured_state_handles_nothing goConfig "go" VUndefined);
    vm_compute; reflexivity.
Defined.

(** X9. A trigger (a timer that fires, an async action that completes) whose
    transitions are all declined does nothing: [executeTrigger] returns
    [undefined], leaves the engine as it is and calls no hook, where [handle]
    would have run the unhandled-event hooks or failed. *)
Theorem executeTrigger_no_match c triggerConfig context rt w :
  forallb (declines context) (transitions triggerConfig) = true ->
  executeTrigger c triggerConfig context rt w =
  (rt, logged w (evaluations context (transitions triggerConfig)),
   Returns VUndefined).
Proof.
  intros Hdeclined. unfold executeTrigger. rewrite bind_run.
  assert (H : scanned context (transitions triggerConfig) = transitions triggerConfig
              /\ List.find (allowed context) (transitions triggerConfig) = None
              /\ forallb (settles context) (transitions triggerConfig) = true).
  { induction (transitions triggerConfig) as [|t ts IH]; [repeat split|].
    simpl in Hdeclined. apply andb_prop in Hdeclined as [Ht Hts].
    unfold declines in Ht. apply andb_prop in Ht as [Hallowed Hsettles].
    apply negb_true_iff in Hallowed. destruct (IH Hts) as (H1 & H2 & H3).
    simpl. rewrite Hallowed, H1, H2, Hsettles, H3. repeat split. }
  destruct H as (Hscanned & Hfind & Hsettles).
  rewrite getFirstAllowedTransition_run by (rewrite Hscanned; exact Hsettles).
  rewrite Hscanned, Hfind. reflexivity.
Qed.

Lemma executeTrigger_no_match_witness :
  executeTrigger outerConfig (mkTrigger [declined]) (contextFactory (newRuntime 0))
    (runtimeOf outerStarted) (worldOf outerStarted) =
  (runtimeOf outerStarted,
   logged (worldOf outerStarted) [Evaluated "A?" (contextFactory (newRuntime 0))],
   Returns VUndefined).
Proof.
  exact (executeTrigger_no_match outerConfig (mkTrigger [declined])
           (contextFactory (newRuntime 0))
           (runtimeOf outerStarted) (worldOf outerStarted) eq_refl).
Defined.

Lemma first_answer rs v :
  forallb (fun x => negb (isFailure x)) rs = true ->
  List.find isAnswer rs = Some v ->
  handlerFailuresOf (handlerResultsOf rs) = [] /\
  handlerSuccessesOf (handlerResultsOf rs) <> [] /\
  nth 0 (List.filter (fun x => negb (isUndefined x))
           (handlerSuccessesOf (handlerResultsOf rs))) VUndefined = v.
Proof.
  unfold handlerFailuresOf, handlerSuccessesOf, handlerResultsOf, isAnswer.
  induction rs as [|x rs IH]; simpl; [discriminate|].
  intros [Hx Hrs]%andb_prop.
  destruct (isIgnore x) eqn:Hignore; simpl.
  - apply IH, Hrs.
  - apply negb_true_iff in Hx. rewrite Hx. simpl.
    destruct (isUndefined x) eqn:Hundef; simpl.
    + intros Hfind. destruct (IH Hrs Hfind) as (H1 & _ & H3).
      split; [exact H1|]. split; [discriminate | exact H3].
    + intros [= <-].
      assert (H1 : List.filter isFailure
                     (List.filter (fun x0 => negb (isIgnore x0)) rs) = []).
      { clear -Hrs. induction rs as [|y rs IH]; [reflexivity|].
        simpl in Hrs. apply andb_prop in Hrs as [Hy Hrs]. simpl.
        destruct (negb (isIgnore y)); [|apply IH, Hrs].
        simpl. apply negb_true_iff in Hy. rewrite Hy. apply IH, Hrs. }
      split; [exact H1|]. split; [discriminate | reflexivity].
Qed.

(** X10. When no unhandled-event hook fails, [handle] resolves an unmatched
    event with the first result, in the order of the hooks, that is neither
    the sentinel nor [undefined]. *)
Theorem handle_unhandled_first_answer c ev payload rt w v :
  let context := createContextWithEvent rt ev payload in
  let args := EventArgs ev (currentState rt) context in
  isStarted rt = true ->
  outcomeOf (getFirstAllowedTransitionForEvent c context rt w) = Returns None ->
  forallb (fun h => negb (isFailure (settled args h)))
    (unhandledEventHooks (global c)) = true ->
  List.find isAnswer (map (settled args) (unhandledEventHooks (global c))) = Some v ->
  outcomeOf (handle c ev payload rt w) = Returns v.
Proof.
  cbv zeta. intros Hstarted Hnone Hok Hfind.
  rewrite (handle_no_match c ev payload rt w Hstarted Hnone).
  rewrite handleUnhandledEvent_outcome.
  assert (Hrs : forallb (fun x => negb (isFailure x))
                  (map (settled (EventArgs ev (currentState rt)
                                   (createContextWithEvent rt ev payload)))
                     (unhandledEventHooks (global c))) = true).
  { clear -Hok. induction (unhandledEventHooks (global c)) as [|h hooks IH];
      [reflexivity|].
    simpl in *. apply andb_prop in Hok as [Hh Hhooks].
    rewrite Hh. apply IH, Hhooks. }
  destruct (first_answer _ _ Hrs Hfind) as (Hfail & Hsucc & Hnth).
  destruct (unhandledEventHooks (global c)) as [|h hooks]; [discriminate|].
  change (0 <? length (h :: hooks))%nat with true. cbv iota.
  unfold unhandledOutcome. rewrite Hfail. simpl length. cbv iota.
  change (0 <? 0)%nat with false. cbv iota.
  destruct (handlerSuccessesOf _) as [|s ss] eqn:Hs; [contradiction|].
  change (0 <? length (s :: ss))%nat with true. cbv iota.
  rewrite Hnth. reflexivity.
Qed.

Lemma handle_unhandled_first_answer_witness :
  outcomeOf (handle answeringConfig "go" VUndefined
               (runtimeOf (started answeringConfig))
               (worldOf (started answeringConfig))) =
  Returns (VStr "queued").
Proof.
  exact (handle_unhandled_first_answer answeringConfig "go" VUndefined
           (runtimeOf (started answeringConfig))
           (worldOf (started answeringConfig)) (VStr "queued")
           eq_refl eq_refl eq_refl eq_refl).
Defined.

(** The two fan-outs in the middle of a transition that is not ignored. *)
Lemma executeTransition_middle c t context rt w :
  ignore t = false ->
  let args := TransitionArgs (currentState rt) (nextStateOf t rt) context in
  let hooks := transitionHooks (global c) in
  executeTransition c t context rt w =
  match (when (normalMode t) (exitState c context)) rt w with
  | (rt1, w1, Throws e) => (rt1, w1, Throws e)
  | (rt1, w1, Returns _) =>
      match collect (map (fun h => hcall h args) hooks) with
      | Throws e => (rt1, logged w1 (calls hooks args), Throws e)
      | Returns _ =>
          match collect (map (fun h => hcall h args) (actions t)) with
          | Throws e =>
              (rt1, logged w1 (calls hooks args ++ calls (actions t) args), Throws e)
          | Returns rs =>
              match (when (normalMode t)
                       (enterState c (nextStateOf t rt) context)) rt1
                      (logged w1 (calls hooks args ++ calls (actions t) args)) with
              | (rt2, w2, Returns _) => (rt2, w2, Returns (transitionResult rs))
              | (rt2, w2, Throws e) => (rt2, w2, Throws e)
              end
          end
      end
  end.
Proof.
  intros Hignore. cbv zeta. unfold executeTransition. fold (normalMode t).
  rewrite Hignore. change (negb false) with true. unfold when at 2.
  rewrite bind_run.
  assert (Hexit : respects (same currentState)
                    (when (normalMode t) (exitState c context))).
  { apply respects_when; [apply _ | apply exitState_same_currentState]. }
  specialize (Hexit rt w).
  destruct (when (normalMode t) (exitState c context) rt w)
    as [[rt1 w1] [[]|e]]; [|reflexivity].
  unfold runtimeOf, same in Hexit; simpl in Hexit.
  rewrite bind_this.
  assert (Hnext : nextStateOf t rt1 = nextStateOf t rt).
  { unfold nextStateOf. rewrite Hexit. reflexivity. }
  rewrite Hnext, Hexit.
  rewrite bind_run, bind_run, invokeEach_run.
  destruct (collect _) as [hs|e]; [|reflexivity].
  unfold ret at 1. rewrite bind_run, invokeEach_run.
  unfold logged, calls. simpl. rewrite <- ?app_assoc.
  destruct (collect _) as [rs|e]; [|reflexivity].
  rewrite bind_run.
  destruct (when (normalMode t) _ rt1 _) as [[rt2 w2] [[]|e]]; reflexivity.
Qed.

(** X11. An internal transition neither exits nor enters a state: the engine
    is as it was, timers, cancelers and submachines included. It calls the
    global transition hooks and then, unless one of them fails, its own
    actions, and nothing else. *)
Theorem executeTransition_internal c t context rt w :
  isInternal t = true ->
  ignore t = false ->
  let args := TransitionArgs (currentState rt) (nextStateOf t rt) context in
  let hooks := transitionHooks (global c) in
  executeTransition c t context rt w =
  match collect (map (fun h => hcall h args) hooks) with
  | Throws e => (rt, logged w (calls hooks args), Throws e)
  | Returns _ =>
      (rt, logged w (calls hooks args ++ calls (actions t) args),
       match collect (map (fun h => hcall h args) (actions t)) with
       | Returns rs => Returns (transitionResult rs)
       | Throws e => Throws e
       end)
  end.
Proof.
  intros Hinternal Hignore. cbv zeta.
  rewrite (executeTransition_middle c t context rt w Hignore). cbv zeta.
  unfold normalMode. rewrite Hinternal. simpl.
  destruct (collect _); [|reflexivity].
  destruct (collect _); reflexivity.
Qed.

Lemma executeTransition_internal_witness :
  executeTransition outerConfig internal (contextFactory (runtimeOf outerStarted))
    (runtimeOf outerStarted) (worldOf outerStarted) =
  (runtimeOf outerStarted,
   logged (worldOf outerStarted)
     [Called "tick" (TransitionArgs (Active "a") (Active "a")
                       (contextFactory (runtimeOf outerStarted)))],
   Returns (VNum 1)).
Proof.
  exact (executeTransition_internal outerConfig internal
           (contextFactory (runtimeOf outerStarted))
           (runtimeOf outerStarted) (worldOf outerStarted) eq_refl eq_refl).
Defined.

(** X12. A normal transition that returns has entered its target:
    [currentState] is the value of [targetState] whenever that is not [null],
    also when it is [undefined] (a transition that has no such property), and
    the state before when it is [null]. *)
Theorem executeTransition_enters c t context rt w rt' w' v :
  normalMode t = true ->
  executeTransition c t context rt w = (rt', w', Returns v) ->
  currentState rt' = nextStateOf t rt /\
  (forall s, targetState t = Some s -> currentState rt' = Active s) /\
  (targetState t = None -> currentState rt' = currentState rt).
Proof.
  intros Hnormal Hrun.
  assert (Hcur : currentState rt' = nextStateOf t rt).
  { assert (Hignore : ignore t = false).
    { unfold normalMode in Hnormal. apply andb_prop in Hnormal as [_ H].
      apply negb_true_iff in H. exact H. }
    rewrite (executeTransition_middle c t context rt w Hignore) in Hrun.
    cbv zeta in Hrun. rewrite Hnormal in Hrun. simpl when in Hrun.
    destruct (exitState c context rt w) as [[rt1 w1] [[]|e]]; [|discriminate].
    destruct (collect _) as [hs|e]; [|discriminate].
    destruct (collect _) as [rs|e]; [|discriminate].
    match type of Hrun with
    | context [enterState c ?s ?k ?r ?x] =>
        pose proof (enterState_currentState c s k r x) as He;
        destruct (enterState c s k r x) as [[rt2 w2] [[]|e]]
    end; [|discriminate].
    injection Hrun as <- <- <-. exact He. }
  split; [exact Hcur|]. split.
  - intros s Hs. rewrite Hcur. unfold nextStateOf. rewrite Hs. reflexivity.
  - intros Hnull. rewrite Hcur. unfold nextStateOf. rewrite Hnull. reflexivity.
Qed.

Lemma executeTransition_enters_witness :
  let entered c t ev :=
    currentState
      (runtimeOf (executeTransition c t
                    (createContextWithEvent (runtimeOf (started c)) ev VUndefined)
                    (runtimeOf (started c)) (worldOf (started c)))) in
  entered goConfig go "go" = Active "running" /\
  entered untargetedConfig untargeted "go" = Active undefinedState /\
  entered outerConfig again "again" = Active "a".
Proof.
  cbv zeta.
  assert (Hrun : forall c t ev v,
            outcomeOf (executeTransition c t
              (createContextWithEvent (runtimeOf (started c)) ev VUndefined)
              (runtimeOf (started c)) (worldOf (started c))) = Returns v ->
            executeTransition c t
              (createContextWithEvent (runtimeOf (started c)) ev VUndefined)
              (runtimeOf (started c)) (worldOf (started c)) =
            (runtimeOf (executeTransition c t
               (createContextWithEvent (runtimeOf (started c)) ev VUndefined)
               (runtimeOf (started c)) (worldOf (started c))),
             worldOf (executeTransition c t
               (createContextWithEvent (runtimeOf (started c)) ev VUndefined)
               (runtimeOf (started c)) (worldOf (started c))),
             Returns v)).
  { intros c t ev v. destruct (executeTransition _ _ _ _ _) as [[rt' w'] o].
    unfold outcomeOf, runtimeOf, worldOf. simpl. intros ->. reflexivity. }
  split; [|split].
  - assert (Hout : outcomeOf (executeTransition goConfig go
              (createContextWithEvent (runtimeOf (started goConfig)) "go" VUndefined)
              (runtimeOf (started goConfig)) (worldOf (started goConfig)))
            = Returns VUndefined) by (vm_compute; reflexivity).
    exact (proj1 (proj2 (executeTransition_enters goConfig go _ _ _ _ _ _ eq_refl
                           (Hrun goConfig go "go" VUndefined Hout)))
             (State "running") eq_refl).
  - assert (Hout : outcomeOf (executeTransition untargetedConfig untargeted
              (createContextWithEvent (runtimeOf (started untargetedConfig))
                 "go" VUndefined)
              (runtimeOf (started untargetedConfig))
              (worldOf (started untargetedConfig)))
            = Returns VUndefined) by (vm_compute; reflexivity).
    exact (proj1 (proj2 (executeTransition_enters untargetedConfig untargeted
                           _ _ _ _ _ _ eq_refl
                           (Hrun untargetedConfig untargeted "go" VUndefined Hout)))
             undefinedState eq_refl).
  - assert (Hout : outcomeOf (executeTransition outerConfig again
              (createContextWithEvent (runtimeOf (started outerConfig))
                 "again" VUndefined)
              (runtimeOf (started outerConfig)) (worldOf (started outerConfig)))
            = Returns (VNum 1)) by (vm_compute; reflexivity).
    rewrite (proj2 (proj2 (executeTransition_enters outerConfig again
                             _ _ _ _ _ _ eq_refl
                             (Hrun outerConfig again "again" (VNum 1) Hout)))
               eq_refl).
    vm_compute. reflexivity.
Defined.



Lemma bind_inv_returns {A B} (m : M A) (k : A -> M B) rt w rt' w' b :
  bind m k rt w = (rt', w', Returns b) ->
  exists rt1 w1 a, m rt w = (rt1, w1, Returns a) /\ k a rt1 w1 = (rt', w', Returns b).
Proof.
  unfold bind. destruct (m rt w) as [[rt1 w1] [a|e]]; [|discriminate].
  intros H. exists rt1, w1, a. split; [reflexivity | exact H].
Qed.

Lemma setTimeouts_run ts rt w :
  setTimeouts ts rt w =
  (rt,
   mkWorld (trace w ++ timerSets (fresh w) ts) (fresh w + length ts)%nat
     (scheduler w),
   Returns (seq (fresh w) (length ts))).
Proof.
  revert w. induction ts as [|t ts IH]; intros w; simpl.
  - unfold ret. rewrite app_nil_r, Nat.add_0_r. destruct w; reflexivity.
  - unfold bind at 1 2, newId, emit. simpl. rewrite bind_run, IH. simpl.
    rewrite <- app_assoc, Nat.add_succ_r. reflexivity.
Qed.

Lemma startTimers_run c state stateConfig rt w :
  stateConfigOf c state = Some stateConfig ->
  timers stateConfig <> [] ->
  startTimers c state rt w =
  (set_timerIDs (Some (seq (fresh w) (length (timers stateConfig)))) rt,
   mkWorld (trace w ++ timerSets (fresh w) (timers stateConfig))
     (fresh w + length (timers stateConfig))%nat (scheduler w),
   Returns tt).
Proof.
  intros Hsc Hne. unfold startTimers. rewrite Hsc.
  destruct (timers stateConfig) as [|t ts] eqn:Hts; [contradiction|].
  change (0 <? length (t :: ts))%nat with true. cbv iota.
  rewrite bind_run, setTimeouts_run. reflexivity.
Qed.

(** X14. The timers of a state and the identifiers the engine holds. For a
    state with timers, [startTimers] sets one timer per timer configuration,
    in their order and with their durations, and holds exactly the
    identifiers of these timers, which are new and distinct; [stopTimers]
    right after clears exactly these and holds none. *)
Theorem startTimers_then_stopTimers c state stateConfig rt w :
  stateConfigOf c state = Some stateConfig ->
  timers stateConfig <> [] ->
  let ids := seq (fresh w) (length (timers stateConfig)) in
  startTimers c state rt w =
    (set_timerIDs (Some ids) rt,
     mkWorld (trace w ++ timerSets (fresh w) (timers stateConfig))
       (fresh w + length (timers stateConfig))%nat (scheduler w),
     Returns tt) /\
  (startTimers c state >> stopTimers) rt w =
    (set_timerIDs None rt,
     mkWorld (trace w ++ timerSets (fresh w) (timers stateConfig)
                      ++ map TimerCleared ids)
       (fresh w + length (timers stateConfig))%nat (scheduler w),
     Returns tt).
Proof.
  intros Hsc Hne. cbv zeta.
  split; [apply startTimers_run; assumption|].
  rewrite bind_run, (startTimers_run c state stateConfig rt w Hsc Hne).
  unfold stopTimers, bind, this, emit, update. simpl.
  rewrite <- app_assoc. reflexivity.
Qed.

Lemma startTimers_then_stopTimers_witness :
  (startTimers hookedConfig (Active "a") >> stopTimers) (newRuntime 0) newWorld =
  (newRuntime 0,
   mkWorld [TimerSet 1 100; TimerSet 2 200; TimerCleared 1; TimerCleared 2] 3 [],
   Returns tt).
Proof.
  assert (Ha : stateConfigOf hookedConfig (Active "a") = Some hookedA)
    by (vm_compute; reflexivity).
  exact (proj2 (startTimers_then_stopTimers hookedConfig (Active "a") hookedA
                  (newRuntime 0) newWorld Ha ltac:(discriminate))).
Defined.

(** The hooks and actions of an entry, in full. *)
Lemma enterState_hooks_run c state context rt w :
  let args := StateArgs state context in
  let change := TransitionArgs (currentState rt) state context in
  let enter := stateEnterHooks (global c) in
  let entry := entryActionsOf c state in
  enterState_hooks c state context rt w =
  match collect (map (fun h => hcall h args) enter) with
  | Throws e => (rt, logged w (calls enter args), Throws e)
  | Returns _ =>
      match collect (map (fun h => hcall h args) entry) with
      | Throws e => (rt, logged w (calls enter args ++ calls entry args), Throws e)
      | Returns _ =>
          if stateChanges rt state
          then (rt,
                logged w (calls enter args ++ calls entry args
                          ++ calls (stateChangeHooks (global c)) change),
                match collect (map (fun h => hcall h change)
                                 (stateChangeHooks (global c))) with
                | Throws e => Throws e
                | Returns _ => Returns tt
                end)
          else (rt, logged w (calls enter args ++ calls entry args), Returns tt)
      end
  end.
Proof.
  cbv zeta. unfold enterState_hooks, entryActionsOf, stateChanges.
  rewrite bind_run, invokeEach_run.
  destruct (collect _) as [rs|e]; [|reflexivity].
  rewrite bind_run.
  destruct (stateConfigOf c state) as [sc|].
  - rewrite bind_run, invokeEach_run.
    destruct (collect _) as [rs'|e];
      [|unfold logged, calls; simpl; rewrite <- ?app_assoc; reflexivity].
    unfold ret at 1. rewrite bind_this.
    destruct (_ && _); simpl when.
    + rewrite bind_run, invokeEach_run. unfold logged, calls. simpl.
      rewrite <- ?app_assoc.
      destruct (collect _); reflexivity.
    + unfold ret, logged, calls. simpl. rewrite <- ?app_assoc. reflexivity.
  - unfold ret at 1. rewrite bind_this. simpl collect. cbv iota.
    destruct (_ && _); simpl when.
    + rewrite bind_run, invokeEach_run. unfold logged, calls. simpl.
      rewrite ?app_nil_r, <- ?app_assoc.
      destruct (collect _); reflexivity.
    + unfold ret, logged, calls. simpl. rewrite ?app_nil_r. reflexivity.
Qed.

(** X15. The global state-change hooks run only for a change of state.
    When the global enter hooks and the entry actions of the state return,
    [enterState] has called them in this order, and after them the
    state-change hooks, with the state before and the state entered, exactly
    when the engine is started and in another state: not when it is stopped
    (as in [start]), not when it enters the state it is in. None of these
    calls changes the engine. *)
Theorem enterState_stateChangeHooks c state context rt w :
  let args := StateArgs state context in
  let enter := stateEnterHooks (global c) in
  let entry := entryActionsOf c state in
  existsb (throwsAt args) (enter ++ entry) = false ->
  let r := enterState_hooks c state context rt w in
  runtimeOf r = rt /\
  worldOf r =
    logged w (calls enter args ++ calls entry args
              ++ if stateChanges rt state
                 then calls (stateChangeHooks (global c))
                        (TransitionArgs (currentState rt) state context)
                 else []) /\
  (stateChanges rt state = false -> outcomeOf r = Returns tt) /\
  (currentState rt = stopped \/ currentState rt = state ->
   stateChanges rt state = false).
Proof.
  cbv zeta. intros Hreturn. rewrite existsb_app in Hreturn.
  apply orb_false_elim in Hreturn as [Henter Hentry].
  destruct (collect_returns _ _ Henter) as [rs1 H1].
  destruct (collect_returns _ _ Hentry) as [rs2 H2].
  rewrite enterState_hooks_run. cbv zeta. rewrite H1, H2.
  split; [destruct (stateChanges rt state); reflexivity|].
  split; [|split].
  - destruct (stateChanges rt state); [reflexivity|].
    unfold worldOf. simpl. rewrite app_nil_r. reflexivity.
  - intros ->. reflexivity.
  - unfold stateChanges. intros [H|H].
    + rewrite (bool_decide_eq_false_2 (currentState rt <> stopped)); [reflexivity|].
      intros Hne. contradiction.
    + rewrite (bool_decide_eq_false_2 (currentState rt <> state));
        [apply andb_false_r|].
      intros Hne. contradiction.
Qed.

Lemma enterState_stateChangeHooks_witness :
  worldOf (enterState_hooks hookedConfig (Active "b") (contextFactory (newRuntime 0))
             (runtimeOf (started hookedConfig)) newWorld) =
  logged newWorld
    [Called "onEnter" (StateArgs (Active "b") (contextFactory (newRuntime 0)));
     Called "enterB" (StateArgs (Active "b") (contextFactory (newRuntime 0)));
     Called "onChange" (TransitionArgs (Active "a") (Active "b")
                          (contextFactory (newRuntime 0)))] /\
  worldOf (enterState_hooks hookedConfig (Active "a") (contextFactory (newRuntime 0))
             (newRuntime 0) newWorld) =
  logged newWorld
    [Called "onEnter" (StateArgs (Active "a") (contextFactory (newRuntime 0)));
     Called "enterA" (StateArgs (Active "a") (contextFactory (newRuntime 0)))].
Proof.
  split.
  - exact (proj1 (proj2 (enterState_stateChangeHooks hookedConfig (Active "b")
                           (contextFactory (newRuntime 0))
                           (runtimeOf (started hookedConfig)) newWorld eq_refl))).
  - exact (proj1 (proj2 (enterState_stateChangeHooks hookedConfig (Active "a")
                           (contextFactory (newRuntime 0))
                           (newRuntime 0) newWorld eq_refl))).
Defined.

Lemma start_returns_started c rt w rt' w' :
  start c rt w = (rt', w', Returns tt) -> isStarted rt' = true.
Proof.
  rewrite start_run. destruct (isStarted rt) eqn:Hstarted; simpl negb; cbv iota.
  - intros [= <- <-]. exact Hstarted.
  - intros H. pose proof (enterState_currentState c (Active (initialState c))
                            (createContext rt) rt w) as Hcur.
    rewrite H in Hcur. unfold runtimeOf, outcomeOf in Hcur. simpl in Hcur.
    apply isStarted_true. rewrite Hcur. discriminate.
Qed.

Lemma stop_returns_stopped c rt w rt' w' :
  stop c rt w = (rt', w', Returns tt) -> currentState rt' = stopped.
Proof.
  rewrite stop_run. destruct (isStarted rt) eqn:Hstarted.
  - destruct (exitState c (createContext rt) rt w) as [[rt1 w1] [[]|e]];
      [|discriminate].
    intros [= <- <-]. reflexivity.
  - intros [= <- <-]. apply isStarted_false, Hstarted.
Qed.

Lemma enterState_hooks_runtime c state context rt w :
  runtimeOf (enterState_hooks c state context rt w) = rt.
Proof.
  rewrite enterState_hooks_run. cbv zeta.
  destruct (collect _); [|reflexivity].
  destruct (collect _); [|reflexivity].
  destruct (stateChanges rt state); reflexivity.
Qed.

Lemma startAsyncActions_same {X} (f : Runtime -> X) c state context :
  (forall rt a, f (set_asyncActionCancelers a rt) = f rt) ->
  respects (same f) (startAsyncActions c state context).
Proof. intros Hf. apply respects_startAsyncActions; [apply _ | exact Hf]. Qed.

Lemma startAsyncActions_fields c state context rt w :
  exists rt' w',
    startAsyncActions c state context rt w = (rt', w', Returns tt) /\
    currentState rt' = currentState rt /\
    timerIDs rt' = timerIDs rt /\
    submachines rt' = submachines rt.
Proof.
  destruct (startAsyncActions_run c state context rt w) as (rt' & w' & Hrun & _).
  exists rt', w'. split; [exact Hrun|].
  pose proof (startAsyncActions_same currentState c state context
                ltac:(reflexivity) rt w) as H1.
  pose proof (startAsyncActions_same timerIDs c state context
                ltac:(reflexivity) rt w) as H2.
  pose proof (startAsyncActions_same submachines c state context
                ltac:(reflexivity) rt w) as H3.
  rewrite Hrun in H1, H2, H3. repeat split; assumption.
Qed.

Lemma startTimers_returns c state rt w :
  exists rt' w',
    startTimers c state rt w = (rt', w', Returns tt) /\
    currentState rt' = currentState rt /\
    submachines rt' = submachines rt /\
    asyncActionCancelers rt' = asyncActionCancelers rt /\
    timerIDs rt' =
      match stateConfigOf c state with
      | Some stateConfig =>
          if (0 <? length (timers stateConfig))%nat
          then Some (seq (fresh w) (length (timers stateConfig)))
          else timerIDs rt
      | None => timerIDs rt
      end.
Proof.
  unfold startTimers. destruct (stateConfigOf c state) as [sc|].
  - destruct (0 <? length (timers sc))%nat.
    + rewrite bind_run, setTimeouts_run. eexists _, _. repeat split.
    + exists rt, w. repeat split.
  - exists rt, w. repeat split.
Qed.

(** [startSubmachines] for a state whose submachine is a configuration: the
    start of the stored child, constructed first when there is none. *)
Lemma startSubmachines_run c s stateConfig c' rt w :
  states c !! s = Some stateConfig ->
  submachine stateConfig = ArgConfig c' ->
  exists rt0 w0 child0,
    submachines rt0 !! s = Some child0 /\
    startSubmachines c (Active s) rt w = onChild s (start c') rt0 w0.
Proof.
  intros Hs Hsub. unfold startSubmachines, startSubmachines_body.
  rewrite Hs, Hsub. change (argTruthy (ArgConfig c')) with true. cbv iota.
  rewrite bind_this, (childOp_start c s stateConfig c' Hs Hsub).
  destruct (submachines rt !! s) as [child|] eqn:Hchild.
  - exists rt, w, child. split; [exact Hchild | reflexivity].
  - exists (set_submachines (<[s := newRuntime (fresh w)]> (submachines rt)) rt),
      (mkWorld (trace w ++ [Constructed (fresh w)]) (S (fresh w)) (scheduler w)),
      (newRuntime (fresh w)).
    split; [apply lookup_insert_eq | reflexivity].
Qed.

Lemma startSubmachines_returns c s stateConfig c' rt w rt' w' :
  states c !! s = Some stateConfig ->
  submachine stateConfig = ArgConfig c' ->
  startSubmachines c (Active s) rt w = (rt', w', Returns tt) ->
  exists child, submachines rt' !! s = Some child /\ isStarted child = true.
Proof.
  intros Hs Hsub.
  destruct (startSubmachines_run c s stateConfig c' rt w Hs Hsub)
    as (rt0 & w0 & child0 & Hchild & ->).
  unfold onChild. rewrite Hchild.
  destruct (start c' child0 w0) as [[child' w''] o] eqn:Hstart.
  intros [= <- <- ->]. exists child'. simpl. rewrite lookup_insert_eq.
  split; [reflexivity|]. eapply start_returns_started, Hstart.
Qed.

(** What it takes for [enterState] to return. *)
Lemma enterState_inv_returns c state context rt w rt' w' :
  enterState c state context rt w = (rt', w', Returns tt) ->
  exists w1 rt2 w2 rt3 w3 rt4,
    enterState_hooks c state context rt w = (rt, w1, Returns tt) /\
    startAsyncActions c state context rt w1 = (rt2, w2, Returns tt) /\
    startTimers c state rt2 w2 = (rt3, w3, Returns tt) /\
    startSubmachines c state rt3 w3 = (rt4, w', Returns tt) /\
    rt' = set_currentState state rt4.
Proof.
  rewrite enterState_run. intros H.
  destruct ((_ >> _) rt w) as [[rtA wA] [[]|e]] eqn:Hattempt; [|discriminate].
  injection H as <- <-.
  apply bind_inv_returns in Hattempt as (rt1 & w1 & [] & Hhooks & Htry).
  pose proof (enterState_hooks_runtime c state context rt w) as Hrt.
  rewrite Hhooks in Hrt. unfold runtimeOf in Hrt. simpl in Hrt. subst rt1.
  unfold try_catch in Htry.
  destruct (enterState_effects c (childOps start c) state context rt w1)
    as [[rtE wE] [[]|e]] eqn:Heffects;
    [|rewrite enterState_rollback_run in Htry; discriminate].
  injection Htry as <- <-.
  unfold enterState_effects in Heffects.
  apply bind_inv_returns in Heffects as (rt2 & w2 & [] & Hasync & Hrest).
  apply bind_inv_returns in Hrest as (rt3 & w3 & [] & Htimers & Hsubs).
  exists w1, rt2, w2, rt3, w3, rtE. repeat split; assumption.
Qed.

Lemma startSubmachines_same_timerIDs c ops state :
  respects (same timerIDs) (startSubmachines_body c ops state).
Proof. apply (respects_startSubmachines_body _ anyChild); done. Qed.

(** X16. What a successful entry establishes. When [enterState] returns for
    a configured state, [currentState] is that state; the engine holds one
    timer identifier per timer of the state, all distinct, or the identifiers
    it held if the state has no timer; and if the state declares a
    configuration for a submachine, [getSubmachine] answers a child that is
    started. *)
Theorem enterState_returns c s stateConfig context rt w rt' w' :
  states c !! s = Some stateConfig ->
  enterState c (Active s) context rt w = (rt', w', Returns tt) ->
  currentState rt' = Active s /\
  (timers stateConfig <> [] ->
   exists n, timerIDs rt' = Some (seq n (length (timers stateConfig)))) /\
  (timers stateConfig = [] -> timerIDs rt' = timerIDs rt) /\
  (forall c',
     submachine stateConfig = ArgConfig c' ->
     exists child, getSubmachine rt' = Some child /\ isStarted child = true).
Proof.
  intros Hs Hrun.
  apply enterState_inv_returns in Hrun
    as (w1 & rt2 & w2 & rt3 & w3 & rt4 & _ & Hasync & Htimers & Hsubs & ->).
  destruct (startAsyncActions_fields c (Active s) context rt w1)
    as (rt2' & w2' & Hasync' & _ & Ht2 & _).
  rewrite Hasync in Hasync'. injection Hasync' as <- <-.
  destruct (startTimers_returns c (Active s) rt2 w2)
    as (rt3' & w3' & Htimers' & _ & _ & _ & Ht3).
  rewrite Htimers in Htimers'. injection Htimers' as <- <-.
  simpl stateConfigOf in Ht3. rewrite Hs in Ht3.
  pose proof (startSubmachines_same_timerIDs c (childOps start c) (Active s) rt3 w3)
    as Ht4.
  fold (startSubmachines c) in Ht4. rewrite Hsubs in Ht4.
  unfold runtimeOf, same in Ht4. simpl in Ht4.
  split; [reflexivity|]. split; [|split].
  - intros Hne. exists (fresh w2). simpl. rewrite Ht4, Ht3.
    destruct (timers stateConfig); [contradiction | reflexivity].
  - intros Hnil. simpl. rewrite Ht4, Ht3, Hnil. simpl. exact Ht2.
  - intros c' Hsub.
    destruct (startSubmachines_returns c s stateConfig c' rt3 w3 rt4 w' Hs Hsub Hsubs)
      as (child & Hchild & Hstarted).
    exists child. split; [|exact Hstarted].
    unfold getSubmachine, isStarted. simpl. exact Hchild.
Qed.

Lemma enterState_returns_witness :
  exists child,
    getSubmachine (runtimeOf outerStarted) = Some child /\ isStarted child = true.
Proof.
  assert (Hs : states outerConfig !! State "a" = Some outerState)
    by apply lookup_singleton_eq.
  assert (Hrun : enterState outerConfig (Active "a") (contextFactory (newRuntime 0))
                   (newRuntime 0) (mkWorld [] 1 [true; true]) =
                 (runtimeOf outerStarted, worldOf outerStarted, Returns tt)).
  { vm_compute. reflexivity. }
  destruct (enterState_returns outerConfig "a" outerState _ _ _ _ _ Hs Hrun)
    as (_ & _ & _ & Hchild).
  exact (Hchild innerConfig eq_refl).
Defined.

(** X17. A state whose submachine configuration the constructor rejects can
    never be entered. When the hooks and actions of the entry return and no
    child is stored for the state, [enterState] throws the
    [StateMachineConfigError] of the constructor; [currentState] is what it
    was, the engine holds no timer and no canceler, and still no child is
    stored, so that the next entry fails in the same way. *)
Theorem enterState_rejected_submachine c s stateConfig context rt w msg :
  states c !! s = Some stateConfig ->
  argTruthy (submachine stateConfig) = true ->
  rejection (submachine stateConfig) = Some msg ->
  submachines rt !! s = None ->
  outcomeOf (enterState_hooks c (Active s) context rt w) = Returns tt ->
  let r := enterState c (Active s) context rt w in
  outcomeOf r = Throws (StateMachineConfigError msg) /\
  currentState (runtimeOf r) = currentState rt /\
  idle (runtimeOf r) /\
  submachines (runtimeOf r) = submachines rt.
Proof.
  intros Hs Htruthy Hrejected Hnone Hhooks. cbv zeta.
  rewrite enterState_run, bind_run.
  pose proof (enterState_hooks_runtime c (Active s) context rt w) as Hrt.
  destruct (enterState_hooks c (Active s) context rt w) as [[rt1 w1] o].
  unfold runtimeOf, outcomeOf in Hrt, Hhooks. simpl in Hrt, Hhooks. subst rt1 o.
  unfold try_catch, enterState_effects.
  destruct (startAsyncActions_fields c (Active s) context rt w1)
    as (rt2 & w2 & Hasync & Hc2 & _ & Hs2).
  rewrite (bind_returns _ _ _ _ _ _ _ Hasync).
  destruct (startTimers_returns c (Active s) rt2 w2)
    as (rt3 & w3 & Htimers & Hc3 & Hs3 & _).
  rewrite (bind_returns _ _ _ _ _ _ _ Htimers).
  assert (Hsubs : startSubmachines_body c (childOps start c) (Active s) rt3 w3 =
                  (rt3, w3, Throws (StateMachineConfigError msg))).
  { unfold startSubmachines_body. rewrite Hs, Htruthy, bind_this.
    rewrite Hs3, Hs2, Hnone.
    destruct (submachine stateConfig); simpl in Hrejected;
      try discriminate; injection Hrejected as <-; reflexivity. }
  rewrite Hsubs, enterState_rollback_run.
  unfold runtimeOf, outcomeOf. simpl.
  split; [reflexivity|]. split; [congruence|]. split; [split; reflexivity|].
  congruence.
Qed.

Lemma enterState_rejected_submachine_witness :
  let r := start brokenConfig (newRuntime 0) newWorld in
  outcomeOf r = Throws (StateMachineConfigError "Configuration is malformed.") /\
  submachines (runtimeOf r) = ∅.
Proof.
  cbv zeta. rewrite start_run. change (negb (isStarted (newRuntime 0))) with true.
  cbv iota.
  destruct (enterState_rejected_submachine brokenConfig "a"
              (mkStateConfig [] [] ∅ None
                 [mkAsyncAction "load" (mkTrigger []) (mkTrigger [])]
                 [mkTimer 5 (mkTrigger [])] ArgMalformed)
              (createContext (newRuntime 0)) (newRuntime 0) newWorld
              "Configuration is malformed."
              (lookup_singleton_eq _ _) eq_refl eq_refl eq_refl eq_refl)
    as (Ho & _ & _ & Hsubs).
  split; [exact Ho | exact Hsubs].
Defined.

Lemma childOp_stop c s stateConfig c' :
  states c !! s = Some stateConfig -> submachine stateConfig = ArgConfig c' ->
  childOp (childOps stop c) s = stop c'.
Proof.
  intros Hs Hsub. unfold childOp, childOps.
  rewrite lookup_fmap, Hs. simpl. rewrite Hsub. reflexivity.
Qed.

Lemma exitState_inv_returns c context rt w rt' w' :
  exitState c context rt w = (rt', w', Returns tt) ->
  exists rt1 w1,
    stopSubmachines c rt w = (rt1, w1, Returns tt) /\
    submachines rt' = submachines rt1.
Proof.
  intros H.
  destruct (stopSubmachines c rt w) as [[rt1 w1] [[]|e]] eqn:Hsub.
  - exists rt1, w1. split; [reflexivity|].
    rewrite (exitState_run c context rt w rt1 w1 Hsub) in H. cbv zeta in H.
    destruct (collect _); [|discriminate].
    destruct (stateConfigOf c (currentState rt)); injection H as <- _; reflexivity.
  - unfold exitState, exitState_body in H. fold (stopSubmachines c) in H.
    rewrite (bind_throws _ _ _ _ _ _ _ Hsub) in H. discriminate.
Qed.

(** X18. Leaving a state stops its submachine. When [exitState] returns in a
    state whose child is stored, the child is still stored, is the same
    object, and is stopped; the same holds when [stop] returns. *)
Theorem exitState_stops_submachine c s stateConfig c' rt w child :
  currentState rt = Active s ->
  states c !! s = Some stateConfig ->
  submachine stateConfig = ArgConfig c' ->
  submachines rt !! s = Some child ->
  (forall context rt' w',
     exitState c context rt w = (rt', w', Returns tt) ->
     exists child',
       submachines rt' !! s = Some child' /\ oid child' = oid child /\
       currentState child' = stopped) /\
  (forall rt' w',
     stop c rt w = (rt', w', Returns tt) ->
     exists child',
       submachines rt' !! s = Some child' /\ oid child' = oid child /\
       currentState child' = stopped).
Proof.
  intros Hcur Hs Hsub Hchild.
  assert (Hexit : forall context rt' w',
     exitState c context rt w = (rt', w', Returns tt) ->
     exists child',
       submachines rt' !! s = Some child' /\ oid child' = oid child /\
       currentState child' = stopped).
  { intros context rt' w' H.
    apply exitState_inv_returns in H as (rt1 & w1 & Hstop & ->).
    unfold stopSubmachines, stopSubmachines_body in Hstop.
    rewrite bind_this, Hcur, (childOp_stop c s stateConfig c' Hs Hsub) in Hstop.
    unfold onChild in Hstop. rewrite Hchild in Hstop.
    pose proof (stop_same_oid c' child w) as Hoid.
    destruct (stop c' child w) as [[child' w''] o] eqn:Hrun.
    injection Hstop as <- <- ->. exists child'. simpl.
    rewrite lookup_insert_eq. split; [reflexivity|]. split; [exact Hoid|].
    eapply stop_returns_stopped, Hrun. }
  split; [exact Hexit|].
  intros rt' w'. rewrite stop_run.
  replace (isStarted rt) with true
    by (symmetry; apply isStarted_true; rewrite Hcur; discriminate).
  destruct (exitState c (createContext rt) rt w) as [[rt1 w1] [[]|e]] eqn:Hrun;
    [|discriminate].
  intros [= <- <-]. simpl. eapply Hexit, Hrun.
Qed.

Lemma exitState_stops_submachine_witness :
  exists child',
    submachines (runtimeOf (stop outerConfig (runtimeOf outerStarted)
                              (worldOf outerStarted))) !! State "a" = Some child' /\
    oid child' = 3%nat /\ currentState child' = stopped.
Proof.
  assert (Hs : states outerConfig !! State "a" = Some outerState)
    by apply lookup_singleton_eq.
  assert (Hchild : exists child,
             submachines (runtimeOf outerStarted) !! State "a" = Some child /\
             oid child = 3%nat).
  { eexists. split; [vm_compute; reflexivity | reflexivity]. }
  destruct Hchild as (child & Hchild & Hoid). rewrite <- Hoid.
  assert (Hstop : stop outerConfig (runtimeOf outerStarted) (worldOf outerStarted) =
                  (runtimeOf (stop outerConfig (runtimeOf outerStarted)
                                (worldOf outerStarted)),
                   worldOf (stop outerConfig (runtimeOf outerStarted)
                              (worldOf outerStarted)),
                   Returns tt)).
  { vm_compute. reflexivity. }
  destruct (exitState_stops_submachine outerConfig "a" outerState innerConfig
              (runtimeOf outerStarted) (worldOf outerStarted) child
              eq_refl Hs eq_refl Hchild) as [_ Hstopped].
  exact (Hstopped _ _ Hstop).
Defined.

(** [enterState] throws either in its hooks and actions, before anything has
    changed, or after the rollback. *)
Lemma enterState_throws c state context rt w e :
  outcomeOf (enterState c state context rt w) = Throws e ->
  runtimeOf (enterState c state context rt w) = rt \/
  idle (runtimeOf (enterState c state context rt w)).
Proof.
  rewrite enterState_run, bind_run.
  pose proof (enterState_hooks_runtime c state context rt w) as Hrt.
  destruct (enterState_hooks c state context rt w) as [[rt1 w1] [[]|e1]];
    unfold runtimeOf in Hrt; simpl in Hrt; subst rt1.
  - unfold try_catch.
    destruct (enterState_effects c (childOps start c) state context rt w1)
      as [[rtE wE] [[]|e2]]; [discriminate|].
    rewrite enterState_rollback_run. intros _. right. split; reflexivity.
  - intros _. left. reflexivity.
Qed.

(** Entering [stopped] (a transition with the target [null] on a stopped
    engine) starts nothing. *)
Lemma enterState_stopped_returns c context rt w rt' w' :
  enterState c stopped context rt w = (rt', w', Returns tt) ->
  rt' = set_currentState stopped rt.
Proof.
  intros H. apply enterState_inv_returns in H
    as (w1 & rt2 & w2 & rt3 & w3 & rt4 & _ & Hasync & Htimers & Hsubs & ->).
  injection Hasync as <- <-. injection Htimers as <- <-.
  injection Hsubs as <- _. reflexivity.
Qed.

Lemma enterState_stoppedIdle c state context rt w :
  idle rt \/ (stoppedIdle rt /\ state <> stopped) ->
  stoppedIdle (runtimeOf (enterState c state context rt w)).
Proof.
  intros Hrt.
  destruct (enterState c state context rt w) as [[rt' w'] [[]|e]] eqn:Hrun.
  - destruct state as [|s].
    + apply enterState_stopped_returns in Hrun as ->.
      destruct Hrt as [Hidle|[_ Hne]]; [|contradiction].
      intros _. exact Hidle.
    + pose proof (enterState_currentState c (Active s) context rt w) as Hcur.
      rewrite Hrun in Hcur. unfold runtimeOf, outcomeOf in *. simpl in *.
      intros Hstopped. congruence.
  - pose proof (enterState_throws c state context rt w e) as Hcases.
    pose proof (enterState_currentState c state context rt w) as Hcur.
    rewrite Hrun in Hcases, Hcur. unfold runtimeOf, outcomeOf in *. simpl in *.
    destruct (Hcases eq_refl) as [->|Hidle]; [|intros _; exact Hidle].
    destruct Hrt as [Hidle|[Hinv _]]; [intros _; exact Hidle | exact Hinv].
Qed.

Lemma exitState_stoppedIdle c context rt w :
  stoppedIdle rt -> stoppedIdle (runtimeOf (exitState c context rt w)).
Proof.
  intros Hinv. destruct (exitState_cases c context rt w) as [Hcur Hcases].
  destruct Hcases as [(e & _ & Ht & Hc)|Hidle]; [|intros _; exact Hidle].
  intros Hstopped. rewrite Hcur in Hstopped. destruct (Hinv Hstopped) as [H1 H2].
  split; congruence.
Qed.

Lemma executeTransition_stoppedIdle c t context rt w :
  stoppedIdle rt -> stoppedIdle (runtimeOf (executeTransition c t context rt w)).
Proof.
  intros Hinv. destruct (ignore t) eqn:Hignore.
  - rewrite (executeTransition_ignore_run c t context rt w Hignore). exact Hinv.
  - rewrite (executeTransition_middle c t context rt w Hignore). cbv zeta.
    destruct (normalMode t) eqn:Hnormal; simpl when.
    + destruct (exitState c context rt w) as [[rt1 w1] [[]|e]] eqn:Hexit.
      * apply exitState_returns in Hexit as [_ Hidle].
        destruct (collect _); [|intros _; exact Hidle].
        destruct (collect _); [|intros _; exact Hidle].
        match goal with
        | |- context [enterState c ?s ?k ?r ?x] =>
            pose proof (enterState_stoppedIdle c s k r x (or_introl Hidle)) as He;
            destruct (enterState c s k r x) as [[rt2 w2] [[]|e]]
        end; exact He.
      * pose proof (exitState_stoppedIdle c context rt w Hinv) as H.
        rewrite Hexit in H. exact H.
    + unfold ret. destruct (collect _); [|exact Hinv].
      destruct (collect _); exact Hinv.
Qed.

Lemma canHandle_runtime c ev payload rt w :
  runtimeOf (canHandle c ev payload rt w) = rt.
Proof.
  unfold canHandle. rewrite bind_this.
  destruct (negb (isStarted rt)); [reflexivity|].
  rewrite bind_run.
  pose proof (getFirstAllowedTransitionForEvent_runtime c
                (createContextWithEvent rt ev payload) rt w) as Hrt.
  destruct (getFirstAllowedTransitionForEvent c _ rt w) as [[rt1 w1] [found|e]];
    exact Hrt.
Qed.

Lemma handle_stoppedIdle c ev payload rt w :
  stoppedIdle rt -> stoppedIdle (runtimeOf (handle c ev payload rt w)).
Proof.
  intros Hinv. unfold handle. rewrite bind_this.
  destruct (negb (isStarted rt)); [exact Hinv|].
  rewrite bind_run.
  pose proof (getFirstAllowedTransitionForEvent_runtime c
                (createContextWithEvent rt ev payload) rt w) as Hrt.
  destruct (getFirstAllowedTransitionForEvent c _ rt w) as [[rt1 w1] [[t|]|e]];
    unfold runtimeOf in Hrt; simpl in Hrt; subst rt1.
  - apply executeTransition_stoppedIdle, Hinv.
  - rewrite handleUnhandledEvent_runtime. exact Hinv.
  - exact Hinv.
Qed.

Lemma executeTrigger_stoppedIdle c triggerConfig context rt w :
  stoppedIdle rt ->
  stoppedIdle (runtimeOf (executeTrigger c triggerConfig context rt w)).
Proof.
  intros Hinv. unfold executeTrigger. rewrite bind_run.
  pose proof (getFirstAllowedTransition_runtime (transitions triggerConfig)
                context rt w) as Hrt.
  destruct (getFirstAllowedTransition _ context rt w) as [[rt1 w1] [[t|]|e]];
    unfold runtimeOf in Hrt; simpl in Hrt; subst rt1.
  - apply executeTransition_stoppedIdle, Hinv.
  - exact Hinv.
  - exact Hinv.
Qed.

(** The callback of a timer and the completion of an async action leave the
    engine as their trigger leaves it. *)
Lemma handleTimeout_runtime c timerConfig rt w :
  runtimeOf (handleTimeout c timerConfig rt w)
  = runtimeOf (executeTrigger c (timerTrigger timerConfig) (createContext rt) rt w).
Proof.
  unfold handleTimeout. rewrite bind_this. unfold try_catch. rewrite bind_run.
  destruct (executeTrigger c _ _ rt w) as [[rt1 w1] [v|e]]; reflexivity.
Qed.

Lemma handleAsyncActionComplete_runtime c triggerConfig result error rt w :
  runtimeOf (handleAsyncActionComplete c triggerConfig result error rt w)
  = runtimeOf (executeTrigger c triggerConfig
                 (mkContext (stateMachine (createContext rt)) None None result error)
                 rt w).
Proof.
  unfold handleAsyncActionComplete. rewrite bind_this, bind_run.
  destruct (executeTrigger c _ _ rt w) as [[rt1 w1] [v|e]]; reflexivity.
Qed.

(** X19. "An engine that is stopped holds no timer and no canceler" holds of
    a new engine, and every method preserves it, however it ends: [start],
    [stop], [canHandle], [handle], a transition, the unit of work of a
    trigger, the callback of a timer and the completion of an async action.
    It is no invariant of the engine all the same: the unit of work that
    [startAsyncAction] hands to the scheduler registers its canceler without
    a look at [currentState] (lines 231-234); run on a stopped engine, as
    happens when the unit was queued and the engine stopped before the
    scheduler ran it, it leaves the engine stopped and holding that
    canceler. *)
Theorem stoppedIdle_methods c rt w :
  (forall id, stoppedIdle (newRuntime id)) /\
  (stoppedIdle rt ->
   stoppedIdle (runtimeOf (start c rt w)) /\
   stoppedIdle (runtimeOf (stop c rt w)) /\
   (forall t context,
      stoppedIdle (runtimeOf (executeTransition c t context rt w))) /\
   (forall ev payload, stoppedIdle (runtimeOf (canHandle c ev payload rt w))) /\
   (forall ev payload, stoppedIdle (runtimeOf (handle c ev payload rt w))) /\
   (forall triggerConfig context,
      stoppedIdle (runtimeOf (executeTrigger c triggerConfig context rt w))) /\
   (forall timerConfig,
      stoppedIdle (runtimeOf (handleTimeout c timerConfig rt w))) /\
   (forall triggerConfig result error,
      stoppedIdle
        (runtimeOf (handleAsyncActionComplete c triggerConfig result error rt w)))) /\
  (currentState rt = stopped ->
   forall a state context,
     let rt' := runtimeOf (asyncActionUnit a state context rt w) in
     currentState rt' = stopped /\
     asyncActionCancelers rt'
       = Some (default [] (asyncActionCancelers rt) ++ [fresh w]) /\
     ~ stoppedIdle rt').
Proof.
  split; [intros id _; split; reflexivity|]. split.
  - intros Hinv. split; [|split; [|split; [|split; [|split; [|split; [|split]]]]]].
    + rewrite start_run.
      destruct (isStarted rt) eqn:Hstarted; simpl negb; cbv iota; [exact Hinv|].
      apply enterState_stoppedIdle. right. split; [exact Hinv | discriminate].
    + rewrite stop_run. destruct (isStarted rt); [|exact Hinv].
      pose proof (exitState_stoppedIdle c (createContext rt) rt w Hinv) as H.
      destruct (exitState c (createContext rt) rt w) as [[rt1 w1] [[]|e]] eqn:Hexit;
        [|exact H].
      apply exitState_returns in Hexit as [_ Hidle]. intros _. exact Hidle.
    + intros t context. apply executeTransition_stoppedIdle, Hinv.
    + intros ev payload. rewrite canHandle_runtime. exact Hinv.
    + intros ev payload. apply handle_stoppedIdle, Hinv.
    + intros triggerConfig context. apply executeTrigger_stoppedIdle, Hinv.
    + intros timerConfig. rewrite handleTimeout_runtime.
      apply executeTrigger_stoppedIdle, Hinv.
    + intros triggerConfig result error.
      rewrite handleAsyncActionComplete_runtime.
      apply executeTrigger_stoppedIdle, Hinv.
  - intros Hstopped a state context. cbv zeta.
    unfold asyncActionUnit, bind, newId, emit, update, runtimeOf. simpl.
    split; [exact Hstopped|]. split; [reflexivity|].
    intros Hinv. destruct (Hinv Hstopped) as [_ Hnone]. simpl in Hnone.
    discriminate.
Qed.

Lemma stoppedIdle_methods_witness :
  let context := contextFactory (newRuntime 0) in
  let late := runtimeOf (asyncActionUnit loadAction (Active "a") context
                           (runtimeOf busyStopped) (worldOf busyStopped)) in
  stoppedIdle (runtimeOf (stop busyConfig (runtimeOf busyStarted)
                            (worldOf busyStarted))) /\
  In (Deferred "load" (Active "a") context) (trace (worldOf busyStopped)) /\
  currentState (runtimeOf busyStopped) = stopped /\
  stoppedIdle (runtimeOf busyStopped) /\
  currentState late = stopped /\
  asyncActionCancelers late = Some [2%nat] /\
  ~ stoppedIdle late.
Proof.
  cbv zeta.
  pose proof (stoppedIdle_methods busyConfig (runtimeOf busyStarted)
                (worldOf busyStarted)) as (_ & Hkept & _).
  pose proof (stoppedIdle_methods busyConfig (runtimeOf busyStopped)
                (worldOf busyStopped)) as (_ & _ & Hlate).
  destruct (Hlate eq_refl loadAction (Active "a") (contextFactory (newRuntime 0)))
    as (Hcur & Hcancelers & Hbroken).
  split.
  { apply Hkept. intros H. vm_compute in H. discriminate. }
  split; [vm_compute; left; reflexivity|].
  split; [reflexivity|].
  split; [intros _; split; reflexivity|].
  split; [exact Hcur|].
  split; [rewrite Hcancelers; reflexivity | exact Hbroken].
Defined.

(** X20. The order of a normal transition. Once the submachine of the
    current state is stopped, and when none of the calls fails, the
    transition clears the timers and calls the cancelers, calls the global
    exit hooks, the exit actions of the state, the global transition hooks and
    its own actions, in this order, and only then enters the target state,
    from an engine that holds no timer and no canceler; it returns the result
    of its actions if the entry returns. *)
Theorem executeTransition_order c t context rt w rt1 w1 :
  let exitArgs := StateArgs (currentState rt) context in
  let args := TransitionArgs (currentState rt) (nextStateOf t rt) context in
  normalMode t = true ->
  stopSubmachines c rt w = (rt1, w1, Returns tt) ->
  existsb (throwsAt exitArgs)
    (stateExitHooks (global c) ++ exitActionsOf c (currentState rt)) = false ->
  existsb (throwsAt args) (transitionHooks (global c) ++ actions t) = false ->
  exists rs,
    collect (map (fun h => hcall h args) (actions t)) = Returns rs /\
    executeTransition c t context rt w =
    match enterState c (nextStateOf t rt) context
            (set_asyncActionCancelers None (set_timerIDs None rt1))
            (logged w1
               (teardown rt
                ++ calls (stateExitHooks (global c)) exitArgs
                ++ calls (exitActionsOf c (currentState rt)) exitArgs
                ++ calls (transitionHooks (global c)) args
                ++ calls (actions t) args)) with
    | (rt2, w2, Returns _) => (rt2, w2, Returns (transitionResult rs))
    | (rt2, w2, Throws e) => (rt2, w2, Throws e)
    end.
Proof.
  cbv zeta. intros Hnormal Hsub Hexits Hmiddle.
  rewrite existsb_app in Hexits, Hmiddle.
  apply orb_false_elim in Hexits as [Hhooks Hactions].
  apply orb_false_elim in Hmiddle as [Hthooks Htactions].
  destruct (collect_returns _ _ Hhooks) as [r1 H1].
  destruct (collect_returns _ _ Hactions) as [r2 H2].
  destruct (collect_returns _ _ Hthooks) as [r3 H3].
  destruct (collect_returns _ _ Htactions) as [rs H4].
  exists rs. split; [exact H4|].
  assert (Hignore : ignore t = false).
  { unfold normalMode in Hnormal. apply andb_prop in Hnormal as [_ H].
    apply negb_true_iff in H. exact H. }
  rewrite (executeTransition_middle c t context rt w Hignore). cbv zeta.
  rewrite Hnormal. simpl when.
  rewrite (exitState_run c context rt w rt1 w1 Hsub). cbv zeta. rewrite H1.
  unfold exitActionsOf in *.
  destruct (stateConfigOf c (currentState rt)) as [sc|].
  - rewrite H2, H3, H4. rewrite !logged_logged, <- !app_assoc. reflexivity.
  - rewrite H3, H4. rewrite !logged_logged, <- !app_assoc. reflexivity.
Qed.

Lemma executeTransition_order_witness :
  trace (worldOf (executeTransition hookedConfig toB
                    (contextFactory (newRuntime 0))
                    (runtimeOf (started hookedConfig)) newWorld)) =
  [TimerCleared 1; TimerCleared 2;
   Called "onExit" (StateArgs (Active "a") (contextFactory (newRuntime 0)));
   Called "exitA" (StateArgs (Active "a") (contextFactory (newRuntime 0)));
   Called "onTransition" (TransitionArgs (Active "a") (Active "b")
                            (contextFactory (newRuntime 0)));
   Called "act" (TransitionArgs (Active "a") (Active "b")
                   (contextFactory (newRuntime 0)));
   Called "onEnter" (StateArgs (Active "b") (contextFactory (newRuntime 0)));
   Called "enterB" (StateArgs (Active "b") (contextFactory (newRuntime 0)));
   Called "onChange" (TransitionArgs (Active "a") (Active "b")
                        (contextFactory (newRuntime 0)))].
Proof.
  destruct (executeTransition_order hookedConfig toB (contextFactory (newRuntime 0))
              (runtimeOf (started hookedConfig)) newWorld
              (runtimeOf (started hookedConfig)) newWorld
              eq_refl eq_refl eq_refl eq_refl) as (rs & _ & ->).
  vm_compute. reflexivity.
Defined.

#[global] Instance onlyChild_preorder s : PreOrder (onlyChild s).
Proof.
  split.
  - intros rt s' _. reflexivity.
  - intros a b d Hab Hbd s' Hne. rewrite (Hbd s' Hne). apply Hab, Hne.
Qed.

Lemma onlyChild_fields s rt rt' :
  submachines rt' = submachines rt -> onlyChild s rt rt'.
Proof. intros H s' _. rewrite H. reflexivity. Qed.

Lemma onChild_onlyChild s op rt w :
  onlyChild (Active s) rt (runtimeOf (onChild s op rt w)).
Proof.
  unfold onChild. destruct (submachines rt !! s) as [child|]; [|reflexivity].
  destruct (op child w) as [[child' w'] o]. intros s' Hne. simpl.
  apply lookup_insert_ne. congruence.
Qed.

Lemma startSubmachines_onlyChild c ops state :
  respects (onlyChild state) (startSubmachines_body c ops state).
Proof.
  unfold startSubmachines_body.
  destruct state as [|s]; [apply respects_ret; apply _|].
  destruct (states c !! s) as [sc|]; [|apply respects_ret; apply _].
  destruct (argTruthy (submachine sc)); [|apply respects_ret; apply _].
  apply respects_this. intros rt w.
  destruct (submachines rt !! s) as [child|] eqn:E.
  - rewrite bind_run. simpl ret. cbv iota. apply onChild_onlyChild.
  - pose proof (new_StateMachine_runtime (submachine sc) rt w) as Hnew.
    rewrite !bind_run.
    destruct (new_StateMachine (submachine sc) rt w) as [[rt1 w1] [child|e]];
      unfold runtimeOf in Hnew; simpl in Hnew; subst rt1;
      [|simpl; reflexivity].
    unfold update at 1.
    etransitivity; [|apply onChild_onlyChild].
    intros s' Hne. simpl. apply lookup_insert_ne. congruence.
Qed.

Lemma enterState_onlyChild c state context :
  respects (onlyChild state) (enterState c state context).
Proof.
  unfold enterState, enterState_body.
  apply respects_bind; [apply _ | apply respects_enterState_hooks; apply _|].
  intros _. apply respects_bind; [apply _ | |intros _].
  - apply respects_try_catch; [apply _ | |].
    + apply respects_bind; [apply _ | |intros _].
      * apply respects_startAsyncActions; [apply _|].
        intros; apply onlyChild_fields; reflexivity.
      * apply respects_bind; [apply _ | |intros _].
        -- apply respects_startTimers; [apply _|].
           intros; apply onlyChild_fields; reflexivity.
        -- apply startSubmachines_onlyChild.
    + intros e. apply respects_enterState_rollback; [apply _ | |];
        intros; apply onlyChild_fields; reflexivity.
  - apply respects_update. intros; apply onlyChild_fields; reflexivity.
Qed.

Lemma exitState_onlyChild c context rt w :
  onlyChild (currentState rt) rt (runtimeOf (exitState c context rt w)).
Proof.
  assert (Hsub : onlyChild (currentState rt) rt (runtimeOf (stopSubmachines c rt w))).
  { unfold stopSubmachines, stopSubmachines_body. rewrite bind_this.
    destruct (currentState rt) as [|s]; [reflexivity | apply onChild_onlyChild]. }
  destruct (stopSubmachines c rt w) as [[rt1 w1] [[]|e]] eqn:Hrun.
  - rewrite (exitState_run c context rt w rt1 w1 Hrun). cbv zeta.
    etransitivity; [exact Hsub|]. apply onlyChild_fields.
    destruct (collect _); [|reflexivity].
    destruct (stateConfigOf c (currentState rt)); reflexivity.
  - unfold exitState, exitState_body. fold (stopSubmachines c).
    rewrite (bind_throws _ _ _ _ _ _ _ Hrun). exact Hsub.
Qed.

(** X21. The engine touches no child but those of the states it leaves and
    enters. [start] can change only the child of the initial state, [stop]
    only the child of the current state, and a transition only the children
    of the current state and of the state it enters; every other stored child
    is exactly as it was. *)
Theorem other_children_untouched c rt w s' :
  (Active s' <> Active (initialState c) ->
   submachines (runtimeOf (start c rt w)) !! s' = submachines rt !! s') /\
  (Active s' <> currentState rt ->
   submachines (runtimeOf (stop c rt w)) !! s' = submachines rt !! s') /\
  (forall t context,
     Active s' <> currentState rt ->
     Active s' <> nextStateOf t rt ->
     submachines (runtimeOf (executeTransition c t context rt w)) !! s'
     = submachines rt !! s').
Proof.
  split; [|split].
  - intros Hne. rewrite start_run.
    destruct (negb (isStarted rt)); [|reflexivity].
    apply (enterState_onlyChild c (Active (initialState c)) (createContext rt) rt w).
    exact Hne.
  - intros Hne. rewrite stop_run. destruct (isStarted rt); [|reflexivity].
    pose proof (exitState_onlyChild c (createContext rt) rt w s' Hne) as H.
    destruct (exitState c (createContext rt) rt w) as [[rt1 w1] [[]|e]]; exact H.
  - intros t context Hcur Hnext.
    destruct (ignore t) eqn:Hignore.
    + rewrite (executeTransition_ignore_run c t context rt w Hignore). reflexivity.
    + rewrite (executeTransition_middle c t context rt w Hignore). cbv zeta.
      assert (Hexit : submachines
                        (runtimeOf (when (normalMode t) (exitState c context) rt w))
                        !! s' = submachines rt !! s').
      { destruct (normalMode t); [|reflexivity].
        apply (exitState_onlyChild c context rt w s' Hcur). }
      destruct (when (normalMode t) (exitState c context) rt w)
        as [[rt1 w1] [[]|e]]; [|exact Hexit].
      unfold runtimeOf in Hexit. simpl in Hexit.
      destruct (collect _); [|exact Hexit].
      destruct (collect _); [|exact Hexit].
      match goal with
      | |- context [when _ ?m ?r ?x] =>
          assert (Henter : submachines (runtimeOf (when (normalMode t) m r x)) !! s'
                           = submachines r !! s')
      end.
      { destruct (normalMode t); [|reflexivity].
        apply (enterState_onlyChild c (nextStateOf t rt) context). exact Hnext. }
      destruct (when (normalMode t) _ rt1 _) as [[rt2 w2] [[]|e]];
        unfold runtimeOf in *; simpl in *; congruence.
Qed.

Lemma other_children_untouched_witness :
  currentState (runtimeOf atQ) = Active "q" /\
  is_Some (submachines (runtimeOf atQ) !! State "p") /\
  submachines (runtimeOf (executeTransition rowConfig toR
                            (contextFactory (runtimeOf atQ))
                            (runtimeOf atQ) (worldOf atQ))) !! State "p"
  = submachines (runtimeOf atQ) !! State "p".
Proof.
  split; [reflexivity|]. split; [eexists; vm_compute; reflexivity|].
  destruct (other_children_untouched rowConfig (runtimeOf atQ) (worldOf atQ) "p")
    as (_ & _ & H).
  apply H; discriminate.
Defined.
